(** * OCSF exporter of the Tikun13 compliance checker

    A shallow embedding of [src/assessment/ocsf-exporter.js] (class
    [OCSFExporter]) and the properties of its mapping rules.

    The exporter is JavaScript: its inputs are untyped, its lookup tables
    are object literals read with [table[key] || fallback], and a property
    read on [undefined] throws.  The first module fixes the fragment of the
    language the exporter uses; the second one embeds the exporter method by
    method; the theorems follow. *)

From stdpp Require Import gmap strings list fin_maps pretty.
From Stdlib Require Import ZArith.
From Stdlib Require Import Ascii.

Set Warnings "-register-all,-clear-no-such-hyp".
#[local] Open Scope Z_scope.

(** ** The JavaScript fragment *)

Module JS.

(** Values the exporter receives: what [JSON.parse] can build, plus
    [undefined] for an absent field.  Numbers are the integers (the exporter
    only passes numbers through and tests them for truthiness; [NaN],
    fractions and infinities are not represented).  An object is its finite
    map of own properties. *)
Inductive data :=
  | DUndefined
  | DNull
  | DBool (b : bool)
  | DNum (n : Z)
  | DStr (s : string)
  | DArr (elems : list data)
  | DObj (props : gmap string data).

Abbreviation obj := (gmap string data).

(** Built-in objects reachable from a plain object through its prototype:
    [Object.prototype] itself (through the [__proto__] accessor) and the
    functions stored on it. *)
Inductive native :=
  | ObjectPrototype
  | NativeFn (name : string).

(** What an expression of the exporter can evaluate to. *)
Inductive value :=
  | Data (d : data)
  | Native (f : native).

Coercion Data : data >-> value.

Inductive error := TypeError.

Inductive result (A : Type) :=
  | Ok (a : A)
  | Throw (e : error).
Arguments Ok {A} a.
Arguments Throw {A} e.

#[export] Instance result_ret : MRet result := λ A a, Ok a.
#[export] Instance result_bind : MBind result :=
  λ A B f r, match r with Ok a => f a | Throw e => Throw e end.
#[export] Instance result_fmap : FMap result :=
  λ A B f r, match r with Ok a => Ok (f a) | Throw e => Throw e end.

Definition is_ok {A} (r : result A) : bool :=
  match r with Ok _ => true | Throw _ => false end.

(** [ToBoolean]. *)
Definition to_boolean (d : data) : bool :=
  match d with
  | DUndefined | DNull => false
  | DBool b => b
  | DNum n => negb (n =? 0)
  | DStr s => negb (String.eqb s "")
  | DArr _ | DObj _ => true
  end.

Definition truthy (v : value) : bool :=
  match v with
  | Data d => to_boolean d
  | Native _ => true
  end.

(** [a || b] *)
Definition or_else (a b : value) : value := if truthy a then a else b.

(** [a || b] when both sides are input values or literals. *)
Definition or_data (a b : data) : data := if to_boolean a then a else b.

Definition is_nullish (d : data) : bool :=
  match d with DUndefined | DNull => true | _ => false end.

(** [Array.prototype.join]: [undefined] and [null] elements print as the
    empty string, the others through [ToString]. *)
Definition join_with (str : data → result string) (sep : string)
  : list data → result string :=
  fix go (l : list data) : result string :=
    match l with
    | [] => Ok ""%string
    | x :: rest =>
        s ← (if is_nullish x then Ok ""%string else str x);
        match rest with
        | [] => Ok s
        | _ => r ← go rest; Ok (s +:+ sep +:+ r)
        end
    end.

(** [ToString].  A number prints in decimal (exact below 10^21, where
    JavaScript switches to exponent notation).  An array prints through
    [join(",")].  A plain object prints as ["[object Object]"] through the
    inherited [toString]; when it has an own property [toString] (a datum,
    so not callable) [ToPrimitive] falls through to the inherited [valueOf],
    which returns the object itself, and a [TypeError] is thrown. *)
Fixpoint to_string (d : data) : result string :=
  match d with
  | DUndefined => Ok "undefined"%string
  | DNull => Ok "null"%string
  | DBool b => Ok (if b then "true" else "false")%string
  | DNum n => Ok (pretty n)
  | DStr s => Ok s
  | DArr l => join_with to_string "," l
  | DObj m =>
      match m !! "toString"%string with
      | Some _ => Throw TypeError
      | None => Ok "[object Object]"%string
      end
  end.

Definition join (sep : string) (l : list data) : result string :=
  join_with to_string sep l.

(** The source text of a built-in function, as the engines print it. *)
Definition native_to_string (f : native) : string :=
  match f with
  | ObjectPrototype => "[object Object]"
  | NativeFn name => "function " +:+ name +:+ "() { [native code] }"
  end.

Definition value_to_string (v : value) : result string :=
  match v with
  | Data d => to_string d
  | Native f => Ok (native_to_string f)
  end.

(** [ToPropertyKey] (there are no symbols among the data). *)
Definition to_property_key (d : data) : result string := to_string d.

(** The properties every plain object inherits from [Object.prototype]:
    property name and the name of the function found there. *)
Definition object_prototype_functions : list (string * string) :=
  [ ("constructor", "Object");
    ("hasOwnProperty", "hasOwnProperty");
    ("isPrototypeOf", "isPrototypeOf");
    ("propertyIsEnumerable", "propertyIsEnumerable");
    ("toLocaleString", "toLocaleString");
    ("toString", "toString");
    ("valueOf", "valueOf");
    ("__defineGetter__", "__defineGetter__");
    ("__defineSetter__", "__defineSetter__");
    ("__lookupGetter__", "__lookupGetter__");
    ("__lookupSetter__", "__lookupSetter__") ]%string.

Fixpoint assoc {A} (k : string) (l : list (string * A)) : option A :=
  match l with
  | [] => None
  | (k', a) :: rest => if String.eqb k k' then Some a else assoc k rest
  end.

Definition object_prototype_get (k : string) : option native :=
  if String.eqb k "__proto__" then Some ObjectPrototype
  else NativeFn <$> assoc k object_prototype_functions.

(** [o[k]] on a plain object: the own property, else the inherited one,
    else [undefined]. *)
Definition obj_get (o : obj) (k : string) : value :=
  match o !! k with
  | Some d => Data d
  | None =>
      match object_prototype_get k with
      | Some f => Native f
      | None => Data DUndefined
      end
  end.

(** The own property [k] of an object, [undefined] when it has none. *)
Definition field (m : obj) (k : string) : data := default DUndefined (m !! k).

(** [x.k] for a field name [k] of the data model.  None of those names is
    defined on a built-in prototype, so an object answers with its own
    property, an array or a string only for [length], and every other
    non-nullish value with [undefined].  Reading from [undefined] or [null]
    throws.  (Strings are byte strings here: the length of a non-ASCII
    string differs from JavaScript's, but it is zero for the same strings,
    which is all the exporter asks.) *)
Definition get (d : data) (k : string) : result data :=
  match d with
  | DUndefined | DNull => Throw TypeError
  | DObj m => Ok (field m k)
  | DArr l =>
      Ok (if String.eqb k "length" then DNum (Z.of_nat (length l)) else DUndefined)
  | DStr s =>
      Ok (if String.eqb k "length" then DNum (Z.of_nat (String.length s)) else DUndefined)
  | DBool _ | DNum _ => Ok DUndefined
  end.

(** [a === b], and [SameValueZero] (they differ on [NaN] only).  Arrays and
    objects compare by identity; the inputs are trees, so two of them at
    different places are different objects. *)
Definition strict_eq (a b : data) : bool :=
  match a, b with
  | DUndefined, DUndefined => true
  | DNull, DNull => true
  | DBool x, DBool y => Bool.eqb x y
  | DNum x, DNum y => x =? y
  | DStr x, DStr y => String.eqb x y
  | _, _ => false
  end.

(** [[s1, ..., sn].includes(x)] on an array literal of strings. *)
Definition literal_includes (l : list string) (x : data) : bool :=
  existsb (λ s, strict_eq (DStr s) x) l.

(** [x.includes(s)] for a string literal [s]: [Array.prototype.includes]
    on an array, [String.prototype.includes] on a string; no other datum has
    a callable [includes]. *)
Definition includes (x : data) (s : string) : result bool :=
  match x with
  | DArr l => Ok (existsb (λ e, strict_eq e (DStr s)) l)
  | DStr t => Ok (match String.index 0 s t with Some _ => true | None => false end)
  | _ => Throw TypeError
  end.

(** An array, or the [TypeError] of calling [map], [filter] or [join] on
    anything else. *)
Definition as_array (d : data) : result (list data) :=
  match d with
  | DArr l => Ok l
  | _ => Throw TypeError
  end.

(** What the exporter takes from its host: the clock ([date_now k] is the
    k-th reading of [Date.now()] since the program started), the printing of
    dates and of numbers in the host's locale, and the outcome of [s > 0]
    for a string [s] (which goes through [StringToNumber]). *)
Record Host := {
  date_now : nat → Z;
  date_toISOString : Z → string;
  number_toLocaleString : Z → string;
  string_gt_zero : string → bool
}.

(** [x > 0]: both sides go through [ToPrimitive] and [ToNumber]; a
    comparison with [NaN] is false. *)
Definition gt_zero (host : Host) (x : data) : result bool :=
  match x with
  | DUndefined | DNull => Ok false
  | DBool b => Ok b
  | DNum n => Ok (0 <? n)
  | DStr s => Ok (string_gt_zero host s)
  | DArr _ | DObj _ => s ← to_string x; Ok (string_gt_zero host s)
  end.

(** [x.toLocaleString()] for a non-nullish [x].  Numbers print in the
    host's locale; booleans and strings inherit
    [Object.prototype.toLocaleString], which calls their [toString]; an
    array joins the [toLocaleString] of its elements; a plain object
    inherits it too unless an own property shadows [toLocaleString] or
    [toString] with a datum, which is not callable. *)
Fixpoint to_locale_string (host : Host) (x : data) : result string :=
  match x with
  | DUndefined | DNull => Throw TypeError
  | DBool _ | DStr _ => to_string x
  | DNum n => Ok (number_toLocaleString host n)
  | DArr l => join_with (to_locale_string host) "," l
  | DObj m =>
      match m !! "toLocaleString"%string with
      | Some _ => Throw TypeError
      | None => to_string x
      end
  end.

End JS.

(** ** The exporter *)

Module Exporter.
Import JS.

(** *** Store, clock and exceptions

    [answers] is the one object the exporter copies and then modifies
    ([sanitizeAnswers]), so it lives in a store of objects and is passed by
    reference; every other input is only read and is passed as a value.  A
    computation reads the clock, reads and updates the store, and either
    returns or throws. *)

Abbreviation loc := positive.

Record state := { heap : gmap loc obj; ticks : nat }.

Definition M (A : Type) : Type := state → result (A * state).

#[export] Instance M_ret : MRet M := λ A a s, Ok (a, s).
#[export] Instance M_bind : MBind M :=
  λ A B f m s, match m s with Ok (a, s') => f a s' | Throw e => Throw e end.

Definition lift {A} (r : result A) : M A :=
  λ s, match r with Ok a => Ok (a, s) | Throw e => Throw e end.

(** [Date.now()] *)
Definition Date_now (host : Host) : M Z :=
  λ s, Ok (date_now host (ticks s), {| heap := heap s; ticks := S (ticks s) |}).

(** The own properties of the object at [l]; a reference to no object
    stands for [undefined], whose properties cannot be read. *)
Definition read (l : loc) : M obj :=
  λ s, match heap s !! l with
       | Some o => Ok (o, s)
       | None => Throw TypeError
       end.

(** [l.k] for a field name [k] of the data model. *)
Definition get_field (l : loc) (k : string) : M data :=
  o ← read l; mret (field o k).

(** [{ ...l }], the own properties to copy: those of the object at [l], and
    none when there is no object (spreading [undefined] copies nothing). *)
Definition spread (l : loc) : M obj :=
  λ s, Ok (default ∅ (heap s !! l), s).

(** A new object with the given own properties. *)
Definition alloc (o : obj) : M loc :=
  λ s, let l := fresh (dom (heap s)) in
       Ok (l, {| heap := <[l := o]> (heap s); ticks := ticks s |}).

(** [delete l.k] *)
Definition delete_property (l : loc) (k : string) : M unit :=
  λ s, match heap s !! l with
       | Some o => Ok (tt, {| heap := <[l := delete k o]> (heap s); ticks := ticks s |})
       | None => Throw TypeError
       end.

(** [l.map((x, index) => f x index)], from index [i] on. *)
Fixpoint map_indexed {A B} (f : A → nat → M B) (i : nat) (l : list A) : M (list B) :=
  match l with
  | [] => mret []
  | x :: rest => y ← f x i; ys ← map_indexed f (S i) rest; mret (y :: ys)
  end.

(** [l.filter(p)] and [l.map(f)] for callbacks that only read. *)
Fixpoint filter_result {A} (p : A → result bool) (l : list A) : result (list A) :=
  match l with
  | [] => Ok []
  | x :: rest =>
      b ← p x; ys ← filter_result p rest; Ok (if b : bool then x :: ys else ys)
  end.

Fixpoint map_result {A B} (f : A → result B) (l : list A) : result (list B) :=
  match l with
  | [] => Ok []
  | x :: rest => y ← f x; ys ← map_result f rest; Ok (y :: ys)
  end.

(** *** The documents the exporter builds

    Every object literal of the source is a record with the literal's
    properties in the literal's order.  A finding carries the reference to
    its sanitised copy of [answers]; the records are parametric in how that
    copy is presented ([loc] as built, the object itself once read back). *)

Record Product := {
  product_name : string;
  product_vendor_name : string;
  product_version : string
}.

Record Extension := { extension_name : string; extension_version : string }.

Record DocumentMetadata := {
  dm_version : string;
  dm_profiles : list string;
  dm_extension : Extension
}.

(** [{version, metadata, findings}]; [metadata] is [None] when the literal
    has no such property. *)
Record Document (F : Type) := {
  doc_version : string;
  doc_metadata : option DocumentMetadata;
  doc_findings : list F
}.
Arguments doc_version {F} _.
Arguments doc_metadata {F} _.
Arguments doc_findings {F} _.

Record FindingMetadata := {
  fm_version : string;
  fm_product : Product;
  fm_original_time : string;
  fm_processed_time : Z;
  fm_log_name : option string;
  fm_log_provider : option string
}.

Record Compliance := {
  compliance_requirements : list string;
  compliance_control : data;
  compliance_standards : list string;
  compliance_status : string;
  compliance_status_detail : data
}.

Record FindingInfo := {
  fi_title : data;
  fi_uid : string;
  fi_desc : data;
  fi_types : list data;
  fi_created_time : Z;
  fi_modified_time : option Z;
  fi_product_uid : string
}.

Record Remediation := { remediation_desc : string; remediation_kb_articles : value }.

Record Organization := { organization_name : value; organization_ou_name : value }.

Record ComplianceUnmapped (A : Type) := {
  cu_fine_amount_ils : data;
  cu_violation_category : data;
  cu_sensitive_data_types : data;
  cu_compliance_score : data;
  cu_assessment_answers : A
}.
Arguments cu_fine_amount_ils {A} _.
Arguments cu_violation_category {A} _.
Arguments cu_sensitive_data_types {A} _.
Arguments cu_compliance_score {A} _.
Arguments cu_assessment_answers {A} _.

Record ComplianceFinding (A : Type) := {
  cf_activity_id : Z;
  cf_category_uid : Z;
  cf_class_uid : Z;
  cf_time : Z;
  cf_severity_id : value;
  cf_type_uid : Z;
  cf_compliance : Compliance;
  cf_finding_info : FindingInfo;
  cf_risk_level_id : value;
  cf_impact_id : value;
  cf_confidence_id : Z;
  cf_status_id : Z;
  cf_disposition_id : Z;
  cf_remediation : Remediation;
  cf_impact_score : data;
  cf_metadata : FindingMetadata;
  cf_organization : Organization;
  cf_unmapped : ComplianceUnmapped A
}.
Arguments cf_activity_id {A} _.
Arguments cf_category_uid {A} _.
Arguments cf_class_uid {A} _.
Arguments cf_time {A} _.
Arguments cf_severity_id {A} _.
Arguments cf_type_uid {A} _.
Arguments cf_compliance {A} _.
Arguments cf_finding_info {A} _.
Arguments cf_risk_level_id {A} _.
Arguments cf_impact_id {A} _.
Arguments cf_confidence_id {A} _.
Arguments cf_status_id {A} _.
Arguments cf_disposition_id {A} _.
Arguments cf_remediation {A} _.
Arguments cf_impact_score {A} _.
Arguments cf_metadata {A} _.
Arguments cf_organization {A} _.
Arguments cf_unmapped {A} _.

Record DataSecurity := {
  ds_category_name : value;
  ds_confidentiality_id : Z;
  ds_detection_system : string;
  ds_policy : data
}.

Record Resource := {
  resource_type : string;
  resource_name : string;
  resource_uid : string;
  resource_criticality : Z
}.

Record DataSecurityUnmapped := {
  du_data_subjects_count : data;
  du_sensitive_data_types : data;
  du_violation_details : data
}.

Record DataSecurityFinding := {
  dsf_activity_id : Z;
  dsf_category_uid : Z;
  dsf_class_uid : Z;
  dsf_time : Z;
  dsf_severity_id : value;
  dsf_type_uid : Z;
  dsf_data_security : DataSecurity;
  dsf_finding_info : FindingInfo;
  dsf_is_suspected_breach : bool;
  dsf_impact_id : value;
  dsf_risk_level_id : value;
  dsf_disposition_id : Z;
  dsf_status_id : Z;
  dsf_resources : list Resource;
  dsf_metadata : FindingMetadata;
  dsf_unmapped : DataSecurityUnmapped
}.

Record Recommendation := {
  rec_priority : data;
  rec_category : data;
  rec_action : data;
  rec_description : data;
  rec_timeline : data;
  rec_reference : data;
  rec_uid : string
}.

Record ReportMetadata := {
  rm_generated_at : string;
  rm_assessment_type : string;
  rm_organization_type : value;
  rm_data_scale : value
}.

Record Summary := {
  summary_compliance_score : data;
  summary_risk_level : data;
  summary_total_violations : data;
  summary_total_fines : data;
  summary_critical_violations : Z;
  summary_high_violations : Z;
  summary_requires_dpo : data;
  summary_has_sensitive_data : data
}.

Record CombinedReport (A : Type) := {
  report_version : string;
  report_metadata : ReportMetadata;
  report_summary : Summary;
  report_compliance_findings : Document (ComplianceFinding A);
  report_data_security_findings : Document DataSecurityFinding;
  report_recommendations : list Recommendation;
  report_compliance_matrix : data
}.
Arguments report_version {A} _.
Arguments report_metadata {A} _.
Arguments report_summary {A} _.
Arguments report_compliance_findings {A} _.
Arguments report_data_security_findings {A} _.
Arguments report_recommendations {A} _.
Arguments report_compliance_matrix {A} _.

(** *** The class

    The constructor sets [this.version] and [this.product]; no method
    assigns them afterwards. *)

Definition version : string := "1.6.0".

Definition product : Product := {|
  product_name := "Tikun13 Compliance Checker";
  product_vendor_name := "Amendment 13 Assessment Tool";
  product_version := "1.0.0"
|}.

(** **** Mapping functions *)

(** [return mapping[severity] || 0;] *)
Definition mapSeverity (severity : data) : result value :=
  let mapping : obj := list_to_map
    [ ("critical", DNum 5);
      ("high", DNum 4);
      ("medium", DNum 3);
      ("low", DNum 2);
      ("info", DNum 1) ]%string in
  k ← to_property_key severity;
  Ok (or_else (obj_get mapping k) (DNum 0)).

Definition mapImpact (severity : data) : result value :=
  let mapping : obj := list_to_map
    [ ("critical", DNum 4);
      ("high", DNum 3);
      ("medium", DNum 2);
      ("low", DNum 1);
      ("info", DNum 0) ]%string in
  k ← to_property_key severity;
  Ok (or_else (obj_get mapping k) (DNum 0)).

Definition mapRiskLevel (riskLabel : data) : result value :=
  let mapping : obj := list_to_map
    [ ("קריטי", DNum 4);
      ("גבוה מאוד", DNum 4);
      ("גבוה", DNum 3);
      ("בינוני", DNum 2);
      ("נמוך", DNum 1);
      ("מינימלי", DNum 0) ]%string in
  k ← to_property_key riskLabel;
  Ok (or_else (obj_get mapping k) (DNum 0)).

(** **** Helper functions *)

Section WithHost.
Context (host : Host).

(** The template literal of [getDetailedDescription]; [fine?.toLocaleString()]
    is [undefined] for a nullish [fine]. *)
Definition getDetailedDescription (violation : data) : result string :=
  description ← get violation "description";
  s1 ← to_string description;
  law_reference ← get violation "law_reference";
  s2 ← to_string (or_data law_reference (DStr "כללי"));
  category ← get violation "category";
  s3 ← to_string category;
  fine ← get violation "fine";
  printed ← (if is_nullish fine then Ok DUndefined
             else DStr <$> to_locale_string host fine);
  s4 ← to_string (or_data printed (DStr "0"));
  Ok (s1 +:+ ". סעיף חוק: " +:+ s2 +:+ ". קטגוריה: " +:+ s3 +:+ ". קנס פוטנציאלי: ₪" +:+ s4).

Definition getRemediationText (violation recommendations : data) : result string :=
  recs ← as_array recommendations;
  relevantRecs ← filter_result
    (λ r, rc ← get r "category"; vc ← get violation "category";
          Ok (strict_eq rc vc)) recs;
  if (0 <? length relevantRecs)%nat then
    actions ← map_result (λ r, get r "action") relevantRecs;
    join "; " actions
  else
    law_reference ← get violation "law_reference";
    s ← to_string (or_data law_reference (DStr "תיקון 13"));
    Ok ("יש לתקן את ההפרה בהתאם לדרישות " +:+ s).

Definition getKnowledgeBaseArticles (category : data) : result value :=
  let articles : obj := list_to_map
    [ ("dpo", DArr [DStr "https://www.gov.il/he/departments/guides/data_protection_officer"]);
      ("registration", DArr [DStr "https://www.gov.il/he/service/database_registration"]);
      ("security", DArr [DStr "https://www.gov.il/he/departments/guides/data_security_regulations"]);
      ("consent", DArr [DStr "https://www.gov.il/he/departments/guides/consent_management"]);
      ("access_rights", DArr [DStr "https://www.gov.il/he/departments/guides/data_subject_rights"]);
      ("privacy_notice", DArr [DStr "https://www.gov.il/he/departments/guides/privacy_policy_requirements"]) ]%string in
  k ← to_property_key category;
  let found := obj_get articles k in
  if truthy found then Ok found
  else s ← to_string category;
       Ok (Data (DArr [DStr ("tikun13-" +:+ s +:+ "-guide")])).

Definition getOrganizationType (orgType : data) : result value :=
  let types : obj := list_to_map
    [ ("public", DStr "גוף ציבורי");
      ("private", DStr "חברה פרטית");
      ("databroker", DStr "סוחר נתונים");
      ("security", DStr "גוף ביטחוני");
      ("financial", DStr "מוסד פיננסי");
      ("healthcare", DStr "מוסד רפואי") ]%string in
  k ← to_property_key orgType;
  Ok (or_else (obj_get types k) (DStr "ארגון")).

Definition getDataScale (dataSubjectsCount : data) : result value :=
  let scales : obj := list_to_map
    [ ("less_10k", DStr "Small (<10K)");
      ("10k_100k", DStr "Medium (10K-100K)");
      ("100k_500k", DStr "Large (100K-500K)");
      ("500k_1m", DStr "Very Large (500K-1M)");
      ("over_1m", DStr "Enterprise (>1M)") ]%string in
  k ← to_property_key dataSubjectsCount;
  Ok (or_else (obj_get scales k) (DStr "Unknown")).

Definition getDataSecurityCategory (violationCategory : data) : result value :=
  let categories : obj := list_to_map
    [ ("consent", DStr "Consent Management");
      ("data_subjects", DStr "Data Subject Rights");
      ("access_rights", DStr "Access Control");
      ("data_minimization", DStr "Data Minimization");
      ("privacy_notice", DStr "Privacy Notice");
      ("third_party", DStr "Third Party Sharing") ]%string in
  k ← to_property_key violationCategory;
  Ok (or_else (obj_get categories k) (DStr "Privacy Violation")).

Definition getConfidentialityLevel (sensitiveData : data) : result Z :=
  if negb (to_boolean sensitiveData) then Ok 1
  else
    len ← get sensitiveData "length";
    if strict_eq len (DNum 0) then Ok 1
    else
      medical ← includes sensitiveData "medical";
      biometric ← (if medical : bool then Ok true else includes sensitiveData "biometric");
      if biometric : bool then Ok 4
      else
        financial ← includes sensitiveData "financial";
        criminal ← (if financial : bool then Ok true else includes sensitiveData "criminal");
        if criminal : bool then Ok 3 else Ok 2.

(** [answers.sensitive_data && answers.sensitive_data.length > 0]: the left
    operand when it is falsy, else the comparison. *)
Definition sensitive_data_nonempty (answers : loc) : M data :=
  sensitive_data ← get_field answers "sensitive_data";
  if negb (to_boolean sensitive_data) then mret sensitive_data
  else
    sensitive_data' ← get_field answers "sensitive_data";
    len ← lift (get sensitive_data' "length");
    nonempty ← lift (gt_zero host len);
    mret (DBool nonempty).

Definition getDataViolationDescription (violation : data) (answers : loc) : M data :=
  desc ← lift (get violation "description");
  sensitive ← sensitive_data_nonempty answers;
  desc ← (if to_boolean sensitive then
            sensitive_data ← get_field answers "sensitive_data";
            elems ← lift (as_array sensitive_data);
            joined ← lift (join ", " elems);
            s ← lift (to_string desc);
            mret (DStr (s +:+ ". מידע רגיש: " +:+ joined))
          else mret desc);
  data_subjects_count ← get_field answers "data_subjects_count";
  if to_boolean data_subjects_count then
    data_subjects_count' ← get_field answers "data_subjects_count";
    scale ← lift (getDataScale data_subjects_count');
    printed ← lift (value_to_string scale);
    s ← lift (to_string desc);
    mret (DStr (s +:+ ". היקף נושאי מידע: " +:+ printed))
  else mret desc.

Definition getAffectedResources (violation : data) (answers : loc) : M (list Resource) :=
  let resources : list Resource := [] in
  category ← lift (get violation "category");
  data_subjects ← (if strict_eq category (DStr "data_subjects") then mret true
                   else category' ← lift (get violation "category");
                        mret (strict_eq category' (DStr "consent")));
  resources ← (if data_subjects : bool then
                 sensitive_data ← get_field answers "sensitive_data";
                 mret (resources ++ [ {|
                   resource_type := "Database";
                   resource_name := "Personal Data Repository";
                   resource_uid := "pdr-001";
                   resource_criticality := if to_boolean sensitive_data then 4 else 2
                 |} ])
               else mret resources);
  category ← lift (get violation "category");
  if strict_eq category (DStr "third_party") then
    mret (resources ++ [ {|
      resource_type := "Third Party Integration";
      resource_name := "External Data Processors";
      resource_uid := "ext-proc-001";
      resource_criticality := 3
    |} ])
  else mret resources.

(** [a || b || (c && d && e)]: the value of the first truthy operand of
    [||], and inside [&&] the first falsy operand. *)
Definition requiresDPO (answers : loc) : M data :=
  org_type ← get_field answers "org_type";
  if strict_eq org_type (DStr "public") then mret (DBool true)
  else
    org_type' ← get_field answers "org_type";
    if strict_eq org_type' (DStr "databroker") then mret (DBool true)
    else
      sensitive ← sensitive_data_nonempty answers;
      if negb (to_boolean sensitive) then mret sensitive
      else
        data_subjects_count ← get_field answers "data_subjects_count";
        mret (DBool (literal_includes ["100k_500k"; "500k_1m"; "over_1m"]%string
                       data_subjects_count)).

(** The copy is a new object; the two [delete]s act on the copy. *)
Definition sanitizeAnswers (answers : loc) : M loc :=
  properties ← spread answers;
  sanitized ← alloc properties;
  delete_property sanitized "organization_name";;
  delete_property sanitized "contact_details";;
  mret sanitized.

(** [results.riskLevel?.label] *)
Definition riskLevel_label (results : data) : result data :=
  riskLevel ← get results "riskLevel";
  if is_nullish riskLevel then Ok DUndefined else get riskLevel "label".

(** **** Compliance findings (class_uid 2003) *)

Definition createComplianceFinding (violation : data) (index : nat)
    (results : data) (answers : loc) : M (ComplianceFinding loc) :=
  timestamp ← Date_now host;
  severity ← lift (get violation "severity");
  severity_id ← lift (mapSeverity severity);
  law_reference ← lift (get violation "law_reference");
  status_detail ← lift (get violation "description");
  title ← lift (get violation "description");
  desc ← lift (getDetailedDescription violation);
  category ← lift (get violation "category");
  riskLabel ← lift (riskLevel_label results);
  risk_level_id ← lift (mapRiskLevel riskLabel);
  severity' ← lift (get violation "severity");
  impact_id ← lift (mapImpact severity');
  recommendations ← lift (get results "recommendations");
  remediation_desc ← lift (getRemediationText violation recommendations);
  category' ← lift (get violation "category");
  kb_articles ← lift (getKnowledgeBaseArticles category');
  fine ← lift (get violation "fine");
  org_type ← get_field answers "org_type";
  organization_name ← lift (getOrganizationType org_type);
  data_subjects_count ← get_field answers "data_subjects_count";
  ou_name ← lift (getDataScale data_subjects_count);
  fine_amount_ils ← lift (get violation "fine");
  violation_category ← lift (get violation "category");
  sensitive_data ← get_field answers "sensitive_data";
  compliance_score ← lift (get results "score");
  assessment_answers ← sanitizeAnswers answers;
  mret {|
    cf_activity_id := 1;
    cf_category_uid := 2;
    cf_class_uid := 2003;
    cf_time := timestamp;
    cf_severity_id := severity_id;
    cf_type_uid := 200301;
    cf_compliance := {|
      compliance_requirements := ["Israeli Privacy Protection Law - Amendment 13"];
      compliance_control := or_data law_reference (DStr "General Requirement");
      compliance_standards := ["IL-PPL-Amendment-13-2025"];
      compliance_status := "Non-Compliant";
      compliance_status_detail := status_detail
    |};
    cf_finding_info := {|
      fi_title := title;
      fi_uid := "tikun13-" +:+ pretty timestamp +:+ "-" +:+ pretty index;
      fi_desc := DStr desc;
      fi_types := [category];
      fi_created_time := timestamp;
      fi_modified_time := Some timestamp;
      fi_product_uid := "tikun13-checker"
    |};
    cf_risk_level_id := risk_level_id;
    cf_impact_id := impact_id;
    cf_confidence_id := 3;
    cf_status_id := 1;
    cf_disposition_id := 99;
    cf_remediation := {|
      remediation_desc := remediation_desc;
      remediation_kb_articles := kb_articles
    |};
    cf_impact_score := or_data fine (DNum 0);
    cf_metadata := {|
      fm_version := version;
      fm_product := product;
      fm_original_time := date_toISOString host timestamp;
      fm_processed_time := timestamp;
      fm_log_name := Some "Amendment13ComplianceAssessment"%string;
      fm_log_provider := Some "Tikun13Checker"%string
    |};
    cf_organization := {|
      organization_name := organization_name;
      organization_ou_name := ou_name
    |};
    cf_unmapped := {|
      cu_fine_amount_ils := fine_amount_ils;
      cu_violation_category := violation_category;
      cu_sensitive_data_types := or_data sensitive_data (DArr []);
      cu_compliance_score := compliance_score;
      cu_assessment_answers := assessment_answers
    |}
  |}.

Definition exportComplianceFindings (results : data) (answers : loc)
  : M (Document (ComplianceFinding loc)) :=
  violations ← lift (get results "violations");
  elems ← lift (as_array violations);
  findings ← map_indexed
    (λ violation index, createComplianceFinding violation index results answers)
    0 elems;
  mret {|
    doc_version := version;
    doc_metadata := Some {|
      dm_version := version;
      dm_profiles := ["compliance"; "privacy"];
      dm_extension := {|
        extension_name := "Israeli Privacy Law Amendment 13";
        extension_version := "2025"
      |}
    |};
    doc_findings := findings
  |}.

(** **** Data security findings (class_uid 2006) *)

Definition createDataSecurityFinding (violation : data) (index : nat)
    (results : data) (answers : loc) : M DataSecurityFinding :=
  timestamp ← Date_now host;
  category ← lift (get violation "category");
  let isSuspectedBreach := literal_includes ["consent"; "data_subjects"]%string category in
  severity ← lift (get violation "severity");
  severity_id ← lift (mapSeverity severity);
  category' ← lift (get violation "category");
  category_name ← lift (getDataSecurityCategory category');
  sensitive_data ← get_field answers "sensitive_data";
  confidentiality_id ← lift (getConfidentialityLevel sensitive_data);
  law_reference ← lift (get violation "law_reference");
  title ← lift (get violation "description");
  desc ← getDataViolationDescription violation answers;
  category'' ← lift (get violation "category");
  severity' ← lift (get violation "severity");
  impact_id ← lift (mapImpact severity');
  riskLabel ← lift (riskLevel_label results);
  risk_level_id ← lift (mapRiskLevel riskLabel);
  resources ← getAffectedResources violation answers;
  data_subjects_count ← get_field answers "data_subjects_count";
  sensitive_data' ← get_field answers "sensitive_data";
  mret {|
    dsf_activity_id := 2;
    dsf_category_uid := 2;
    dsf_class_uid := 2006;
    dsf_time := timestamp;
    dsf_severity_id := severity_id;
    dsf_type_uid := 200602;
    dsf_data_security := {|
      ds_category_name := category_name;
      ds_confidentiality_id := confidentiality_id;
      ds_detection_system := "Amendment 13 Compliance Assessment";
      ds_policy := or_data law_reference (DStr "Privacy Protection Policy")
    |};
    dsf_finding_info := {|
      fi_title := title;
      fi_uid := "tikun13-data-" +:+ pretty timestamp +:+ "-" +:+ pretty index;
      fi_desc := desc;
      fi_types := [DStr "Privacy Violation"; category''];
      fi_created_time := timestamp;
      fi_modified_time := None;
      fi_product_uid := "tikun13-checker"
    |};
    dsf_is_suspected_breach := isSuspectedBreach;
    dsf_impact_id := impact_id;
    dsf_risk_level_id := risk_level_id;
    dsf_disposition_id := if isSuspectedBreach then 2 else 99;
    dsf_status_id := 1;
    dsf_resources := resources;
    dsf_metadata := {|
      fm_version := version;
      fm_product := product;
      fm_original_time := date_toISOString host timestamp;
      fm_processed_time := timestamp;
      fm_log_name := None;
      fm_log_provider := None
    |};
    dsf_unmapped := {|
      du_data_subjects_count := data_subjects_count;
      du_sensitive_data_types := or_data sensitive_data' (DArr []);
      du_violation_details := violation
    |}
  |}.

Definition dataCategories : list string :=
  ["data_subjects"; "consent"; "access_rights"; "data_minimization";
   "privacy_notice"; "third_party"]%string.

(** [v => dataCategories.includes(v.category)] *)
Definition is_data_violation (v : data) : result bool :=
  category ← get v "category"; Ok (literal_includes dataCategories category).

Definition exportDataSecurityFindings (results : data) (answers : loc)
  : M (Document DataSecurityFinding) :=
  violations ← lift (get results "violations");
  elems ← lift (as_array violations);
  dataViolations ← lift (filter_result is_data_violation elems);
  if (length dataViolations =? 0)%nat then
    mret {| doc_version := version; doc_metadata := None; doc_findings := [] |}
  else
    findings ← map_indexed
      (λ violation index, createDataSecurityFinding violation index results answers)
      0 dataViolations;
    mret {|
      doc_version := version;
      doc_metadata := Some {|
        dm_version := version;
        dm_profiles := ["data_security"; "privacy"];
        dm_extension := {|
          extension_name := "Israeli Privacy Law Data Protection";
          extension_version := "2025"
        |}
      |};
      doc_findings := findings
    |}.

(** **** Recommendations and the combined report *)

Definition exportRecommendations (recommendations : data) : M (list Recommendation) :=
  recs ← lift (as_array recommendations);
  map_indexed
    (λ rec index,
       priority ← lift (get rec "priority");
       category ← lift (get rec "category");
       action ← lift (get rec "action");
       description ← lift (get rec "description");
       timeline ← lift (get rec "timeline");
       reference ← lift (get rec "reference");
       now ← Date_now host;
       mret {|
         rec_priority := priority;
         rec_category := category;
         rec_action := action;
         rec_description := description;
         rec_timeline := timeline;
         rec_reference := or_data reference (DStr "Amendment 13 Requirements");
         rec_uid := "rec-" +:+ pretty now +:+ "-" +:+ pretty index
       |})
    0 recs.

(** [results.violations.filter(v => v.severity === s).length] *)
Definition count_severity (results : data) (s : string) : result Z :=
  violations ← get results "violations";
  elems ← as_array violations;
  matching ← filter_result
    (λ v, severity ← get v "severity"; Ok (strict_eq severity (DStr s))) elems;
  Ok (Z.of_nat (length matching)).

Definition exportCombinedReport (results : data) (answers : loc)
  : M (CombinedReport loc) :=
  timestamp ← Date_now host;
  org_type ← get_field answers "org_type";
  organization_type ← lift (getOrganizationType org_type);
  data_subjects_count ← get_field answers "data_subjects_count";
  data_scale ← lift (getDataScale data_subjects_count);
  compliance_score ← lift (get results "score");
  riskLabel ← lift (riskLevel_label results);
  violations ← lift (get results "violations");
  total_violations ← lift (get violations "length");
  total_fines ← lift (get results "totalFines");
  critical_violations ← lift (count_severity results "critical");
  high_violations ← lift (count_severity results "high");
  requires_dpo ← requiresDPO answers;
  has_sensitive_data ← sensitive_data_nonempty answers;
  compliance_findings ← exportComplianceFindings results answers;
  data_security_findings ← exportDataSecurityFindings results answers;
  recommendations ← lift (get results "recommendations");
  recommendations' ← exportRecommendations recommendations;
  compliance_matrix ← lift (get results "complianceMatrix");
  mret {|
    report_version := version;
    report_metadata := {|
      rm_generated_at := date_toISOString host timestamp;
      rm_assessment_type := "Amendment 13 Compliance Assessment";
      rm_organization_type := organization_type;
      rm_data_scale := data_scale
    |};
    report_summary := {|
      summary_compliance_score := compliance_score;
      summary_risk_level := or_data riskLabel (DStr "Unknown");
      summary_total_violations := total_violations;
      summary_total_fines := total_fines;
      summary_critical_violations := critical_violations;
      summary_high_violations := high_violations;
      summary_requires_dpo := requires_dpo;
      summary_has_sensitive_data := has_sensitive_data
    |};
    report_compliance_findings := compliance_findings;
    report_data_security_findings := data_security_findings;
    report_recommendations := recommendations';
    report_compliance_matrix := compliance_matrix
  |}.

End WithHost.

(** *** The data model of the inputs

    What the scoring engine hands over: a violation, a recommendation and
    the fields of [answers] the exporter reads hold text, numbers or nothing;
    [sensitive_data] is a list of such tags when it is there. *)

Definition is_primitive (d : data) : bool :=
  match d with
  | DArr _ | DObj _ => false
  | _ => true
  end.

Definition is_violation (v : data) : bool :=
  match v with
  | DObj m =>
      forallb (λ k, is_primitive (field m k))
        ["description"; "category"; "severity"; "law_reference"; "fine"]%string
  | _ => false
  end.

Definition is_recommendation (r : data) : bool :=
  match r with
  | DObj m => is_primitive (field m "category") && is_primitive (field m "action")
  | _ => false
  end.

Definition is_tags (d : data) : bool :=
  match d with
  | DUndefined => true
  | DArr l => forallb is_primitive l
  | _ => false
  end.

Definition is_answers (m : obj) : bool :=
  is_tags (field m "sensitive_data")
  && is_primitive (field m "org_type")
  && is_primitive (field m "data_subjects_count").

Definition is_results (results : data) : bool :=
  match results with
  | DObj m =>
      match field m "violations" with
      | DArr vs => forallb is_violation vs
      | _ => false
      end
      && match field m "recommendations" with
         | DArr rs => forallb is_recommendation rs
         | _ => false
         end
      && match field m "riskLevel" with
         | DObj riskLevel => is_primitive (field riskLevel "label")
         | _ => true
         end
  | _ => false
  end.

(** [sensitive_data] as the data model has it: absent, or a list. *)
Definition absent_or_array (d : data) : bool :=
  match d with
  | DUndefined | DArr _ => true
  | _ => false
  end.

(** The condition under which a data protection officer is required. *)
Definition dpo_required (m : obj) : Prop :=
  field m "org_type" = DStr "public"
  ∨ field m "org_type" = DStr "databroker"
  ∨ ∃ l c, field m "sensitive_data" = DArr l ∧ l ≠ []
           ∧ field m "data_subjects_count" = DStr c
           ∧ c ∈ ["100k_500k"; "500k_1m"; "over_1m"]%string.

(** [answers] without the two identifying fields. *)
Definition sanitized (m : obj) : obj :=
  delete "contact_details"%string (delete "organization_name"%string m).

(** The violations of a results object, [[]] when there is no such array. *)
Definition violations_of (results : data) : list data :=
  match results with
  | DObj m => match field m "violations" with DArr vs => vs | _ => [] end
  | _ => []
  end.

(** The category of a violation is one of [dataCategories]. *)
Definition has_data_category (v : data) : bool :=
  match v with
  | DObj m =>
      match field m "category" with
      | DStr c => bool_decide (c ∈ dataCategories)
      | _ => false
      end
  | _ => false
  end.

(** *** Reading a document back

    The sanitised copies are objects of the store; to compare two documents
    the references are replaced by what the store holds there. *)

Definition cu_map {A B} (g : A → B) (u : ComplianceUnmapped A) : ComplianceUnmapped B := {|
  cu_fine_amount_ils := cu_fine_amount_ils u;
  cu_violation_category := cu_violation_category u;
  cu_sensitive_data_types := cu_sensitive_data_types u;
  cu_compliance_score := cu_compliance_score u;
  cu_assessment_answers := g (cu_assessment_answers u)
|}.

Definition cf_map {A B} (g : A → B) (f : ComplianceFinding A) : ComplianceFinding B := {|
  cf_activity_id := cf_activity_id f;
  cf_category_uid := cf_category_uid f;
  cf_class_uid := cf_class_uid f;
  cf_time := cf_time f;
  cf_severity_id := cf_severity_id f;
  cf_type_uid := cf_type_uid f;
  cf_compliance := cf_compliance f;
  cf_finding_info := cf_finding_info f;
  cf_risk_level_id := cf_risk_level_id f;
  cf_impact_id := cf_impact_id f;
  cf_confidence_id := cf_confidence_id f;
  cf_status_id := cf_status_id f;
  cf_disposition_id := cf_disposition_id f;
  cf_remediation := cf_remediation f;
  cf_impact_score := cf_impact_score f;
  cf_metadata := cf_metadata f;
  cf_organization := cf_organization f;
  cf_unmapped := cu_map g (cf_unmapped f)
|}.

Definition doc_map {F G} (g : F → G) (d : Document F) : Document G := {|
  doc_version := doc_version d;
  doc_metadata := doc_metadata d;
  doc_findings := g <$> doc_findings d
|}.

Definition report_map {A B} (g : A → B) (r : CombinedReport A) : CombinedReport B := {|
  report_version := report_version r;
  report_metadata := report_metadata r;
  report_summary := report_summary r;
  report_compliance_findings := doc_map (cf_map g) (report_compliance_findings r);
  report_data_security_findings := report_data_security_findings r;
  report_recommendations := report_recommendations r;
  report_compliance_matrix := report_compliance_matrix r
|}.

(** The report with every sanitised copy read from the store [h]. *)
Definition read_back (h : gmap loc obj) (r : CombinedReport loc)
  : CombinedReport (option obj) :=
  report_map (λ l, h !! l) r.

(** The sanitised copy a finding refers to. *)
Definition assessment_answers {A} (f : ComplianceFinding A) : A :=
  cu_assessment_answers (cf_unmapped f).

(** A clock that stands still. *)
Definition fixed_clock (host : Host) (t : Z) : Prop := ∀ k, date_now host k = t.

(** *** A host and inputs for the examples *)

Definition example_host : Host := {|
  date_now := λ k, 1700000000000 + Z.of_nat k;
  date_toISOString := λ t, "T" +:+ pretty t;
  number_toLocaleString := λ n, pretty n;
  string_gt_zero := λ _, false
|}.

Definition frozen_host : Host := {|
  date_now := λ _, 1700000000000;
  date_toISOString := λ t, "T" +:+ pretty t;
  number_toLocaleString := λ n, pretty n;
  string_gt_zero := λ _, false
|}.

Definition object (l : list (string * data)) : obj := list_to_map l.

Definition consent_violation : data := DObj (object
  [ ("description", DStr "No consent records");
    ("category", DStr "consent");
    ("severity", DStr "critical");
    ("fine", DNum 50000) ]%string).

Definition dpo_violation : data := DObj (object
  [ ("description", DStr "No data protection officer");
    ("category", DStr "dpo");
    ("severity", DStr "high");
    ("law_reference", DStr "17B") ]%string).

Definition third_party_violation : data := DObj (object
  [ ("description", DStr "Unlisted processors");
    ("category", DStr "third_party");
    ("severity", DStr "medium") ]%string).

Definition example_results : data := DObj (object
  [ ("score", DNum 40);
    ("riskLevel", DObj (object [("label", DStr "גבוה")]%string));
    ("violations", DArr [consent_violation; dpo_violation; third_party_violation]);
    ("totalFines", DNum 50000);
    ("recommendations", DArr [ DObj (object
        [ ("priority", DNum 1);
          ("category", DStr "dpo");
          ("action", DStr "Appoint a DPO") ]%string) ]);
    ("complianceMatrix", DObj ∅) ]%string).

(** No violation of a data category. *)
Definition dpo_only_results : data := DObj (object
  [ ("score", DNum 80);
    ("violations", DArr [dpo_violation]);
    ("recommendations", DArr []) ]%string).

Definition empty_results : data := DObj (object
  [ ("score", DNum 100);
    ("violations", DArr []);
    ("recommendations", DArr []) ]%string).

Definition example_answers : obj := object
  [ ("org_type", DStr "private");
    ("data_subjects_count", DStr "over_1m");
    ("sensitive_data", DArr [DStr "medical"; DStr "financial"]);
    ("organization_name", DStr "ACME Ltd");
    ("contact_details", DObj (object [("email", DStr "dpo@acme.example")]%string));
    ("has_privacy_policy", DBool true) ]%string.

(** [answers] without [sensitive_data], for a small private organisation. *)
Definition bare_answers : obj := object
  [ ("org_type", DStr "private");
    ("data_subjects_count", DStr "less_10k") ]%string.

Definition store_with (answers : obj) : state :=
  {| heap := {[ 1%positive := answers ]}; ticks := 0 |}.

End Exporter.

(** ** Properties of the exporter *)

Import JS Exporter.

(** *** Notions the properties are stated with

    [results.violations] as the exporter reads it, for any results value:
    the elements when it is an array, none otherwise. *)

Definition violations_of_array (results : data) : list data :=
  match get results "violations" with
  | Ok violations => match as_array violations with Ok elems => elems | Throw _ => [] end
  | Throw _ => []
  end.

(** The identifiers of a combined report: those of its compliance findings,
    of its data security findings and of its recommendations. *)
Definition report_uids {A} (r : CombinedReport A) : list string :=
  ((λ f, fi_uid (cf_finding_info f)) <$> doc_findings (report_compliance_findings r))
  ++ ((λ f, fi_uid (dsf_finding_info f)) <$> doc_findings (report_data_security_findings r))
  ++ (rec_uid <$> report_recommendations r).

(** The character [c] occurs in [s]. *)
Fixpoint contains (c : Ascii.ascii) (s : string) : bool :=
  match s with
  | EmptyString => false
  | String c' rest => Ascii.eqb c c' || contains c rest
  end.

Definition is_digit (c : Ascii.ascii) : bool :=
  existsb (Ascii.eqb c) ["0"; "1"; "2"; "3"; "4"; "5"; "6"; "7"; "8"; "9"]%char.

(** What follows the last dash of [s] ([s] itself when it has none). *)
Fixpoint last_segment (s : string) : string :=
  match s with
  | EmptyString => EmptyString
  | String c rest =>
      if contains "-" rest then last_segment rest
      else if Ascii.eqb c "-" then rest else s
  end.

(** The violation [v] has the severity [sev]: [v.severity === sev]. *)
Definition has_severity (sev : string) (v : data) : bool :=
  match get v "severity" with
  | Ok severity => strict_eq severity (DStr sev)
  | Throw _ => false
  end.

(** The finding [f] carries the number [n] as its [severity_id]. *)
Definition has_severity_id {A} (n : Z) (f : ComplianceFinding A) : bool :=
  match cf_severity_id f with
  | Data (DNum k) => k =? n
  | _ => false
  end.

(** Two runs of a computation, one from a store where [a] holds [m1] and one
    from a store where it holds [m2], at the same reading of the clock: both
    throw, or both return, with results that [e] cannot tell apart and again
    at the same reading of the clock. *)
Definition agree {A B} (a : loc) (m1 m2 : obj) (e : A → B) (c1 c2 : M A) : Prop :=
  ∀ s1 s2, heap s1 !! a = Some m1 → heap s2 !! a = Some m2 → ticks s1 = ticks s2 →
    match c1 s1, c2 s2 with
    | Ok (x1, s1'), Ok (x2, s2') =>
        e x1 = e x2 ∧ heap s1' !! a = Some m1 ∧ heap s2' !! a = Some m2
        ∧ ticks s1' = ticks s2'
    | Throw _, Throw _ => True
    | _, _ => False
    end.

(** What a caller can observe of a call of [exportCombinedReport]: the
    exception, or the report with the sanitised copies read from the store
    the call left. *)
Definition observed (c : result (CombinedReport loc * state))
  : result (CombinedReport (option obj)) :=
  (λ rs, read_back (heap rs.2) rs.1) <$> c.

(** The record [o] stands for the recommendation [r]: five fields passed on
    as they are, and the reference, or its default when it is falsy. *)
Definition recommendation_of (r : data) (o : Recommendation) : Prop :=
  get r "priority" = Ok (rec_priority o)
  ∧ get r "category" = Ok (rec_category o)
  ∧ get r "action" = Ok (rec_action o)
  ∧ get r "description" = Ok (rec_description o)
  ∧ get r "timeline" = Ok (rec_timeline o)
  ∧ ∃ reference,
      get r "reference" = Ok reference
      ∧ rec_reference o
        = if to_boolean reference then reference else DStr "Amendment 13 Requirements".

(** What a compliance finding and a data security finding say about their
    violation in the same words: title, types (a data security finding puts
    'Privacy Violation' first), severity, impact and risk level. *)
Definition compliance_core {A} (f : ComplianceFinding A)
  : data * list data * value * value * value :=
  (fi_title (cf_finding_info f),
   DStr "Privacy Violation" :: fi_types (cf_finding_info f),
   cf_severity_id f, cf_impact_id f, cf_risk_level_id f).

Definition data_security_core (g : DataSecurityFinding)
  : data * list data * value * value * value :=
  (fi_title (dsf_finding_info g),
   fi_types (dsf_finding_info g),
   dsf_severity_id g, dsf_impact_id g, dsf_risk_level_id g).

(** *** Conversions *)

Lemma to_string_primitive (d : data) :
  is_primitive d = true → ∃ s, to_string d = Ok s.
Proof. destruct d; simpl; intros; try discriminate; eauto. Qed.

Lemma to_locale_string_primitive (host : Host) (d : data) :
  is_primitive d = true → is_nullish d = false →
  ∃ s, to_locale_string host d = Ok s.
Proof. destruct d; simpl; intros; try discriminate; eauto. Qed.

Lemma or_data_primitive (a b : data) :
  is_primitive a = true → is_primitive b = true → is_primitive (or_data a b) = true.
Proof. unfold or_data. by destruct (to_boolean a). Qed.

(** A key that is no own property of a table and is not inherited reads as
    [undefined]. *)
Lemma obj_get_absent (l : list (string * data)) (k : string) :
  k ∉ l.*1 → object_prototype_get k = None →
  obj_get (list_to_map l) k = Data DUndefined.
Proof.
  intros Hk Hp. unfold obj_get.
  by rewrite (not_elem_of_list_to_map_1 _ _ Hk), Hp.
Qed.

(** *** Severity tables *)

Lemma mapSeverity_known :
  mapSeverity (DStr "critical") = Ok (Data (DNum 5))
  ∧ mapSeverity (DStr "high") = Ok (Data (DNum 4))
  ∧ mapSeverity (DStr "medium") = Ok (Data (DNum 3))
  ∧ mapSeverity (DStr "low") = Ok (Data (DNum 2))
  ∧ mapSeverity (DStr "info") = Ok (Data (DNum 1)).
Proof. repeat split; reflexivity. Qed.

Lemma mapImpact_known :
  mapImpact (DStr "critical") = Ok (Data (DNum 4))
  ∧ mapImpact (DStr "high") = Ok (Data (DNum 3))
  ∧ mapImpact (DStr "medium") = Ok (Data (DNum 2))
  ∧ mapImpact (DStr "low") = Ok (Data (DNum 1))
  ∧ mapImpact (DStr "info") = Ok (Data (DNum 0)).
Proof. repeat split; reflexivity. Qed.

(** A string that is not a key of the table and not a property of
    [Object.prototype] falls back to 0. *)
Lemma mapSeverity_fallback (s : string) :
  s ∉ ["critical"; "high"; "medium"; "low"; "info"]%string →
  object_prototype_get s = None →
  mapSeverity (DStr s) = Ok (Data (DNum 0)) ∧ mapImpact (DStr s) = Ok (Data (DNum 0)).
Proof.
  intros Hs Hp. unfold mapSeverity, mapImpact, to_property_key.
  cbn [to_string mbind result_bind].
  rewrite !obj_get_absent; done.
Qed.

(** Neither table throws on text, numbers, booleans, [null] or
    [undefined]. *)
Lemma mapSeverity_total (d : data) :
  is_primitive d = true →
  is_ok (mapSeverity d) = true ∧ is_ok (mapImpact d) = true.
Proof.
  intros [s Hs]%to_string_primitive.
  unfold mapSeverity, mapImpact, to_property_key. rewrite Hs. done.
Qed.

(** C2, at the input where the code departs from the claim: [severity] is
    the string ["constructor"].  The table has no such own property, the
    lookup finds [Object.prototype.constructor], the function [Object],
    which is truthy, so [mapSeverity] and [mapImpact] return that function
    and not 0. *)
Theorem mapSeverity_constructor :
  mapSeverity (DStr "constructor") = Ok (Native (NativeFn "Object"))
  ∧ mapImpact (DStr "constructor") = Ok (Native (NativeFn "Object")).
Proof. split; reflexivity. Qed.

(** *** Confidentiality level *)

Lemma strict_eq_str (e : data) (s : string) :
  strict_eq e (DStr s) = true ↔ e = DStr s.
Proof.
  destruct e; simpl; try (split; [discriminate | congruence]).
  rewrite String.eqb_eq. split; congruence.
Qed.

Lemma strict_eq_str_l (s : string) (e : data) :
  strict_eq (DStr s) e = true ↔ e = DStr s.
Proof.
  destruct e; simpl; try (split; [discriminate | congruence]).
  rewrite String.eqb_eq. split; congruence.
Qed.

(** [Array.prototype.includes] with a string decides membership. *)
Lemma includes_array (l : list data) (s : string) :
  ∃ b, includes (DArr l) s = Ok b ∧ (b = true ↔ DStr s ∈ l).
Proof.
  eexists. split; [reflexivity |].
  rewrite existsb_exists. split.
  - intros (e & Hin & ->%strict_eq_str). by apply list_elem_of_In.
  - intros Hin. exists (DStr s). split; [by apply list_elem_of_In |].
    by apply strict_eq_str.
Qed.

Lemma getConfidentialityLevel_array (l : list data) :
  l ≠ [] →
  ∃ medical biometric financial criminal : bool,
    (medical = true ↔ DStr "medical" ∈ l)
    ∧ (biometric = true ↔ DStr "biometric" ∈ l)
    ∧ (financial = true ↔ DStr "financial" ∈ l)
    ∧ (criminal = true ↔ DStr "criminal" ∈ l)
    ∧ getConfidentialityLevel (DArr l)
      = Ok (if medical || biometric then 4
            else if financial || criminal then 3 else 2).
Proof.
  intros Hl.
  destruct (includes_array l "medical") as (m & Em & Hm).
  destruct (includes_array l "biometric") as (b & Eb & Hb).
  destruct (includes_array l "financial") as (f & Ef & Hf).
  destruct (includes_array l "criminal") as (c & Ec & Hc).
  exists m, b, f, c. repeat (split; [assumption |]).
  unfold getConfidentialityLevel.
  cbn [to_boolean negb get String.eqb Ascii.eqb Bool.eqb mbind result_bind strict_eq].
  replace (Z.of_nat (length l) =? 0) with false
    by (symmetry; apply Z.eqb_neq; destruct l; [done | simpl; lia]).
  rewrite Em, Eb, Ef, Ec. cbn [mbind result_bind].
  destruct m, b, f, c; reflexivity.
Qed.

(** C4: [getConfidentialityLevel] is 1 for absent or empty
    [sensitive_data]; 4 when the list contains 'medical' or 'biometric';
    otherwise 3 when it contains 'financial' or 'criminal'; otherwise 2.
    The first test wins: ['medical', 'financial'] gives 4. *)
Theorem getConfidentialityLevel_spec (l : list data) :
  getConfidentialityLevel DUndefined = Ok 1
  ∧ getConfidentialityLevel (DArr []) = Ok 1
  ∧ (DStr "medical" ∈ l ∨ DStr "biometric" ∈ l →
     getConfidentialityLevel (DArr l) = Ok 4)
  ∧ (DStr "medical" ∉ l → DStr "biometric" ∉ l →
     DStr "financial" ∈ l ∨ DStr "criminal" ∈ l →
     getConfidentialityLevel (DArr l) = Ok 3)
  ∧ (l ≠ [] →
     DStr "medical" ∉ l → DStr "biometric" ∉ l →
     DStr "financial" ∉ l → DStr "criminal" ∉ l →
     getConfidentialityLevel (DArr l) = Ok 2)
  ∧ getConfidentialityLevel (DArr [DStr "medical"; DStr "financial"]) = Ok 4.
Proof.
  split; [reflexivity |]. split; [reflexivity |].
  assert (Hcases : l ≠ [] → ∃ m b f c : bool,
    (m = true ↔ DStr "medical" ∈ l) ∧ (b = true ↔ DStr "biometric" ∈ l)
    ∧ (f = true ↔ DStr "financial" ∈ l) ∧ (c = true ↔ DStr "criminal" ∈ l)
    ∧ getConfidentialityLevel (DArr l)
      = Ok (if m || b then 4 else if f || c then 3 else 2))
    by apply getConfidentialityLevel_array.
  split; [| split; [| split; [| reflexivity]]].
  - intros Hin.
    destruct Hcases as (m & b & f & c & Hm & Hb & _ & _ & ->).
    { intros ->. destruct Hin as [Hin | Hin]; by apply elem_of_nil in Hin. }
    destruct Hin as [Hin | Hin]; [apply Hm in Hin | apply Hb in Hin]; subst;
      [reflexivity | by destruct m].
  - intros Hm' Hb' Hin.
    destruct Hcases as (m & b & f & c & Hm & Hb & Hf & Hc & ->).
    { intros ->. destruct Hin as [Hin | Hin]; by apply elem_of_nil in Hin. }
    destruct m; [exfalso; apply Hm'; by apply Hm |].
    destruct b; [exfalso; apply Hb'; by apply Hb |].
    destruct Hin as [Hin | Hin]; [apply Hf in Hin | apply Hc in Hin]; subst;
      [reflexivity | by destruct f].
  - intros Hl Hm' Hb' Hf' Hc'.
    destruct (Hcases Hl) as (m & b & f & c & Hm & Hb & Hf & Hc & ->).
    destruct m; [exfalso; apply Hm'; by apply Hm |].
    destruct b; [exfalso; apply Hb'; by apply Hb |].
    destruct f; [exfalso; apply Hf'; by apply Hf |].
    destruct c; [exfalso; apply Hc'; by apply Hc |].
    reflexivity.
Qed.

(** Criminal records next to an unknown tag: level 3. *)
Lemma getConfidentialityLevel_spec_witness :
  getConfidentialityLevel (DArr [DStr "criminal"; DStr "other"]) = Ok 3.
Proof.
  apply (getConfidentialityLevel_spec [DStr "criminal"; DStr "other"]).
  - rewrite !not_elem_of_cons, elem_of_nil. split; [| split]; [discriminate.. | tauto].
  - rewrite !not_elem_of_cons, elem_of_nil. split; [| split]; [discriminate.. | tauto].
  - right. apply elem_of_cons. by left.
Defined.

(** *** Running a computation *)

Lemma bind_Ok {A B} (c : M A) (f : A → M B) (s : state) (b : B) (s' : state) :
  (c ≫= f) s = Ok (b, s') ↔ ∃ a s1, c s = Ok (a, s1) ∧ f a s1 = Ok (b, s').
Proof.
  unfold mbind, M_bind. destruct (c s) as [[a s1] | e].
  - split; [eauto | intros (? & ? & [= <- <-] & ?); done].
  - split; [discriminate | intros (? & ? & [=] & _)].
Qed.

Lemma bind_run {A B} (c : M A) (f : A → M B) (s : state) (a : A) (s1 : state) :
  c s = Ok (a, s1) → (c ≫= f) s = f a s1.
Proof. unfold mbind, M_bind. by intros ->. Qed.

Lemma bind_throw {A B} (c : M A) (f : A → M B) (s : state) (e : error) :
  c s = Throw e → (c ≫= f) s = Throw e.
Proof. unfold mbind, M_bind. by intros ->. Qed.

Lemma ret_Ok {A} (a b : A) (s s' : state) :
  (mret a : M A) s = Ok (b, s') ↔ b = a ∧ s' = s.
Proof. unfold mret, M_ret. split; [by intros [= -> ->] | by intros [-> ->]]. Qed.

Lemma lift_Ok {A} (r : result A) (s : state) (a : A) (s' : state) :
  lift r s = Ok (a, s') ↔ r = Ok a ∧ s' = s.
Proof.
  unfold lift. destruct r; split; try discriminate.
  - by intros [= -> ->].
  - by intros [[= ->] ->].
  - by intros [[=] _].
Qed.

Lemma lift_run {A} (r : result A) (a : A) (s : state) :
  r = Ok a → lift r s = Ok (a, s).
Proof. by intros ->. Qed.

Lemma Date_now_Ok (host : Host) (s : state) (t : Z) (s' : state) :
  Date_now host s = Ok (t, s')
  ↔ t = date_now host (ticks s) ∧ s' = {| heap := heap s; ticks := S (ticks s) |}.
Proof. unfold Date_now. split; [by intros [= <- <-] | by intros [-> ->]]. Qed.

Lemma read_Ok (l : loc) (s : state) (o : obj) (s' : state) :
  read l s = Ok (o, s') ↔ heap s !! l = Some o ∧ s' = s.
Proof.
  unfold read. destruct (heap s !! l); split; try discriminate.
  - by intros [= -> ->].
  - by intros [[= ->] ->].
  - by intros [[=] _].
Qed.

Lemma get_field_Ok (l : loc) (k : string) (s : state) (d : data) (s' : state) :
  get_field l k s = Ok (d, s')
  ↔ ∃ o, heap s !! l = Some o ∧ d = field o k ∧ s' = s.
Proof.
  unfold get_field. rewrite bind_Ok. split.
  - intros (o & s1 & [Ho ->]%read_Ok & [-> ->]%ret_Ok). eauto.
  - intros (o & Ho & -> & ->). exists o, s. by rewrite read_Ok, ret_Ok.
Qed.

Lemma get_field_run (l : loc) (k : string) (s : state) (o : obj) :
  heap s !! l = Some o → get_field l k s = Ok (field o k, s).
Proof. intros Ho. apply get_field_Ok. eauto. Qed.

(** Computations that leave the store as it is. *)
Definition keeps_heap {A} (c : M A) : Prop :=
  ∀ s a s', c s = Ok (a, s') → heap s' = heap s.

Lemma keeps_heap_ret {A} (a : A) : keeps_heap (mret a).
Proof. by intros s b s' [_ ->]%ret_Ok. Qed.

Lemma keeps_heap_lift {A} (r : result A) : keeps_heap (lift r).
Proof. by intros s b s' [_ ->]%lift_Ok. Qed.

Lemma keeps_heap_Date_now (host : Host) : keeps_heap (Date_now host).
Proof. by intros s b s' [_ ->]%Date_now_Ok. Qed.

Lemma keeps_heap_get_field (l : loc) (k : string) : keeps_heap (get_field l k).
Proof. by intros s b s' (o & _ & _ & ->)%get_field_Ok. Qed.

Lemma keeps_heap_bind {A B} (c : M A) (f : A → M B) :
  keeps_heap c → (∀ a, keeps_heap (f a)) → keeps_heap (c ≫= f).
Proof.
  intros Hc Hf s b s' (a & s1 & H1 & H2)%bind_Ok.
  rewrite (Hf _ _ _ _ H2). eauto.
Qed.

Lemma keeps_heap_if {A} (b : bool) (c1 c2 : M A) :
  keeps_heap c1 → keeps_heap c2 → keeps_heap (if b then c1 else c2).
Proof. by destruct b. Qed.

Lemma keeps_heap_map_indexed {A B} (f : A → nat → M B) (l : list A) (i : nat) :
  (∀ x j, keeps_heap (f x j)) → keeps_heap (map_indexed f i l).
Proof.
  intros Hf. revert i. induction l as [| x l IH]; intros i; simpl.
  - apply keeps_heap_ret.
  - apply keeps_heap_bind; [apply Hf | intros y].
    apply keeps_heap_bind; [apply IH | intros ys]. apply keeps_heap_ret.
Qed.

Create HintDb keeps discriminated.
#[export] Hint Resolve keeps_heap_ret keeps_heap_lift keeps_heap_Date_now
  keeps_heap_get_field keeps_heap_if : keeps.
#[export] Hint Extern 1 (keeps_heap (_ ≫= _)) =>
  apply keeps_heap_bind; [| intros ?] : keeps.
#[export] Hint Extern 2 (keeps_heap (map_indexed _ _ _)) =>
  apply keeps_heap_map_indexed; intros ? ? : keeps.

Ltac keeps := repeat (progress (eauto 20 with keeps) || intros ?).

Lemma keeps_heap_sensitive_data_nonempty (host : Host) (answers : loc) :
  keeps_heap (sensitive_data_nonempty host answers).
Proof. unfold sensitive_data_nonempty. keeps. Qed.

Lemma keeps_heap_requiresDPO (host : Host) (answers : loc) :
  keeps_heap (requiresDPO host answers).
Proof.
  pose proof (keeps_heap_sensitive_data_nonempty host answers).
  unfold requiresDPO. keeps.
Qed.

Lemma keeps_heap_getAffectedResources (violation : data) (answers : loc) :
  keeps_heap (getAffectedResources violation answers).
Proof. unfold getAffectedResources. keeps. Qed.

Lemma keeps_heap_getDataViolationDescription (host : Host) (violation : data) (answers : loc) :
  keeps_heap (getDataViolationDescription host violation answers).
Proof.
  pose proof (keeps_heap_sensitive_data_nonempty host answers).
  unfold getDataViolationDescription. keeps.
Qed.

Lemma keeps_heap_createDataSecurityFinding (host : Host) (violation : data)
    (index : nat) (results : data) (answers : loc) :
  keeps_heap (createDataSecurityFinding host violation index results answers).
Proof.
  pose proof (keeps_heap_getDataViolationDescription host violation answers).
  pose proof (keeps_heap_getAffectedResources violation answers).
  unfold createDataSecurityFinding. keeps.
Qed.

Lemma keeps_heap_exportDataSecurityFindings (host : Host) (results : data) (answers : loc) :
  keeps_heap (exportDataSecurityFindings host results answers).
Proof.
  pose proof (keeps_heap_createDataSecurityFinding host).
  unfold exportDataSecurityFindings. keeps.
Qed.

Lemma keeps_heap_exportRecommendations (host : Host) (recommendations : data) :
  keeps_heap (exportRecommendations host recommendations).
Proof. unfold exportRecommendations. keeps. Qed.

(** *** The DPO requirement *)

Lemma sensitive_data_nonempty_run (host : Host) (answers : loc) (s : state) (m : obj) :
  heap s !! answers = Some m →
  absent_or_array (field m "sensitive_data") = true →
  sensitive_data_nonempty host answers s
  = Ok (match field m "sensitive_data" with
        | DArr l => DBool (0 <? Z.of_nat (length l))
        | d => d
        end, s).
Proof.
  intros Hm Hsd. unfold sensitive_data_nonempty.
  rewrite (bind_run _ _ _ _ _ (get_field_run _ "sensitive_data" _ _ Hm)).
  destruct (field m "sensitive_data") eqn:E; try discriminate; [reflexivity |].
  cbn [to_boolean negb].
  rewrite (bind_run _ _ _ _ _ (get_field_run _ "sensitive_data" _ _ Hm)), E.
  reflexivity.
Qed.

Lemma literal_includes_spec (l : list string) (x : data) :
  literal_includes l x = true ↔ ∃ c, x = DStr c ∧ c ∈ l.
Proof.
  unfold literal_includes. rewrite existsb_exists. split.
  - intros (c & Hin & ->%strict_eq_str_l). exists c. split; [done |].
    by apply list_elem_of_In.
  - intros (c & -> & Hin). exists c. split; [by apply list_elem_of_In |].
    by apply strict_eq_str_l.
Qed.

(** C5, as the code has it: [requiresDPO] returns [true] exactly when
    [org_type] is 'public' or 'databroker', or [sensitive_data] is a
    non-empty list and [data_subjects_count] is one of '100k_500k',
    '500k_1m', 'over_1m'.  Otherwise it returns a falsy value: [false] when
    [sensitive_data] is a list, and [undefined] when [sensitive_data] is
    absent.  It does not change the store. *)
Theorem requiresDPO_spec (host : Host) (answers : loc) (s : state) (m : obj) :
  heap s !! answers = Some m →
  absent_or_array (field m "sensitive_data") = true →
  ∃ v, requiresDPO host answers s = Ok (v, s)
       ∧ (v = DBool true ↔ dpo_required m)
       ∧ (v = DBool true
          ∨ (v = DBool false ∧ ∃ l, field m "sensitive_data" = DArr l)
          ∨ (v = DUndefined ∧ field m "sensitive_data" = DUndefined)).
Proof.
  intros Hm Hsd. unfold requiresDPO, dpo_required.
  rewrite (bind_run _ _ _ _ _ (get_field_run _ "org_type" _ _ Hm)).
  destruct (strict_eq (field m "org_type") (DStr "public")) eqn:Epub.
  { apply strict_eq_str in Epub. exists (DBool true). naive_solver. }
  rewrite (bind_run _ _ _ _ _ (get_field_run _ "org_type" _ _ Hm)).
  destruct (strict_eq (field m "org_type") (DStr "databroker")) eqn:Ebrk.
  { apply strict_eq_str in Ebrk. exists (DBool true). naive_solver. }
  assert (Hpub : field m "org_type" ≠ DStr "public")
    by (intros H%strict_eq_str; congruence).
  assert (Hbrk : field m "org_type" ≠ DStr "databroker")
    by (intros H%strict_eq_str; congruence).
  rewrite (bind_run _ _ _ _ _ (sensitive_data_nonempty_run host _ _ _ Hm Hsd)).
  destruct (field m "sensitive_data") as [| | | | | l |] eqn:Esd; try discriminate.
  - exists DUndefined. cbn [to_boolean negb]. split; [reflexivity |].
    split; [| by right; right]. split; [discriminate |].
    intros [? | [? | (l & c & [=] & _)]]; done.
  - destruct l as [| x l].
    + exists (DBool false). cbn [length Z.of_nat Z.ltb Z.compare to_boolean negb].
      split; [reflexivity |]. split; [| right; left; eauto]. split; [discriminate |].
      intros [? | [? | (l & c & [= <-] & Hl & _)]]; done.
    + replace (0 <? Z.of_nat (length (x :: l))) with true
        by (symmetry; apply Z.ltb_lt; simpl; lia).
      cbn [to_boolean negb].
      rewrite (bind_run _ _ _ _ _ (get_field_run _ "data_subjects_count" _ _ Hm)).
      eexists. split; [reflexivity |].
      destruct (literal_includes _ (field m "data_subjects_count")) eqn:Einc.
      * split; [| by left]. split; [| done]. intros _. right. right.
        apply literal_includes_spec in Einc as (c & Hc & Hin).
        exists (x :: l), c. done.
      * split; [| right; left; eauto]. split; [discriminate |].
        intros [? | [? | (l' & c & _ & _ & Hc & Hin)]]; [done.. |].
        assert (literal_includes ["100k_500k"; "500k_1m"; "over_1m"]%string
                  (field m "data_subjects_count") = true) as Hyes
          by (apply literal_includes_spec; eauto).
        congruence.
Qed.

(** A private organisation with medical data on more than a million
    data subjects. *)
Lemma requiresDPO_spec_witness :
  ∃ v, requiresDPO example_host 1%positive (store_with example_answers)
       = Ok (v, store_with example_answers)
       ∧ (v = DBool true ↔ dpo_required example_answers)
       ∧ (v = DBool true
          ∨ (v = DBool false ∧ ∃ l, field example_answers "sensitive_data" = DArr l)
          ∨ (v = DUndefined ∧ field example_answers "sensitive_data" = DUndefined)).
Proof.
  apply (requiresDPO_spec example_host 1%positive (store_with example_answers)
           example_answers); reflexivity.
Defined.

(** C5, where the claim fails: a private organisation that gave no
    [sensitive_data] and has fewer than 10k data subjects.  The claim says
    [requiresDPO] is [false]; it returns [undefined], the value of the left
    operand of [&&]. *)
Lemma requiresDPO_undefined :
  requiresDPO example_host 1%positive (store_with bare_answers)
  = Ok (DUndefined, store_with bare_answers)
  ∧ field bare_answers "org_type" = DStr "private"
  ∧ field bare_answers "data_subjects_count" = DStr "less_10k"
  ∧ DUndefined ≠ DBool false.
Proof. repeat split; [reflexivity.. | discriminate]. Qed.

(** *** Data security findings *)

(** One step of a run that returned: the first computation of a bind
    returned too, and a primitive one did so without touching the store. *)
Ltac inv_step H :=
  let a := fresh "a" in
  let s1 := fresh "s" in
  let H1 := fresh "H" in
  apply bind_Ok in H as (a & s1 & H1 & H);
  first
    [ apply lift_Ok in H1 as [H1 ->]
    | apply Date_now_Ok in H1 as [-> ->]
    | apply get_field_Ok in H1 as (? & H1 & -> & ->)
    | idtac ].

(** The same read made twice gave the same value. *)
Ltac same_reads :=
  repeat match goal with
  | H1 : ?r = Ok ?x, H2 : ?r = Ok ?y |- _ =>
      rewrite H1 in H2; injection H2 as <-
  end.

Ltac inv_run H :=
  repeat inv_step H; try apply ret_Ok in H as [-> ->]; same_reads.

Lemma getAffectedResources_run (violation : data) (answers : loc) (s : state)
    (m : obj) (c : data) :
  heap s !! answers = Some m →
  get violation "category" = Ok c →
  getAffectedResources violation answers s
  = Ok ((if strict_eq c (DStr "data_subjects") || strict_eq c (DStr "consent")
         then [ {| resource_type := "Database";
                   resource_name := "Personal Data Repository";
                   resource_uid := "pdr-001";
                   resource_criticality :=
                     if to_boolean (field m "sensitive_data") then 4 else 2 |} ]
         else [])
        ++ (if strict_eq c (DStr "third_party")
            then [ {| resource_type := "Third Party Integration";
                      resource_name := "External Data Processors";
                      resource_uid := "ext-proc-001";
                      resource_criticality := 3 |} ]
            else []), s).
Proof.
  intros Hm Hc.
  unfold getAffectedResources, get_field, read, lift, mbind, M_bind, mret, M_ret, field.
  rewrite !Hc.
  destruct (strict_eq c (DStr "data_subjects")), (strict_eq c (DStr "consent")),
    (strict_eq c (DStr "third_party")); cbn [orb]; rewrite ?Hm, ?Hc; reflexivity.
Qed.

(** What [createDataSecurityFinding] puts into a finding. *)
Lemma createDataSecurityFinding_inv (host : Host) (violation : data) (index : nat)
    (results : data) (answers : loc) (s : state) (f : DataSecurityFinding) (s' : state) :
  createDataSecurityFinding host violation index results answers s = Ok (f, s') →
  ∃ c s1 s2,
    get violation "category" = Ok c
    ∧ heap s1 = heap s
    ∧ getAffectedResources violation answers s1 = Ok (dsf_resources f, s2)
    ∧ dsf_class_uid f = 2006
    ∧ dsf_is_suspected_breach f = literal_includes ["consent"; "data_subjects"]%string c
    ∧ dsf_disposition_id f = (if dsf_is_suspected_breach f then 2 else 99)
    ∧ fm_version (dsf_metadata f) = version
    ∧ fm_product (dsf_metadata f) = product
    ∧ du_violation_details (dsf_unmapped f) = violation.
Proof.
  intros H. unfold createDataSecurityFinding in H. inv_run H.
  match goal with
  | Hd : getDataViolationDescription _ _ _ _ = Ok _ |- _ =>
      apply keeps_heap_getDataViolationDescription in Hd; cbn [heap] in Hd
  end.
  match goal with
  | Hc : get violation "category" = Ok ?c,
    Hr : getAffectedResources _ _ ?s1 = Ok (_, ?s2) |- _ =>
      exists c, s1, s2
  end.
  cbn. repeat split; try assumption; try reflexivity.
Qed.

(** *** Runs on inputs of the data model return *)

Lemma bind_lift_Ok {A B} (a : A) (f : A → M B) (s : state) :
  (lift (Ok a) ≫= f) s = f a s.
Proof. reflexivity. Qed.

Lemma bind_ret {A B} (a : A) (f : A → M B) (s : state) :
  (mret a ≫= f) s = f a s.
Proof. reflexivity. Qed.

Lemma bind_Date_now {B} (host : Host) (f : Z → M B) (s : state) :
  (Date_now host ≫= f) s
  = f (date_now host (ticks s)) {| heap := heap s; ticks := S (ticks s) |}.
Proof. reflexivity. Qed.

Lemma bind_get_field {B} (l : loc) (k : string) (f : data → M B) (s : state) (o : obj) :
  heap s !! l = Some o → (get_field l k ≫= f) s = f (field o k) s.
Proof. intros Ho. by rewrite (bind_run _ _ _ _ _ (get_field_run l k s o Ho)). Qed.

Lemma bind_assoc {A B C} (c : M A) (g : A → M B) (f : B → M C) (s : state) :
  ((c ≫= g) ≫= f) s = (c ≫= λ x, g x ≫= f) s.
Proof. unfold mbind, M_bind. by destruct (c s) as [[a s1] | e]. Qed.

(** Symbolic execution of the primitive steps at the head of a run, with
    [Hm] the object [answers] refers to. *)
Ltac run_steps Hm :=
  repeat first
    [ rewrite bind_assoc
    | rewrite bind_lift_Ok
    | rewrite bind_ret
    | rewrite bind_Date_now
    | rewrite (bind_get_field _ _ _ _ _ Hm) ].

(** Run a step that is known to return: [E : r = Ok x]. *)
Ltac run_lift E :=
  rewrite ?bind_assoc; rewrite E; rewrite bind_lift_Ok; rewrite ?bind_lift_Ok.

Lemma table_lookup_ok (table : obj) (fallback : data) (d : data) :
  is_primitive d = true →
  ∃ v, (k ← to_property_key d; Ok (or_else (obj_get table k) fallback)) = Ok v.
Proof.
  intros [s Hs]%to_string_primitive.
  unfold to_property_key. rewrite Hs. eexists. reflexivity.
Qed.

Lemma mapSeverity_ok (d : data) :
  is_primitive d = true → ∃ v, mapSeverity d = Ok v.
Proof. apply table_lookup_ok. Qed.

Lemma mapImpact_ok (d : data) :
  is_primitive d = true → ∃ v, mapImpact d = Ok v.
Proof. apply table_lookup_ok. Qed.

Lemma mapRiskLevel_ok (d : data) :
  is_primitive d = true → ∃ v, mapRiskLevel d = Ok v.
Proof. apply table_lookup_ok. Qed.

Lemma getOrganizationType_ok (d : data) :
  is_primitive d = true → ∃ v, getOrganizationType d = Ok v.
Proof. apply table_lookup_ok. Qed.

Lemma getDataScale_ok (d : data) :
  is_primitive d = true → ∃ v, getDataScale d = Ok v.
Proof. apply table_lookup_ok. Qed.

Lemma getDataSecurityCategory_ok (d : data) :
  is_primitive d = true → ∃ v, getDataSecurityCategory d = Ok v.
Proof. apply table_lookup_ok. Qed.

Lemma getKnowledgeBaseArticles_ok (d : data) :
  is_primitive d = true → ∃ v, getKnowledgeBaseArticles d = Ok v.
Proof.
  intros [s Hs]%to_string_primitive.
  unfold getKnowledgeBaseArticles, to_property_key. rewrite Hs.
  cbn [mbind result_bind]. destruct (truthy _); eexists; reflexivity.
Qed.

Lemma value_to_string_ok (v : value) (d : data) :
  is_primitive d = true → getDataScale d = Ok v → ∃ s, value_to_string v = Ok s.
Proof.
  intros [k Hk]%to_string_primitive. unfold getDataScale, to_property_key.
  rewrite Hk. cbn [mbind result_bind]. intros [= <-].
  unfold or_else, obj_get.
  destruct (_ !! k) as [x |] eqn:Ex.
  - assert (∃ t, x = DStr t) as [t ->].
    { repeat (rewrite lookup_insert in Ex; destruct (decide _);
              [injection Ex as <-; eauto |]).
      by rewrite lookup_empty in Ex. }
    destruct (truthy _); eexists; reflexivity.
  - destruct (object_prototype_get k); cbn [truthy to_boolean];
      eexists; reflexivity.
Qed.

Lemma is_violation_fields (v : data) :
  is_violation v = true →
  ∃ mv, v = DObj mv
    ∧ is_primitive (field mv "description") = true
    ∧ is_primitive (field mv "category") = true
    ∧ is_primitive (field mv "severity") = true
    ∧ is_primitive (field mv "law_reference") = true
    ∧ is_primitive (field mv "fine") = true.
Proof.
  destruct v as [| | | | | | mv]; try discriminate. cbn [is_violation forallb].
  rewrite !andb_true_iff. intros (? & ? & ? & ? & ? & _). eauto 10.
Qed.

Lemma is_answers_fields (m : obj) :
  is_answers m = true →
  is_tags (field m "sensitive_data") = true
  ∧ is_primitive (field m "org_type") = true
  ∧ is_primitive (field m "data_subjects_count") = true.
Proof. unfold is_answers. rewrite !andb_true_iff. tauto. Qed.

Lemma is_tags_absent_or_array (d : data) :
  is_tags d = true → absent_or_array d = true.
Proof. by destruct d. Qed.

Lemma is_results_fields (results : data) :
  is_results results = true →
  ∃ mr vs rs, results = DObj mr
    ∧ field mr "violations" = DArr vs
    ∧ Forall (λ v, is_violation v = true) vs
    ∧ field mr "recommendations" = DArr rs
    ∧ Forall (λ r, is_recommendation r = true) rs
    ∧ ∃ label, riskLevel_label results = Ok label ∧ is_primitive label = true.
Proof.
  destruct results as [| | | | | | mr]; try discriminate. cbn [is_results].
  rewrite !andb_true_iff. intros [[Hv Hr] Hl].
  destruct (field mr "violations") as [| | | | | vs |] eqn:Ev; try discriminate.
  destruct (field mr "recommendations") as [| | | | | rs |] eqn:Er; try discriminate.
  exists mr, vs, rs. repeat split; try done.
  - apply Forall_forall. intros v Hin. apply list_elem_of_In in Hin.
    by apply (proj1 (forallb_forall _ _) Hv).
  - apply Forall_forall. intros r Hin. apply list_elem_of_In in Hin.
    by apply (proj1 (forallb_forall _ _) Hr).
  - unfold riskLevel_label. cbn [get mbind result_bind].
    destruct (field mr "riskLevel") as [| | | | | |rl]; cbn; eauto.
    all: match goal with |- context [if ?b then _ else _] => destruct b end; eauto.
Qed.

Lemma join_ok (sep : string) (l : list data) :
  Forall (λ d, is_primitive d = true) l → ∃ s, join sep l = Ok s.
Proof.
  unfold join. induction 1 as [| x l Hx _ [r IH]]; [by eexists |].
  cbn [join_with].
  assert (∃ sx, (if is_nullish x then Ok ""%string else to_string x) = Ok sx)
    as [sx ->].
  { destruct (is_nullish x); [by eexists |]. by apply to_string_primitive. }
  cbn [mbind result_bind]. destruct l; [by eexists |].
  fold (join_with to_string sep). rewrite IH. by eexists.
Qed.

Lemma filter_result_ok {A} (p : A → result bool) (l : list A) :
  Forall (λ x, ∃ b, p x = Ok b) l →
  ∃ l', filter_result p l = Ok l' ∧ l' ⊆ l.
Proof.
  induction 1 as [| x l [b Hb] _ (l' & IH & Hsub)]; [by exists [] |].
  cbn [filter_result]. rewrite Hb, IH. cbn [mbind result_bind].
  destruct b; eexists; (split; [reflexivity |]).
  - by apply list_subseteq_skip.
  - by apply list_subseteq_cons.
Qed.

Lemma map_result_ok {A B} (f : A → result B) (P : B → Prop) (l : list A) :
  Forall (λ x, ∃ y, f x = Ok y ∧ P y) l →
  ∃ l', map_result f l = Ok l' ∧ Forall P l'.
Proof.
  induction 1 as [| x l (y & Hy & HP) _ (l' & IH & HF)]; [by exists [] |].
  cbn [map_result]. rewrite Hy, IH. cbn [mbind result_bind]. eauto.
Qed.

Lemma getConfidentialityLevel_ok (d : data) :
  is_tags d = true → ∃ z, getConfidentialityLevel d = Ok z.
Proof.
  destruct d as [| | | | | l |]; try discriminate; intros _; [by eexists |].
  destruct l as [| x l]; [by eexists |].
  destruct (getConfidentialityLevel_array (x :: l)) as (? & ? & ? & ? & _ & _ & _ & _ & ->);
    [done | by eexists].
Qed.

Lemma getDetailedDescription_ok (host : Host) (violation : data) :
  is_violation violation = true → ∃ s, getDetailedDescription host violation = Ok s.
Proof.
  intros (mv & -> & Hd & Hc & _ & Hl & Hf)%is_violation_fields.
  unfold getDetailedDescription. cbn [get mbind result_bind].
  destruct (to_string_primitive _ Hd) as [s1 ->].
  destruct (to_string_primitive (or_data (field mv "law_reference") (DStr "כללי")))
    as [s2 Es2]; [by apply or_data_primitive |].
  cbn [mbind result_bind]. rewrite Es2. cbn [mbind result_bind].
  destruct (to_string_primitive _ Hc) as [s3 ->]. cbn [mbind result_bind].
  destruct (is_nullish (field mv "fine")) eqn:En; cbn [mbind result_bind].
  - by eexists.
  - destruct (to_locale_string_primitive host _ Hf En) as [s4 ->].
    cbn [fmap result_fmap mbind result_bind].
    destruct (to_string_primitive (or_data (DStr s4) (DStr "0"))) as [s5 ->];
      [by apply or_data_primitive |].
    by eexists.
Qed.

Lemma getRemediationText_ok (violation : data) (rs : list data) :
  is_violation violation = true →
  Forall (λ r, is_recommendation r = true) rs →
  ∃ s, getRemediationText violation (DArr rs) = Ok s.
Proof.
  intros (mv & -> & _ & _ & _ & Hl & _)%is_violation_fields Hrs.
  unfold getRemediationText. cbn [as_array mbind result_bind].
  edestruct (filter_result_ok
    (λ r, rc ← get r "category"; vc ← get (DObj mv) "category";
          Ok (strict_eq rc vc)) rs) as (relevant & -> & Hsub).
  { eapply Forall_impl; [exact Hrs |]. intros [| | | | | | mr]; try discriminate.
    intros _. eexists. reflexivity. }
  cbn [mbind result_bind].
  destruct (0 <? length relevant)%nat.
  - edestruct (map_result_ok (λ r, get r "action")
      (λ d, is_primitive d = true) relevant) as (actions & -> & Hact).
    { apply Forall_forall. intros r Hr%Hsub.
      pose proof (proj1 (Forall_forall _ _) Hrs r Hr) as Hrec.
      destruct r as [| | | | | | mr]; try discriminate.
      apply andb_true_iff in Hrec as [_ Ha]. eexists. split; [reflexivity | exact Ha]. }
    cbn [mbind result_bind]. by apply join_ok.
  - cbn [get mbind result_bind].
    destruct (to_string_primitive (or_data (field mv "law_reference") (DStr "תיקון 13")))
      as [s ->]; [by apply or_data_primitive |].
    by eexists.
Qed.

Lemma getDataViolationDescription_ok (host : Host) (violation : data)
    (answers : loc) (s : state) (m : obj) :
  is_violation violation = true →
  heap s !! answers = Some m →
  is_answers m = true →
  ∃ d, getDataViolationDescription host violation answers s = Ok (d, s).
Proof.
  intros (mv & -> & Hd & _)%is_violation_fields Hm (Hsd & _ & Hcount)%is_answers_fields.
  unfold getDataViolationDescription. cbn [get]. run_steps Hm.
  rewrite (bind_run _ _ _ _ _
    (sensitive_data_nonempty_run host _ _ _ Hm (is_tags_absent_or_array _ Hsd))).
  assert (∃ desc, is_primitive desc = true ∧
    ∀ B (f : data → M B),
      ((if to_boolean match field m "sensitive_data" with
                      | DArr l => DBool (0 <? Z.of_nat (length l))
                      | d => d
                      end
        then
          sensitive_data ← get_field answers "sensitive_data";
          elems ← lift (as_array sensitive_data);
          joined ← lift (join ", " elems);
          s ← lift (to_string (field mv "description"));
          mret (DStr (s +:+ ". מידע רגיש: " +:+ joined))
        else mret (field mv "description")) ≫= f) s = f desc s)
    as (desc & Hdesc & ->).
  { destruct (field m "sensitive_data") as [| | | | | l |] eqn:Esd; try discriminate.
    - exists (field mv "description"). split; [done | reflexivity].
    - destruct (0 <? Z.of_nat (length l)); cbn [to_boolean].
      + destruct (join_ok ", " l) as [joined Hj].
        { apply Forall_forall. intros x Hx%list_elem_of_In.
          by apply (proj1 (forallb_forall _ _) Hsd). }
        destruct (to_string_primitive _ Hd) as [sd Hs].
        eexists. split; [| intros B f]; [| run_steps Hm; rewrite Esd;
          cbn [as_array]; run_steps Hm; run_lift Hj; run_lift Hs; reflexivity].
        reflexivity.
      + exists (field mv "description"). split; [done | reflexivity]. }
  run_steps Hm.
  destruct (to_boolean (field m "data_subjects_count")); [| by eexists].
  run_steps Hm.
  destruct (getDataScale_ok _ Hcount) as [scale Hscale]. run_lift Hscale.
  destruct (value_to_string_ok _ _ Hcount Hscale) as [printed Hp]. run_lift Hp.
  destruct (to_string_primitive _ Hdesc) as [sd Hs]. run_lift Hs.
  by eexists.
Qed.

(** *** Sanitisation *)

(** [sanitizeAnswers] allocates a new object, which holds the properties of
    [answers] without the two identifying ones; nothing else changes. *)
Lemma sanitizeAnswers_run (answers : loc) (s : state) (m : obj) :
  heap s !! answers = Some m →
  sanitizeAnswers answers s
  = Ok (fresh (dom (heap s)),
        {| heap := <[fresh (dom (heap s)) := sanitized m]> (heap s);
           ticks := ticks s |}).
Proof.
  intros Hm.
  unfold sanitizeAnswers, spread, alloc, delete_property, mbind, M_bind, mret, M_ret.
  rewrite Hm. cbn [heap ticks default]. rewrite !lookup_insert_eq. cbn [heap ticks].
  rewrite !lookup_insert_eq, !insert_insert_eq. reflexivity.
Qed.

Lemma sanitizeAnswers_inv (answers : loc) (s : state) (m : obj) (l : loc) (s' : state) :
  heap s !! answers = Some m →
  sanitizeAnswers answers s = Ok (l, s') →
  heap s !! l = None ∧ heap s' = <[l := sanitized m]> (heap s).
Proof.
  intros Hm. rewrite (sanitizeAnswers_run _ _ _ Hm). intros [= <- <-].
  split; [| done]. apply not_elem_of_dom, is_fresh.
Qed.

Lemma sanitized_lookup (m : obj) (k : string) :
  sanitized m !! k
  = if decide (k = "organization_name" ∨ k = "contact_details")%string
    then None else m !! k.
Proof.
  unfold sanitized. rewrite !lookup_delete.
  repeat case_decide; naive_solver.
Qed.

(** *** Compliance findings *)

(** What [createComplianceFinding] puts into a finding and does to the
    store. *)
Lemma createComplianceFinding_inv (host : Host) (violation : data) (index : nat)
    (results : data) (answers : loc) (s : state) (f : ComplianceFinding loc) (s' : state) :
  createComplianceFinding host violation index results answers s = Ok (f, s') →
  ∃ m c,
    heap s !! answers = Some m
    ∧ heap s !! assessment_answers f = None
    ∧ heap s' = <[assessment_answers f := sanitized m]> (heap s)
    ∧ get violation "category" = Ok c
    ∧ cu_violation_category (cf_unmapped f) = c
    ∧ cf_class_uid f = 2003
    ∧ fi_uid (cf_finding_info f)
      = "tikun13-" +:+ pretty (cf_time f) +:+ "-" +:+ pretty index
    ∧ fm_version (cf_metadata f) = version
    ∧ fm_product (cf_metadata f) = product.
Proof.
  intros H. unfold createComplianceFinding in H. inv_run H.
  cbn [heap] in *.
  match goal with
  | Hm : heap s !! answers = Some ?m, Hs : sanitizeAnswers _ _ = Ok _ |- _ =>
      apply (sanitizeAnswers_inv _ _ m) in Hs as (Hfresh & Hheap); [| exact Hm];
      cbn [heap] in *
  end.
  match goal with
  | Hm : heap s !! answers = Some ?m, Hc : get violation "category" = Ok ?c |- _ =>
      exists m, c
  end.
  cbn. repeat split; try assumption; try reflexivity.
Qed.

(** *** Mapping over the violations *)

(** A run of [map_indexed] that returned: one result per element, in order,
    the k-th one computed from the k-th element with index [i + k]; the
    store only grew on the way when each step only lets it grow. *)
Lemma map_indexed_inv {A B} (f : A → nat → M B) (l : list A) (i : nat)
    (s : state) (ys : list B) (s' : state) :
  (∀ x j s1 y s2, f x j s1 = Ok (y, s2) → heap s1 ⊆ heap s2) →
  map_indexed f i l s = Ok (ys, s') →
  heap s ⊆ heap s'
  ∧ length ys = length l
  ∧ ∀ k x, l !! k = Some x →
      ∃ y s1 s2, ys !! k = Some y
        ∧ heap s ⊆ heap s1 ∧ heap s2 ⊆ heap s'
        ∧ f x (i + k)%nat s1 = Ok (y, s2).
Proof.
  intros Hf. revert i s ys. induction l as [| x l IH]; intros i s ys H.
  - apply ret_Ok in H as [-> ->]. repeat split; [done |]. intros k x [=].
  - cbn [map_indexed] in H.
    apply bind_Ok in H as (y & s1 & Hy & H).
    apply bind_Ok in H as (ys' & s2 & Hys & H).
    apply ret_Ok in H as [-> ->].
    destruct (IH _ _ _ Hys) as (Hsub & Hlen & Hk).
    pose proof (Hf _ _ _ _ _ Hy) as Hstep.
    split; [by etrans |]. split; [by rewrite !length_cons, Hlen |].
    intros [| k] x' Hx'.
    + injection Hx' as <-. exists y, s, s1.
      rewrite Nat.add_0_r. repeat split; done.
    + destruct (Hk k x' Hx') as (y' & sa & sb & Hy' & Hsa & Hsb & Hrun).
      exists y', sa, sb. replace (i + S k)%nat with (S i + k)%nat by lia.
      repeat split; try done. by etrans.
Qed.

(** A run of [map_indexed] returns when each step does, from every store
    that satisfies the invariant [I]. *)
Lemma map_indexed_ok {A B} (f : A → nat → M B) (I : state → Prop)
    (l : list A) (i : nat) (s : state) :
  Forall (λ x, ∀ j s1, I s1 → ∃ y s2, f x j s1 = Ok (y, s2) ∧ I s2) l →
  I s →
  ∃ ys s', map_indexed f i l s = Ok (ys, s') ∧ I s'.
Proof.
  intros Hl. revert i s. induction Hl as [| x l Hx _ IH]; intros i s Hs.
  - exists [], s. done.
  - destruct (Hx i s Hs) as (y & s1 & Hy & Hs1).
    destruct (IH (S i) s1 Hs1) as (ys & s2 & Hys & Hs2).
    exists (y :: ys), s2. split; [| done]. cbn [map_indexed].
    rewrite (bind_run _ _ _ _ _ Hy), (bind_run _ _ _ _ _ Hys). reflexivity.
Qed.

Lemma createComplianceFinding_grows (host : Host) (results : data) (answers : loc)
    (violation : data) (index : nat) (s1 : state) (f : ComplianceFinding loc) (s2 : state) :
  createComplianceFinding host violation index results answers s1 = Ok (f, s2) →
  heap s1 ⊆ heap s2.
Proof.
  intros (m & c & _ & Hfresh & -> & _)%createComplianceFinding_inv.
  by apply insert_subseteq.
Qed.

(** What [exportComplianceFindings] returns and does to the store. *)
Lemma exportComplianceFindings_inv (host : Host) (results : data) (answers : loc)
    (s : state) (doc : Document (ComplianceFinding loc)) (s' : state) :
  exportComplianceFindings host results answers s = Ok (doc, s') →
  ∃ violations elems,
    get results "violations" = Ok violations
    ∧ as_array violations = Ok elems
    ∧ doc_version doc = version
    ∧ dm_version <$> doc_metadata doc = Some version
    ∧ heap s ⊆ heap s'
    ∧ length (doc_findings doc) = length elems
    ∧ ∀ k v, elems !! k = Some v →
        ∃ f s1 s2, doc_findings doc !! k = Some f
          ∧ heap s ⊆ heap s1 ∧ heap s2 ⊆ heap s'
          ∧ createComplianceFinding host v k results answers s1 = Ok (f, s2).
Proof.
  intros H. unfold exportComplianceFindings in H. inv_run H.
  match goal with
  | Hmap : map_indexed _ _ _ _ = Ok _ |- _ =>
      apply map_indexed_inv in Hmap as (Hsub & Hlen & Hk);
        [| intros ? ? ? ? ?; apply createComplianceFinding_grows]
  end.
  do 2 eexists. repeat split; try eassumption; try reflexivity.
Qed.

(** The store after [exportComplianceFindings]: it only grew, and the
    reference of every finding is a new object, the sanitised [answers]. *)
Lemma exportComplianceFindings_store (host : Host) (results : data)
    (answers : loc) (s : state) (m : obj)
    (doc : Document (ComplianceFinding loc)) (s' : state) :
  heap s !! answers = Some m →
  exportComplianceFindings host results answers s = Ok (doc, s') →
  heap s ⊆ heap s'
  ∧ ∀ f, f ∈ doc_findings doc →
      heap s !! assessment_answers f = None
      ∧ heap s' !! assessment_answers f = Some (sanitized m).
Proof.
  intros Hm (violations & elems & _ & _ & _ & _ & Hsub & Hlen & Hk)%exportComplianceFindings_inv.
  split; [done |].
  intros f (k & Hf)%list_elem_of_lookup.
  destruct (lookup_lt_is_Some_2 elems k) as [v Hv].
  { rewrite <- Hlen. by eapply lookup_lt_Some. }
  destruct (Hk k v Hv) as (f' & s1 & s2 & Hf' & Hs1 & Hs2 & Hrun).
  rewrite Hf in Hf'. injection Hf' as <-.
  apply createComplianceFinding_inv in Hrun
    as (m' & c & Hm' & Hfresh & Hheap & _).
  pose proof (lookup_weaken _ _ _ _ Hm Hs1) as Hm1.
  rewrite Hm1 in Hm'. injection Hm' as <-.
  split.
  - destruct (heap s !! assessment_answers f) as [o |] eqn:Ho; [| done].
    pose proof (lookup_weaken _ _ _ _ Ho Hs1). congruence.
  - eapply lookup_weaken; [| exact Hs2]. rewrite Hheap. apply lookup_insert_eq.
Qed.

(** C1: in every Compliance Finding, [unmapped.assessment_answers] refers
    to a new object that holds the properties of the input [answers] without
    [organization_name] and [contact_details], every other key with the value
    it has in [answers]; the export leaves [answers] and every other object
    of the store as it was. *)
Theorem sanitized_answers_in_findings (host : Host) (results : data)
    (answers : loc) (s : state) (m : obj)
    (doc : Document (ComplianceFinding loc)) (s' : state) :
  heap s !! answers = Some m →
  exportComplianceFindings host results answers s = Ok (doc, s') →
  heap s' !! answers = Some m
  ∧ (∀ l o, heap s !! l = Some o → heap s' !! l = Some o)
  ∧ ∀ f, f ∈ doc_findings doc →
      assessment_answers f ≠ answers
      ∧ heap s !! assessment_answers f = None
      ∧ ∃ o, heap s' !! assessment_answers f = Some o
          ∧ o = sanitized m
          ∧ o !! "organization_name"%string = None
          ∧ o !! "contact_details"%string = None
          ∧ ∀ k, k ≠ "organization_name"%string → k ≠ "contact_details"%string →
                 o !! k = m !! k.
Proof.
  intros Hm Hrun.
  destruct (exportComplianceFindings_store _ _ _ _ _ _ _ Hm Hrun) as [Hsub Hfindings].
  split; [by eapply lookup_weaken |].
  split; [intros l o Hl; by eapply lookup_weaken |].
  intros f Hf. destruct (Hfindings f Hf) as [Hfresh Hcopy].
  split; [intros Heq; rewrite Heq in Hfresh; congruence |].
  split; [done |].
  exists (sanitized m). split; [done |]. split; [done |].
  split; [rewrite sanitized_lookup; by rewrite decide_True by (by left) |].
  split; [rewrite sanitized_lookup; by rewrite decide_True by (by right) |].
  intros k' H1 H2. rewrite sanitized_lookup. rewrite decide_False; [done | tauto].
Qed.

(** Three violations, three sanitised copies; [answers] keeps its
    [organization_name] and [contact_details]. *)
Lemma sanitized_answers_in_findings_witness :
  ∃ doc s',
    exportComplianceFindings example_host example_results 1%positive
      (store_with example_answers) = Ok (doc, s')
    ∧ length (doc_findings doc) = 3%nat
    ∧ heap s' !! 1%positive = Some example_answers
    ∧ ∀ f, f ∈ doc_findings doc →
        ∃ o, heap s' !! assessment_answers f = Some o
          ∧ o = sanitized example_answers
          ∧ o !! "organization_name"%string = None
          ∧ o !! "contact_details"%string = None.
Proof.
  destruct (exportComplianceFindings example_host example_results 1%positive
              (store_with example_answers)) as [[doc s'] | e] eqn:E;
    [| vm_compute in E; discriminate E].
  exists doc, s'.
  destruct (sanitized_answers_in_findings example_host example_results 1%positive
              (store_with example_answers) example_answers doc s' eq_refl E)
    as (Hanswers & _ & Hfindings).
  split; [reflexivity |].
  split; [vm_compute in E; injection E as <- <-; reflexivity |].
  split; [exact Hanswers |].
  intros f Hf. destruct (Hfindings f Hf) as (_ & _ & o & Ho & Hs & Hn & Hc & _).
  exists o. repeat split; assumption.
Defined.

(** *** The data security export *)

Lemma Ok_inj {A} (a b : A) : Ok a = Ok b → a = b.
Proof. congruence. Qed.

Lemma literal_includes_dataCategories (c : data) :
  literal_includes dataCategories c
  = match c with DStr c => bool_decide (c ∈ dataCategories) | _ => false end.
Proof.
  destruct c as [| | | | c | |]; try reflexivity.
  apply eq_true_iff_eq. rewrite literal_includes_spec, bool_decide_eq_true.
  split; [by intros (c' & [= <-] & Hin) | eauto].
Qed.

Lemma is_data_violation_spec (v : data) (b : bool) :
  is_data_violation v = Ok b → b = has_data_category v.
Proof.
  unfold is_data_violation, has_data_category.
  destruct v as [| | | | s | l | m]; cbn [get mbind result_bind];
    try discriminate; intros <-%Ok_inj; rewrite literal_includes_dataCategories;
    reflexivity.
Qed.

Lemma filter_result_spec {A} (p : A → result bool) (q : A → bool) (l l' : list A) :
  (∀ x b, p x = Ok b → b = q x) →
  filter_result p l = Ok l' → l' = List.filter q l.
Proof.
  intros Hpq. revert l'. induction l as [| x l IH]; intros l'; cbn [filter_result].
  - by intros [= <-].
  - destruct (p x) as [b |] eqn:Hb; [| discriminate]. cbn [mbind result_bind].
    destruct (filter_result p l) as [ys |]; [| discriminate].
    cbn [mbind result_bind]. intros [= <-]. cbn [List.filter].
    rewrite <- (Hpq _ _ Hb), <- (IH ys eq_refl). reflexivity.
Qed.

(** What [exportDataSecurityFindings] returns; it leaves the store as it
    is. *)
Lemma exportDataSecurityFindings_inv (host : Host) (results : data) (answers : loc)
    (s : state) (doc : Document DataSecurityFinding) (s' : state) :
  exportDataSecurityFindings host results answers s = Ok (doc, s') →
  ∃ violations elems,
    get results "violations" = Ok violations
    ∧ as_array violations = Ok elems
    ∧ heap s' = heap s
    ∧ doc_version doc = version
    ∧ (List.filter has_data_category elems = [] →
       doc = {| doc_version := version; doc_metadata := None; doc_findings := [] |})
    ∧ (List.filter has_data_category elems ≠ [] →
       dm_version <$> doc_metadata doc = Some version)
    ∧ length (doc_findings doc) = length (List.filter has_data_category elems)
    ∧ ∀ k v, List.filter has_data_category elems !! k = Some v →
        ∃ f s1 s2, doc_findings doc !! k = Some f
          ∧ heap s1 = heap s
          ∧ createDataSecurityFinding host v k results answers s1 = Ok (f, s2).
Proof.
  intros H. pose proof (keeps_heap_exportDataSecurityFindings _ _ _ _ _ _ H) as Hheap.
  unfold exportDataSecurityFindings in H. inv_run H.
  match goal with
  | Hfil : filter_result _ _ = Ok ?dvs |- _ =>
      apply (filter_result_spec _ has_data_category) in Hfil;
        [subst dvs | exact is_data_violation_spec]
  end.
  do 2 eexists. split; [eassumption |]. split; [eassumption |]. split; [done |].
  destruct (List.filter has_data_category _) as [| v0 dvs] eqn:Efil.
  - cbn [length Nat.eqb] in H. apply ret_Ok in H as [-> ->].
    repeat split; done.
  - cbn [length Nat.eqb] in H. inv_run H.
    match goal with
    | Hmap : map_indexed _ _ _ ?s0 = Ok (_, ?s1) |- _ =>
        pose proof (keeps_heap_map_indexed _ _ _
          (λ x j, keeps_heap_createDataSecurityFinding host x j results answers)
          _ _ _ Hmap) as Hsame;
        apply map_indexed_inv in Hmap as (Hsub & Hlen & Hk);
          [| intros x j sa y sb Hrun;
             by rewrite (keeps_heap_createDataSecurityFinding _ _ _ _ _ _ _ _ Hrun)]
    end.
    cbn [doc_version doc_metadata doc_findings fmap option_fmap option_map dm_version].
    repeat split; try done.
    intros k v Hv. destruct (Hk k v Hv) as (f & s1 & s2 & Hf & Hs1 & Hs2 & Hrun).
    exists f, s1, s2. repeat split; try done.
    pose proof (keeps_heap_createDataSecurityFinding _ _ _ _ _ _ _ _ Hrun) as Hk12.
    apply (anti_symm (⊆)); [| done].
    rewrite <- Hk12. etrans; [exact Hs2 |]. by rewrite Hsame.
Qed.

(** Every finding of the document was built by [createDataSecurityFinding]
    from a violation of a data category, in a store equal to the initial
    one. *)
Lemma data_security_finding_origin (host : Host) (results : data) (answers : loc)
    (s : state) (doc : Document DataSecurityFinding) (s' : state) (f : DataSecurityFinding) :
  exportDataSecurityFindings host results answers s = Ok (doc, s') →
  f ∈ doc_findings doc →
  ∃ v k s1 s2,
    has_data_category v = true
    ∧ heap s1 = heap s
    ∧ createDataSecurityFinding host v k results answers s1 = Ok (f, s2).
Proof.
  intros (violations & elems & _ & _ & _ & _ & _ & _ & Hlen & Hk)%exportDataSecurityFindings_inv
    (k & Hf)%list_elem_of_lookup.
  destruct (lookup_lt_is_Some_2 (List.filter has_data_category elems) k) as [v Hv].
  { rewrite <- Hlen. by eapply lookup_lt_Some. }
  destruct (Hk k v Hv) as (f' & s1 & s2 & Hf' & Hs1 & Hrun).
  rewrite Hf in Hf'. injection Hf' as <-.
  exists v, k, s1, s2. repeat split; try done.
  apply list_elem_of_lookup_2, list_elem_of_In, filter_In in Hv. tauto.
Qed.

(** C3: in every Data Security Finding of [exportDataSecurityFindings],
    [is_suspected_breach] is true exactly when the category of the violation
    is 'consent' or 'data_subjects', and [disposition_id] is 2 when it is
    true and 99 otherwise. *)
Theorem suspected_breach_spec (host : Host) (results : data) (answers : loc)
    (s : state) (doc : Document DataSecurityFinding) (s' : state) :
  exportDataSecurityFindings host results answers s = Ok (doc, s') →
  ∀ f, f ∈ doc_findings doc →
    ∃ c, get (du_violation_details (dsf_unmapped f)) "category" = Ok c
      ∧ (dsf_is_suspected_breach f = true
         ↔ c = DStr "consent" ∨ c = DStr "data_subjects")
      ∧ (dsf_is_suspected_breach f = true → dsf_disposition_id f = 2)
      ∧ (dsf_is_suspected_breach f = false → dsf_disposition_id f = 99).
Proof.
  intros Hrun f Hf.
  destruct (data_security_finding_origin _ _ _ _ _ _ _ Hrun Hf)
    as (v & k & s1 & s2 & _ & _ & Hcreate).
  apply createDataSecurityFinding_inv in Hcreate
    as (c & _ & _ & Hc & _ & _ & _ & Hbreach & Hdisp & _ & _ & ->).
  exists c. split; [done |]. split.
  - rewrite Hbreach, literal_includes_spec. split.
    + intros (c' & -> & Hin).
      apply elem_of_cons in Hin as [-> | Hin]; [by left |].
      apply elem_of_cons in Hin as [-> | Hin]; [by right |].
      by apply elem_of_nil in Hin.
    + intros [-> | ->]; eexists; (split; [reflexivity |]);
        rewrite !elem_of_cons; tauto.
  - rewrite Hdisp. split; by intros ->.
Qed.

(** A consent violation (suspected breach) and a third-party one (none);
    the dpo violation yields no data security finding. *)
Lemma suspected_breach_spec_witness :
  ∃ doc s',
    exportDataSecurityFindings example_host example_results 1%positive
      (store_with example_answers) = Ok (doc, s')
    ∧ dsf_is_suspected_breach <$> doc_findings doc = [true; false]
    ∧ ∀ f, f ∈ doc_findings doc →
        ∃ c, get (du_violation_details (dsf_unmapped f)) "category" = Ok c
          ∧ (dsf_is_suspected_breach f = true
             ↔ c = DStr "consent" ∨ c = DStr "data_subjects")
          ∧ (dsf_is_suspected_breach f = true → dsf_disposition_id f = 2)
          ∧ (dsf_is_suspected_breach f = false → dsf_disposition_id f = 99).
Proof.
  destruct (exportDataSecurityFindings example_host example_results 1%positive
              (store_with example_answers)) as [[doc s'] | e] eqn:E;
    [| vm_compute in E; discriminate E].
  exists doc, s'. split; [reflexivity |]. split.
  - vm_compute in E. injection E as <- <-. reflexivity.
  - exact (suspected_breach_spec example_host example_results 1%positive
             (store_with example_answers) doc s' E).
Defined.



(** *** Metadata *)

(** C9, as the code has it: every finding, of class 2003 and of class 2006,
    carries [metadata.version] "1.6.0" and [metadata.product] with its
    [name], [vendor_name] and [version].  The metadata of a document holds
    the version "1.6.0" (with [profiles] and [extension], no product); the
    compliance document always has it, the data security document has it
    when it has findings and has no metadata when it has none. *)
Theorem metadata_spec (host : Host) (results : data) (answers : loc) (s : state) :
  (∀ doc s',
     exportComplianceFindings host results answers s = Ok (doc, s') →
     dm_version <$> doc_metadata doc = Some "1.6.0"%string
     ∧ ∀ f, f ∈ doc_findings doc →
         cf_class_uid f = 2003
         ∧ fm_version (cf_metadata f) = "1.6.0"%string
         ∧ fm_product (cf_metadata f)
           = {| product_name := "Tikun13 Compliance Checker";
                product_vendor_name := "Amendment 13 Assessment Tool";
                product_version := "1.0.0" |})
  ∧ (∀ doc s',
       exportDataSecurityFindings host results answers s = Ok (doc, s') →
       (doc_findings doc = [] → doc_metadata doc = None)
       ∧ (doc_findings doc ≠ [] → dm_version <$> doc_metadata doc = Some "1.6.0"%string)
       ∧ ∀ f, f ∈ doc_findings doc →
           dsf_class_uid f = 2006
           ∧ fm_version (dsf_metadata f) = "1.6.0"%string
           ∧ fm_product (dsf_metadata f)
             = {| product_name := "Tikun13 Compliance Checker";
                  product_vendor_name := "Amendment 13 Assessment Tool";
                  product_version := "1.0.0" |}).
Proof.
  split.
  - intros doc s' (violations & elems & _ & _ & _ & Hmeta & _ & Hlen & Hk)%exportComplianceFindings_inv.
    split; [exact Hmeta |].
    intros f (k & Hf)%list_elem_of_lookup.
    destruct (lookup_lt_is_Some_2 elems k) as [v Hv].
    { rewrite <- Hlen. by eapply lookup_lt_Some. }
    destruct (Hk k v Hv) as (f' & s1 & s2 & Hf' & _ & _ & Hrun).
    rewrite Hf in Hf'. injection Hf' as <-.
    apply createComplianceFinding_inv in Hrun
      as (m & c & _ & _ & _ & _ & _ & Hclass & _ & Hversion & Hproduct).
    by rewrite Hclass, Hversion, Hproduct.
  - intros doc s' Hrun.
    pose proof Hrun as (violations & elems & _ & _ & _ & _ & Hnone & Hsome & Hlen & _)%exportDataSecurityFindings_inv.
    split; [| split].
    + intros Hnil. rewrite Hnil in Hlen.
      destruct (List.filter has_data_category elems); [| discriminate].
      by rewrite Hnone.
    + intros Hcons. apply Hsome. intros Hnil. rewrite Hnil in Hlen.
      by destruct (doc_findings doc).
    + intros f Hf.
      destruct (data_security_finding_origin _ _ _ _ _ _ _ Hrun Hf)
        as (v & k & s1 & s2 & _ & _ & Hcreate).
      apply createDataSecurityFinding_inv in Hcreate
        as (c & _ & _ & _ & _ & _ & Hclass & _ & _ & Hversion & Hproduct & _).
      by rewrite Hclass, Hversion, Hproduct.
Qed.

(** The three compliance findings of the example. *)
Lemma metadata_spec_witness :
  ∃ doc s',
    exportComplianceFindings example_host example_results 1%positive
      (store_with example_answers) = Ok (doc, s')
    ∧ length (doc_findings doc) = 3%nat
    ∧ dm_version <$> doc_metadata doc = Some "1.6.0"%string
    ∧ ∀ f, f ∈ doc_findings doc →
        cf_class_uid f = 2003
        ∧ fm_version (cf_metadata f) = "1.6.0"%string
        ∧ fm_product (cf_metadata f)
          = {| product_name := "Tikun13 Compliance Checker";
               product_vendor_name := "Amendment 13 Assessment Tool";
               product_version := "1.0.0" |}.
Proof.
  destruct (exportComplianceFindings example_host example_results 1%positive
              (store_with example_answers)) as [[doc s'] | e] eqn:E;
    [| vm_compute in E; discriminate E].
  exists doc, s'. split; [reflexivity |]. split.
  - vm_compute in E. injection E as <- <-. reflexivity.
  - exact (proj1 (metadata_spec example_host example_results 1%positive
                    (store_with example_answers)) doc s' E).
Defined.

(** C9, where the claim fails: the results hold one violation, of category
    'dpo', which is no data category.  [exportDataSecurityFindings] returns
    the document [{version, findings: []}], which has no [metadata], so no
    [metadata.version] and no [metadata.product]. *)
Lemma data_security_document_without_metadata :
  exportDataSecurityFindings example_host dpo_only_results 1%positive
    (store_with example_answers)
  = Ok ({| doc_version := "1.6.0"; doc_metadata := None; doc_findings := [] |},
        store_with example_answers).
Proof. reflexivity. Qed.

(** *** Findings are built for every input of the data model *)

Lemma createDataSecurityFinding_ok (host : Host) (violation : data) (index : nat)
    (results : data) (answers : loc) (s : state) (m : obj) :
  is_violation violation = true →
  is_results results = true →
  heap s !! answers = Some m →
  is_answers m = true →
  ∃ f s', createDataSecurityFinding host violation index results answers s = Ok (f, s')
          ∧ heap s' = heap s.
Proof.
  intros Hv Hr Hm Ha.
  assert (∃ f s', createDataSecurityFinding host violation index results answers s
                  = Ok (f, s')) as (f & s' & Hrun).
  2:{ exists f, s'. split; [done |].
      by apply keeps_heap_createDataSecurityFinding in Hrun. }
  pose proof Hv as (mv & -> & Hd & Hc & Hsev & Hl & Hf)%is_violation_fields.
  pose proof Hr as (mr & vs & rs & -> & _ & _ & _ & _ & label & Hlabel & Hlp)%is_results_fields.
  pose proof Ha as (Hsd & Horg & Hcount)%is_answers_fields.
  unfold createDataSecurityFinding. rewrite bind_Date_now.
  set (s1 := {| heap := heap s; ticks := S (ticks s) |}).
  assert (Hm1 : heap s1 !! answers = Some m) by exact Hm.
  cbn [get]. run_steps Hm1.
  destruct (mapSeverity_ok _ Hsev) as [severity_id E1]. run_lift E1.
  destruct (getDataSecurityCategory_ok _ Hc) as [category_name E2]. run_lift E2.
  run_steps Hm1.
  destruct (getConfidentialityLevel_ok _ Hsd) as [confidentiality_id E3]. run_lift E3.
  run_steps Hm1.
  destruct (getDataViolationDescription_ok host (DObj mv) answers s1 m Hv Hm1 Ha)
    as [desc E4].
  rewrite (bind_run _ _ _ _ _ E4). run_steps Hm1.
  destruct (mapImpact_ok _ Hsev) as [impact_id E5]. run_lift E5.
  run_lift Hlabel.
  destruct (mapRiskLevel_ok _ Hlp) as [risk_level_id E6]. run_lift E6.
  rewrite (bind_run _ _ _ _ _
    (getAffectedResources_run (DObj mv) answers s1 m _ Hm1 eq_refl)).
  run_steps Hm1. eexists _, _. reflexivity.
Qed.

Lemma createComplianceFinding_ok (host : Host) (violation : data) (index : nat)
    (results : data) (answers : loc) (s : state) (m : obj) :
  is_violation violation = true →
  is_results results = true →
  heap s !! answers = Some m →
  is_answers m = true →
  ∃ f s', createComplianceFinding host violation index results answers s = Ok (f, s')
          ∧ heap s' !! answers = Some m.
Proof.
  intros Hv Hr Hm Ha.
  assert (∃ f s', createComplianceFinding host violation index results answers s
                  = Ok (f, s')) as (f & s' & Hrun).
  2:{ exists f, s'. split; [done |].
      apply createComplianceFinding_grows in Hrun. by eapply lookup_weaken. }
  pose proof Hv as (mv & -> & Hd & Hc & Hsev & Hl & Hf)%is_violation_fields.
  pose proof Hr as (mr & vs & rs & -> & _ & _ & Hrecs & Hrs & label & Hlabel & Hlp)%is_results_fields.
  pose proof Ha as (Hsd & Horg & Hcount)%is_answers_fields.
  unfold createComplianceFinding. rewrite bind_Date_now.
  set (s1 := {| heap := heap s; ticks := S (ticks s) |}).
  assert (Hm1 : heap s1 !! answers = Some m) by exact Hm.
  cbn [get]. run_steps Hm1.
  destruct (mapSeverity_ok _ Hsev) as [severity_id E1]. run_lift E1.
  run_steps Hm1.
  destruct (getDetailedDescription_ok host _ Hv) as [desc E2]. run_lift E2.
  run_steps Hm1. run_lift Hlabel.
  destruct (mapRiskLevel_ok _ Hlp) as [risk_level_id E3]. run_lift E3.
  run_steps Hm1.
  destruct (mapImpact_ok _ Hsev) as [impact_id E4]. run_lift E4.
  run_steps Hm1. rewrite Hrecs.
  destruct (getRemediationText_ok _ _ Hv Hrs) as [remediation E5]. run_lift E5.
  run_steps Hm1.
  destruct (getKnowledgeBaseArticles_ok _ Hc) as [kb_articles E6]. run_lift E6.
  run_steps Hm1.
  destruct (getOrganizationType_ok _ Horg) as [organization_name E7]. run_lift E7.
  run_steps Hm1.
  destruct (getDataScale_ok _ Hcount) as [ou_name E8]. run_lift E8.
  run_steps Hm1.
  rewrite (bind_run _ _ _ _ _ (sanitizeAnswers_run answers s1 m Hm1)).
  eexists _, _. reflexivity.
Qed.

Lemma violations_of_results (mr : obj) (vs : list data) :
  field mr "violations" = DArr vs → violations_of (DObj mr) = vs.
Proof. unfold violations_of. by intros ->. Qed.

Lemma exportComplianceFindings_ok (host : Host) (results : data) (answers : loc)
    (s : state) (m : obj) :
  is_results results = true →
  heap s !! answers = Some m →
  is_answers m = true →
  ∃ doc s', exportComplianceFindings host results answers s = Ok (doc, s')
            ∧ heap s' !! answers = Some m.
Proof.
  intros Hr Hm Ha.
  pose proof Hr as (mr & vs & rs & -> & Hviol & Hvs & _)%is_results_fields.
  unfold exportComplianceFindings. cbn [get]. rewrite Hviol.
  run_steps Hm. cbn [as_array]. run_steps Hm.
  destruct (map_indexed_ok
    (λ violation index, createComplianceFinding host violation index (DObj mr) answers)
    (λ s, heap s !! answers = Some m) vs 0 s) as (findings & s' & Hrun & Hm');
    [| done |].
  { eapply Forall_impl; [exact Hvs |]. intros v Hv j s1 Hm1.
    exact (createComplianceFinding_ok host v j (DObj mr) answers s1 m Hv Hr Hm1 Ha). }
  rewrite (bind_run _ _ _ _ _ Hrun). eexists _, _. split; [reflexivity | done].
Qed.

(** C7: [exportComplianceFindings] returns for every input of the data
    model; the document holds one finding per violation, in the order of
    [results.violations], each of class 2003 and built from the violation at
    its position.  With an empty [violations] list it returns with no
    finding, whatever the other inputs are. *)
Theorem exportComplianceFindings_spec (host : Host) (results : data)
    (answers : loc) (s : state) :
  (get results "violations" = Ok (DArr []) →
   ∃ doc, exportComplianceFindings host results answers s = Ok (doc, s)
          ∧ doc_findings doc = [])
  ∧ ∀ m, is_results results = true →
         heap s !! answers = Some m →
         is_answers m = true →
         ∃ doc s',
           exportComplianceFindings host results answers s = Ok (doc, s')
           ∧ length (doc_findings doc) = length (violations_of results)
           ∧ ∀ k v, violations_of results !! k = Some v →
               ∃ f s1 s2,
                 doc_findings doc !! k = Some f
                 ∧ cf_class_uid f = 2003
                 ∧ createComplianceFinding host v k results answers s1 = Ok (f, s2)
                 ∧ get v "category" = Ok (cu_violation_category (cf_unmapped f)).
Proof.
  split.
  - intros Hviol. unfold exportComplianceFindings.
    rewrite Hviol. eexists. split; reflexivity.
  - intros m Hr Hm Ha.
    destruct (exportComplianceFindings_ok host results answers s m Hr Hm Ha)
      as (doc & s' & Hrun & _).
    exists doc, s'. split; [done |].
    pose proof Hr as (mr & vs & rs & -> & Hviol & _)%is_results_fields.
    rewrite (violations_of_results _ _ Hviol).
    apply exportComplianceFindings_inv in Hrun
      as (violations & elems & Hget & Harr & _ & _ & _ & Hlen & Hk).
    cbn [get] in Hget. rewrite Hviol in Hget. apply Ok_inj in Hget as <-.
    cbn [as_array] in Harr. apply Ok_inj in Harr as <-.
    split; [done |]. intros k v Hv.
    destruct (Hk k v Hv) as (f & s1 & s2 & Hf & _ & _ & Hcreate).
    exists f, s1, s2. split; [done |].
    pose proof Hcreate as (? & c & _ & _ & _ & Hc & Hcat & Hclass & _)%createComplianceFinding_inv.
    repeat split; try done. by rewrite Hcat.
Qed.

(** No violation, no finding; three violations, three findings. *)
Lemma exportComplianceFindings_spec_witness :
  (∃ doc, exportComplianceFindings example_host empty_results 1%positive
            (store_with example_answers) = Ok (doc, store_with example_answers)
          ∧ doc_findings doc = [])
  ∧ ∃ doc s',
      exportComplianceFindings example_host example_results 1%positive
        (store_with example_answers) = Ok (doc, s')
      ∧ length (doc_findings doc) = length (violations_of example_results).
Proof.
  split.
  - apply (exportComplianceFindings_spec example_host empty_results 1%positive
             (store_with example_answers)). reflexivity.
  - destruct (proj2 (exportComplianceFindings_spec example_host example_results
                       1%positive (store_with example_answers))
                example_answers eq_refl eq_refl eq_refl)
      as (doc & s' & Hrun & Hlen & _).
    exists doc, s'. split; assumption.
Defined.

Lemma has_data_category_spec (v : data) :
  has_data_category v = true
  ↔ ∃ mv c, v = DObj mv ∧ field mv "category" = DStr c
            ∧ c ∈ ["data_subjects"; "consent"; "access_rights";
                   "data_minimization"; "privacy_notice"; "third_party"]%string.
Proof.
  unfold has_data_category. split.
  - destruct v as [| | | | | | mv]; try discriminate.
    destruct (field mv "category") as [| | | | c | |] eqn:E; try discriminate.
    intros Hc%bool_decide_eq_true. by exists mv, c.
  - intros (mv & c & -> & -> & Hc). by apply bool_decide_eq_true.
Qed.

Lemma exportDataSecurityFindings_ok (host : Host) (results : data) (answers : loc)
    (s : state) (m : obj) :
  is_results results = true →
  heap s !! answers = Some m →
  is_answers m = true →
  ∃ doc s', exportDataSecurityFindings host results answers s = Ok (doc, s').
Proof.
  intros Hr Hm Ha.
  pose proof Hr as (mr & vs & rs & -> & Hviol & Hvs & _)%is_results_fields.
  unfold exportDataSecurityFindings. cbn [get]. rewrite Hviol.
  run_steps Hm. cbn [as_array]. run_steps Hm.
  destruct (filter_result_ok is_data_violation vs) as (dvs & Hfil & Hsub).
  { eapply Forall_impl; [exact Hvs |]. intros v (mv & -> & _)%is_violation_fields.
    eexists. reflexivity. }
  run_lift Hfil.
  destruct (length dvs =? 0)%nat; [by eexists _, _ |].
  destruct (map_indexed_ok
    (λ violation index, createDataSecurityFinding host violation index (DObj mr) answers)
    (λ s, heap s !! answers = Some m) dvs 0 s) as (findings & s' & Hrun & _);
    [| done |].
  { apply Forall_forall. intros v Hv%Hsub j s1 Hm1.
    pose proof (proj1 (Forall_forall _ _) Hvs v Hv) as Hviolation.
    destruct (createDataSecurityFinding_ok host v j (DObj mr) answers s1 m
                Hviolation Hr Hm1 Ha) as (f & s2 & Hcreate & Hheap).
    exists f, s2. split; [done |]. by rewrite Hheap. }
  rewrite (bind_run _ _ _ _ _ Hrun). by eexists _, _.
Qed.

(** C6: for every input of the data model [exportDataSecurityFindings]
    returns a document with one finding (class 2006) per violation whose
    category is one of data_subjects, consent, access_rights,
    data_minimization, privacy_notice, third_party, in their order, and none
    for the other violations; when no violation has such a category the
    document is [{version, findings: []}], without [metadata]. *)
Theorem exportDataSecurityFindings_spec (host : Host) (results : data)
    (answers : loc) (s : state) (m : obj) :
  is_results results = true →
  heap s !! answers = Some m →
  is_answers m = true →
  ∃ doc s',
    exportDataSecurityFindings host results answers s = Ok (doc, s')
    ∧ (∀ v, has_data_category v = true
            ↔ ∃ mv c, v = DObj mv ∧ field mv "category" = DStr c
                      ∧ c ∈ ["data_subjects"; "consent"; "access_rights";
                             "data_minimization"; "privacy_notice";
                             "third_party"]%string)
    ∧ length (doc_findings doc)
      = length (List.filter has_data_category (violations_of results))
    ∧ (∀ k v, List.filter has_data_category (violations_of results) !! k = Some v →
         ∃ f, doc_findings doc !! k = Some f
              ∧ dsf_class_uid f = 2006
              ∧ du_violation_details (dsf_unmapped f) = v)
    ∧ (List.filter has_data_category (violations_of results) = [] →
       doc = {| doc_version := "1.6.0"; doc_metadata := None; doc_findings := [] |}).
Proof.
  intros Hr Hm Ha.
  destruct (exportDataSecurityFindings_ok host results answers s m Hr Hm Ha)
    as (doc & s' & Hrun).
  exists doc, s'. split; [done |]. split; [exact has_data_category_spec |].
  pose proof Hr as (mr & vs & rs & -> & Hviol & _)%is_results_fields.
  rewrite (violations_of_results _ _ Hviol).
  apply exportDataSecurityFindings_inv in Hrun
    as (violations & elems & Hget & Harr & _ & _ & Hnone & _ & Hlen & Hk).
  cbn [get] in Hget. rewrite Hviol in Hget. apply Ok_inj in Hget as <-.
  cbn [as_array] in Harr. apply Ok_inj in Harr as <-.
  split; [done |]. split; [| done].
  intros k v Hv. destruct (Hk k v Hv) as (f & s1 & s2 & Hf & _ & Hcreate).
  exists f. split; [done |].
  apply createDataSecurityFinding_inv in Hcreate
    as (c & _ & _ & _ & _ & _ & Hclass & _ & _ & _ & _ & Hdetails).
  done.
Qed.

(** Two of the three example violations have a data category; the dpo
    violation alone gives the document without metadata. *)
Lemma exportDataSecurityFindings_spec_witness :
  (∃ doc s',
     exportDataSecurityFindings example_host example_results 1%positive
       (store_with example_answers) = Ok (doc, s')
     ∧ length (doc_findings doc) = 2%nat)
  ∧ ∃ s',
      exportDataSecurityFindings example_host dpo_only_results 1%positive
        (store_with example_answers)
      = Ok ({| doc_version := "1.6.0"; doc_metadata := None; doc_findings := [] |}, s').
Proof.
  split.
  - destruct (exportDataSecurityFindings_spec example_host example_results
                1%positive (store_with example_answers) example_answers
                eq_refl eq_refl eq_refl)
      as (doc & s' & Hrun & _ & Hlen & _).
    exists doc, s'. split; [exact Hrun | exact Hlen].
  - destruct (exportDataSecurityFindings_spec example_host dpo_only_results
                1%positive (store_with example_answers) example_answers
                eq_refl eq_refl eq_refl)
      as (doc & s' & Hrun & _ & _ & _ & Hnone).
    exists s'. rewrite <- (Hnone eq_refl). exact Hrun.
Defined.

(** *** Two runs under a fixed clock

    Two runs are compared from two stores that hold the same [answers]; the
    results are compared through an erasure [e], which forgets the
    references to the sanitised copies (they are new objects in each run). *)

Definition uniform {A B} (a : loc) (m : obj) (e : A → B) (c1 c2 : M A) : Prop :=
  ∀ s1 s2, heap s1 !! a = Some m → heap s2 !! a = Some m →
    match c1 s1, c2 s2 with
    | Ok (x1, s1'), Ok (x2, s2') =>
        e x1 = e x2 ∧ heap s1' !! a = Some m ∧ heap s2' !! a = Some m
    | Throw _, Throw _ => True
    | _, _ => False
    end.

Definition erase (l : loc) : unit := tt.

Section Uniform.
Context (host : Host) (t : Z) (Hclock : fixed_clock host t).
Context (a : loc) (m : obj).

Lemma uniform_ret {A B} (e : A → B) (x1 x2 : A) :
  e x1 = e x2 → uniform a m e (mret x1) (mret x2).
Proof. intros He s1 s2 H1 H2. cbn. done. Qed.

Lemma uniform_lift {A} (r : result A) : uniform a m id (lift r) (lift r).
Proof. intros s1 s2 H1 H2. unfold lift. by destruct r. Qed.

Lemma uniform_get_field (k : string) :
  uniform a m id (get_field a k) (get_field a k).
Proof.
  intros s1 s2 H1 H2.
  by rewrite (get_field_run _ _ _ _ H1), (get_field_run _ _ _ _ H2).
Qed.

Lemma uniform_Date_now : uniform a m id (Date_now host) (Date_now host).
Proof. intros s1 s2 H1 H2. unfold Date_now. cbn. by rewrite !Hclock. Qed.

Lemma uniform_bind {A B C D} (e1 : A → C) (e : B → D) (c1 c2 : M A) (f1 f2 : A → M B) :
  uniform a m e1 c1 c2 →
  (∀ x1 x2, e1 x1 = e1 x2 → uniform a m e (f1 x1) (f2 x2)) →
  uniform a m e (c1 ≫= f1) (c2 ≫= f2).
Proof.
  intros Hc Hf s1 s2 H1 H2. specialize (Hc s1 s2 H1 H2).
  unfold mbind, M_bind.
  destruct (c1 s1) as [[x1 s1'] | e1'], (c2 s2) as [[x2 s2'] | e2']; try done.
  destruct Hc as (He & H1' & H2'). by apply Hf.
Qed.

Lemma uniform_bind_eq {A B D} (e : B → D) (c : M A) (f1 f2 : A → M B) :
  uniform a m id c c →
  (∀ x, uniform a m e (f1 x) (f2 x)) →
  uniform a m e (c ≫= f1) (c ≫= f2).
Proof.
  intros Hc Hf. eapply uniform_bind; [exact Hc |].
  intros x1 x2 Hx. cbv [id] in Hx. subst x2. apply Hf.
Qed.

Lemma uniform_if {A B} (e : A → B) (b : bool) (c1 c2 d1 d2 : M A) :
  uniform a m e c1 d1 → uniform a m e c2 d2 →
  uniform a m e (if b then c1 else c2) (if b then d1 else d2).
Proof. by destruct b. Qed.

Lemma uniform_map_indexed {A B C} (e : B → C) (f : A → nat → M B) (l : list A) (i : nat) :
  (∀ x j, uniform a m e (f x j) (f x j)) →
  uniform a m (fmap e) (map_indexed f i l) (map_indexed f i l).
Proof.
  intros Hf. revert i. induction l as [| x l IH]; intros i; cbn [map_indexed].
  - by apply uniform_ret.
  - eapply uniform_bind; [apply Hf |]. intros y1 y2 Hy.
    eapply uniform_bind; [apply IH |]. intros ys1 ys2 Hys.
    apply uniform_ret. cbn. by rewrite Hy, Hys.
Qed.

Lemma uniform_map_indexed_id {A B} (f : A → nat → M B) (l : list A) (i : nat) :
  (∀ x j, uniform a m id (f x j) (f x j)) →
  uniform a m id (map_indexed f i l) (map_indexed f i l).
Proof.
  intros Hf s1 s2 H1 H2.
  pose proof (uniform_map_indexed id f l i Hf s1 s2 H1 H2) as Hmap.
  destruct (map_indexed f i l s1) as [[y1 s1'] |],
    (map_indexed f i l s2) as [[y2 s2'] |]; try done.
  by rewrite !list_fmap_id in Hmap.
Qed.

Lemma uniform_sanitizeAnswers :
  uniform a m erase (sanitizeAnswers a) (sanitizeAnswers a).
Proof.
  intros s1 s2 H1 H2.
  rewrite (sanitizeAnswers_run _ _ _ H1), (sanitizeAnswers_run _ _ _ H2).
  cbn [heap]. split; [done |].
  split; (rewrite lookup_insert_ne; [done |]); intros Heq.
  - pose proof (is_fresh (dom (heap s1))) as Hfresh.
    rewrite Heq in Hfresh. by apply Hfresh, elem_of_dom.
  - pose proof (is_fresh (dom (heap s2))) as Hfresh.
    rewrite Heq in Hfresh. by apply Hfresh, elem_of_dom.
Qed.

End Uniform.

(** A function of the exporter whose result does not depend on the store
    beyond [answers]: one rule per construct.  A bind is entered only when
    its first computation is settled by the rules. *)
Ltac uniform_steps :=
  repeat first
    [ progress cbv zeta
    | apply uniform_lift
    | apply uniform_get_field
    | eapply uniform_Date_now; eassumption
    | assumption
    | apply uniform_ret; reflexivity
    | apply uniform_if
    | apply uniform_map_indexed_id; intros ? ?
    | match goal with H : ∀ _, _ |- _ => apply H end
    | apply uniform_bind_eq; [solve [uniform_steps] | intros ?] ].

Section UniformExporter.
Context (host : Host) (t : Z) (Hclock : fixed_clock host t).
Context (a : loc) (m : obj).

Lemma uniform_sensitive_data_nonempty :
  uniform a m id (sensitive_data_nonempty host a) (sensitive_data_nonempty host a).
Proof. unfold sensitive_data_nonempty. uniform_steps. Qed.

Lemma uniform_requiresDPO :
  uniform a m id (requiresDPO host a) (requiresDPO host a).
Proof.
  pose proof uniform_sensitive_data_nonempty.
  unfold requiresDPO. uniform_steps.
Qed.

Lemma uniform_getAffectedResources (violation : data) :
  uniform a m id (getAffectedResources violation a) (getAffectedResources violation a).
Proof. unfold getAffectedResources. uniform_steps. Qed.

Lemma uniform_getDataViolationDescription (violation : data) :
  uniform a m id (getDataViolationDescription host violation a)
    (getDataViolationDescription host violation a).
Proof.
  pose proof uniform_sensitive_data_nonempty.
  unfold getDataViolationDescription. uniform_steps.
Qed.

Lemma uniform_createDataSecurityFinding (violation : data) (index : nat) (results : data) :
  uniform a m id (createDataSecurityFinding host violation index results a)
    (createDataSecurityFinding host violation index results a).
Proof.
  pose proof (uniform_getDataViolationDescription violation).
  pose proof (uniform_getAffectedResources violation).
  unfold createDataSecurityFinding. uniform_steps.
Qed.

Lemma uniform_exportDataSecurityFindings (results : data) :
  uniform a m id (exportDataSecurityFindings host results a)
    (exportDataSecurityFindings host results a).
Proof.
  pose proof uniform_createDataSecurityFinding.
  unfold exportDataSecurityFindings. uniform_steps.
Qed.

Lemma uniform_exportRecommendations (recommendations : data) :
  uniform a m id (exportRecommendations host recommendations)
    (exportRecommendations host recommendations).
Proof. unfold exportRecommendations. uniform_steps. Qed.

Lemma uniform_createComplianceFinding (violation : data) (index : nat) (results : data) :
  uniform a m (cf_map erase)
    (createComplianceFinding host violation index results a)
    (createComplianceFinding host violation index results a).
Proof.
  unfold createComplianceFinding. uniform_steps.
  eapply uniform_bind; [apply uniform_sanitizeAnswers |].
  intros l1 l2 _. by apply uniform_ret.
Qed.

Lemma uniform_exportComplianceFindings (results : data) :
  uniform a m (doc_map (cf_map erase))
    (exportComplianceFindings host results a)
    (exportComplianceFindings host results a).
Proof.
  unfold exportComplianceFindings. uniform_steps.
  eapply uniform_bind.
  - apply uniform_map_indexed. intros v j. apply uniform_createComplianceFinding.
  - intros fs1 fs2 Hfs. apply uniform_ret. unfold doc_map. cbn. by rewrite Hfs.
Qed.

Lemma uniform_exportCombinedReport (results : data) :
  uniform a m (report_map erase)
    (exportCombinedReport host results a)
    (exportCombinedReport host results a).
Proof.
  pose proof uniform_requiresDPO.
  pose proof uniform_sensitive_data_nonempty.
  unfold exportCombinedReport. uniform_steps.
  eapply uniform_bind; [apply uniform_exportComplianceFindings |].
  intros d1 d2 Hd.
  apply uniform_bind_eq; [apply uniform_exportDataSecurityFindings | intros ?].
  apply uniform_bind_eq; [apply uniform_lift | intros ?].
  apply uniform_bind_eq; [apply uniform_exportRecommendations | intros ?].
  apply uniform_bind_eq; [apply uniform_lift | intros ?].
  apply uniform_ret. unfold report_map. cbn. by rewrite Hd.
Qed.

End UniformExporter.

(** *** The combined report *)

(** The store after [exportCombinedReport]: only the compliance findings
    added objects to it. *)
Lemma exportCombinedReport_store (host : Host) (results : data) (answers : loc)
    (s : state) (m : obj) (r : CombinedReport loc) (s' : state) :
  heap s !! answers = Some m →
  exportCombinedReport host results answers s = Ok (r, s') →
  heap s ⊆ heap s'
  ∧ ∀ f, f ∈ doc_findings (report_compliance_findings r) →
      heap s' !! assessment_answers f = Some (sanitized m).
Proof.
  intros Hm H. unfold exportCombinedReport in H. inv_run H.
  repeat match goal with
  | Hk : requiresDPO _ _ _ = Ok _ |- _ =>
      apply keeps_heap_requiresDPO in Hk; cbn [heap] in Hk
  | Hk : sensitive_data_nonempty _ _ _ = Ok _ |- _ =>
      apply keeps_heap_sensitive_data_nonempty in Hk
  | Hk : exportDataSecurityFindings _ _ _ _ = Ok _ |- _ =>
      apply keeps_heap_exportDataSecurityFindings in Hk
  | Hk : exportRecommendations _ _ _ = Ok _ |- _ =>
      apply keeps_heap_exportRecommendations in Hk
  end.
  match goal with
  | Hc : exportComplianceFindings _ _ _ ?sa = Ok (_, ?sb)
    |- heap _ ⊆ heap ?sf ∧ _ =>
      assert (Hsa : heap sa = heap s) by congruence;
      assert (Hsb : heap sf = heap sb) by congruence;
      assert (Hma : heap sa !! answers = Some m) by (by rewrite Hsa);
      destruct (exportComplianceFindings_store _ _ _ _ _ _ _ Hma Hc)
        as [Hsub Hfindings]
  end.
  cbn [report_compliance_findings]. rewrite Hsb. rewrite <- Hsa.
  split; [done |]. intros f Hf. by apply Hfindings.
Qed.

Lemma cf_map_compose {A B C} (g : A → B) (h : B → C) (f : ComplianceFinding A) :
  cf_map h (cf_map g f) = cf_map (h ∘ g) f.
Proof. reflexivity. Qed.

(** Reading a finding back gives the erased finding with the object put
    where the reference was. *)
Lemma cf_map_lookup (h : gmap loc obj) (o : obj) (f : ComplianceFinding loc) :
  h !! assessment_answers f = Some o →
  cf_map (λ l, h !! l) f = cf_map (λ _, Some o) (cf_map erase f).
Proof.
  intros Ho. rewrite cf_map_compose. unfold cf_map, cu_map.
  unfold assessment_answers in Ho. by rewrite Ho.
Qed.

Lemma read_back_erased (h : gmap loc obj) (o : obj) (r : CombinedReport loc) :
  (∀ f, f ∈ doc_findings (report_compliance_findings r) →
        h !! assessment_answers f = Some o) →
  read_back h r = report_map (λ _, Some o) (report_map erase r).
Proof.
  intros Hall. unfold read_back, report_map, doc_map. cbn. f_equal. f_equal.
  rewrite <- list_fmap_compose. apply list_fmap_ext.
  intros k f Hf. cbn. apply cf_map_lookup, Hall.
  by eapply list_elem_of_lookup_2.
Qed.

(** C8: under a clock that stands still, a second call of
    [exportCombinedReport] with the same [results] and [answers], made after
    the first one returned, returns too, and the two reports are equal once
    the sanitised copies are read from the store - the ids included, as they
    are built from the clock and the position only.  (No function that the
    report calls draws a random number.) *)
Theorem exportCombinedReport_deterministic (host : Host) (t : Z) (results : data)
    (answers : loc) (s0 : state) (m : obj) (r1 : CombinedReport loc) (s1 : state) :
  fixed_clock host t →
  heap s0 !! answers = Some m →
  exportCombinedReport host results answers s0 = Ok (r1, s1) →
  ∃ r2 s2,
    exportCombinedReport host results answers s1 = Ok (r2, s2)
    ∧ read_back (heap s2) r1 = read_back (heap s2) r2.
Proof.
  intros Hclock Hm Hrun1.
  destruct (exportCombinedReport_store _ _ _ _ _ _ _ Hm Hrun1) as [Hsub1 Hcopies1].
  pose proof (lookup_weaken _ _ _ _ Hm Hsub1) as Hm1.
  pose proof (uniform_exportCombinedReport host t Hclock answers m results
                s0 s1 Hm Hm1) as Hboth.
  rewrite Hrun1 in Hboth.
  destruct (exportCombinedReport host results answers s1) as [[r2 s2] |] eqn:Hrun2;
    [| done].
  destruct Hboth as (Herased & _ & _).
  destruct (exportCombinedReport_store _ _ _ _ _ _ _ Hm1 Hrun2) as [Hsub2 Hcopies2].
  exists r2, s2. split; [done |].
  rewrite (read_back_erased (heap s2) (sanitized m) r1),
    (read_back_erased (heap s2) (sanitized m) r2), Herased; [done | done |].
  intros f Hf. eapply lookup_weaken; [by apply Hcopies1 | done].
Qed.

(** Two calls in a row under the frozen clock. *)
Lemma exportCombinedReport_deterministic_witness :
  ∃ r1 s1 r2 s2,
    exportCombinedReport frozen_host example_results 1%positive
      (store_with example_answers) = Ok (r1, s1)
    ∧ exportCombinedReport frozen_host example_results 1%positive s1 = Ok (r2, s2)
    ∧ length (doc_findings (report_compliance_findings r1)) = 3%nat
    ∧ read_back (heap s2) r1 = read_back (heap s2) r2.
Proof.
  destruct (exportCombinedReport frozen_host example_results 1%positive
              (store_with example_answers)) as [[r1 s1] | e] eqn:E;
    [| vm_compute in E; discriminate E].
  destruct (exportCombinedReport_deterministic frozen_host 1700000000000
              example_results 1%positive (store_with example_answers)
              example_answers r1 s1 (λ _, eq_refl) eq_refl E)
    as (r2 & s2 & Hrun2 & Hsame).
  exists r1, s1, r2, s2. split; [reflexivity |]. split; [exact Hrun2 |].
  split; [| exact Hsame].
  vm_compute in E. injection E as <- <-. reflexivity.
Defined.

(** ** Further properties of the exporter *)

(** *** What a finding holds, field by field *)

Lemma createComplianceFinding_fields (host : Host) (violation : data) (index : nat)
    (results : data) (answers : loc) (s : state) (f : ComplianceFinding loc) (s' : state) :
  createComplianceFinding host violation index results answers s = Ok (f, s') →
  ∃ m severity law_reference description category fine label recommendations,
    heap s !! answers = Some m
    ∧ get violation "severity" = Ok severity
    ∧ get violation "law_reference" = Ok law_reference
    ∧ get violation "description" = Ok description
    ∧ get violation "category" = Ok category
    ∧ get violation "fine" = Ok fine
    ∧ riskLevel_label results = Ok label
    ∧ get results "recommendations" = Ok recommendations
    ∧ cf_time f = date_now host (ticks s)
    ∧ ticks s' = S (ticks s)
    ∧ mapSeverity severity = Ok (cf_severity_id f)
    ∧ mapImpact severity = Ok (cf_impact_id f)
    ∧ mapRiskLevel label = Ok (cf_risk_level_id f)
    ∧ compliance_control (cf_compliance f)
      = or_data law_reference (DStr "General Requirement")
    ∧ fi_title (cf_finding_info f) = description
    ∧ fi_uid (cf_finding_info f)
      = "tikun13-" +:+ pretty (cf_time f) +:+ "-" +:+ pretty index
    ∧ getRemediationText violation recommendations
      = Ok (remediation_desc (cf_remediation f))
    ∧ getKnowledgeBaseArticles category
      = Ok (remediation_kb_articles (cf_remediation f))
    ∧ cf_impact_score f = or_data fine (DNum 0)
    ∧ getOrganizationType (field m "org_type")
      = Ok (organization_name (cf_organization f))
    ∧ getDataScale (field m "data_subjects_count")
      = Ok (organization_ou_name (cf_organization f))
    ∧ cu_fine_amount_ils (cf_unmapped f) = fine
    ∧ cu_sensitive_data_types (cf_unmapped f)
      = or_data (field m "sensitive_data") (DArr []).
Proof.
  intros H. unfold createComplianceFinding in H. inv_run H.
  cbn [heap] in *.
  repeat match goal with
  | H1 : ?h !! answers = Some ?x, H2 : ?h !! answers = Some ?y |- _ =>
      rewrite H1 in H2; injection H2 as <-
  end.
  match goal with
  | Hm : heap s !! answers = Some ?m, Hs : sanitizeAnswers _ ?st = Ok _ |- _ =>
      rewrite (sanitizeAnswers_run answers st m Hm) in Hs; injection Hs as <- <-
  end.
  do 8 eexists. cbn.
  repeat (split; [first [eassumption | reflexivity] |]).
  reflexivity.
Qed.

(** Computations that only read: they return in the state they started
    from. *)
Definition reads_only {A} (c : M A) : Prop :=
  ∀ s a s', c s = Ok (a, s') → s' = s.

Lemma reads_only_ret {A} (a : A) : reads_only (mret a).
Proof. by intros s b s' [_ ->]%ret_Ok. Qed.

Lemma reads_only_lift {A} (r : result A) : reads_only (lift r).
Proof. by intros s b s' [_ ->]%lift_Ok. Qed.

Lemma reads_only_get_field (l : loc) (k : string) : reads_only (get_field l k).
Proof. by intros s b s' (o & _ & _ & ->)%get_field_Ok. Qed.

Lemma reads_only_bind {A B} (c : M A) (f : A → M B) :
  reads_only c → (∀ a, reads_only (f a)) → reads_only (c ≫= f).
Proof.
  intros Hc Hf s b s' (a & s1 & H1 & H2)%bind_Ok.
  rewrite (Hf _ _ _ _ H2). eauto.
Qed.

Lemma reads_only_if {A} (b : bool) (c1 c2 : M A) :
  reads_only c1 → reads_only c2 → reads_only (if b then c1 else c2).
Proof. by destruct b. Qed.

Ltac reads_only_steps :=
  repeat first
    [ progress cbv zeta
    | apply reads_only_ret
    | apply reads_only_lift
    | apply reads_only_get_field
    | assumption
    | apply reads_only_if
    | apply reads_only_bind; [| intros ?] ].

Lemma reads_only_sensitive_data_nonempty (host : Host) (answers : loc) :
  reads_only (sensitive_data_nonempty host answers).
Proof. unfold sensitive_data_nonempty. reads_only_steps. Qed.

Lemma reads_only_requiresDPO (host : Host) (answers : loc) :
  reads_only (requiresDPO host answers).
Proof.
  pose proof (reads_only_sensitive_data_nonempty host answers).
  unfold requiresDPO. reads_only_steps.
Qed.

Lemma reads_only_getAffectedResources (violation : data) (answers : loc) :
  reads_only (getAffectedResources violation answers).
Proof. unfold getAffectedResources. reads_only_steps. Qed.

Lemma reads_only_getDataViolationDescription (host : Host) (violation : data)
    (answers : loc) :
  reads_only (getDataViolationDescription host violation answers).
Proof.
  pose proof (reads_only_sensitive_data_nonempty host answers).
  unfold getDataViolationDescription. reads_only_steps.
Qed.

Lemma createDataSecurityFinding_fields (host : Host) (violation : data) (index : nat)
    (results : data) (answers : loc) (s : state) (f : DataSecurityFinding) (s' : state) :
  createDataSecurityFinding host violation index results answers s = Ok (f, s') →
  ∃ m severity law_reference category label,
    heap s !! answers = Some m
    ∧ get violation "severity" = Ok severity
    ∧ get violation "law_reference" = Ok law_reference
    ∧ get violation "category" = Ok category
    ∧ riskLevel_label results = Ok label
    ∧ dsf_time f = date_now host (ticks s)
    ∧ s' = {| heap := heap s; ticks := S (ticks s) |}
    ∧ mapSeverity severity = Ok (dsf_severity_id f)
    ∧ mapImpact severity = Ok (dsf_impact_id f)
    ∧ mapRiskLevel label = Ok (dsf_risk_level_id f)
    ∧ getDataSecurityCategory category = Ok (ds_category_name (dsf_data_security f))
    ∧ getConfidentialityLevel (field m "sensitive_data")
      = Ok (ds_confidentiality_id (dsf_data_security f))
    ∧ ds_policy (dsf_data_security f)
      = or_data law_reference (DStr "Privacy Protection Policy")
    ∧ fi_uid (dsf_finding_info f)
      = "tikun13-data-" +:+ pretty (dsf_time f) +:+ "-" +:+ pretty index
    ∧ fi_types (dsf_finding_info f) = [DStr "Privacy Violation"; category]
    ∧ du_violation_details (dsf_unmapped f) = violation
    ∧ du_sensitive_data_types (dsf_unmapped f)
      = or_data (field m "sensitive_data") (DArr []).
Proof.
  intros H. unfold createDataSecurityFinding in H.
  repeat (inv_step H;
    try match goal with
    | Hd : getDataViolationDescription _ _ _ _ = Ok _ |- _ =>
        apply reads_only_getDataViolationDescription in Hd; subst
    | Hr : getAffectedResources _ _ _ = Ok _ |- _ =>
        apply reads_only_getAffectedResources in Hr; subst
    end).
  apply ret_Ok in H as [-> ->]. same_reads. cbn [heap] in *.
  repeat match goal with
  | H1 : ?h !! answers = Some ?x, H2 : ?h !! answers = Some ?y |- _ =>
      rewrite H1 in H2; injection H2 as <-
  end.
  do 5 eexists. cbn.
  repeat (split; [first [eassumption | reflexivity] |]).
  reflexivity.
Qed.

(** *** Severity, impact and risk ids *)

(** X1: for a severity given as text that does not name a property of
    [Object.prototype], [mapSeverity] returns a number between 0 and 5, which
    is 0 exactly for the texts other than the five severities, and
    [mapImpact] returns that number less one, but not less than 0. *)
Theorem severity_and_impact_ids (s : string) :
  object_prototype_get s = None →
  ∃ n, mapSeverity (DStr s) = Ok (Data (DNum n))
       ∧ mapImpact (DStr s) = Ok (Data (DNum (Z.max 0 (n - 1))))
       ∧ 0 ≤ n ≤ 5
       ∧ (n = 0 ↔ s ∉ ["critical"; "high"; "medium"; "low"; "info"]%string).
Proof.
  intros Hp.
  assert (Hin : ∀ k : string,
    k ∈ ["critical"; "high"; "medium"; "low"; "info"]%string
    ↔ k = "critical"%string ∨ k = "high"%string ∨ k = "medium"%string
      ∨ k = "low"%string ∨ k = "info"%string).
  { intros k. rewrite !elem_of_cons, elem_of_nil. tauto. }
  destruct (String.eqb_spec s "critical") as [-> | H1].
  { exists 5. repeat split; try reflexivity; try lia.
    intros Hn. exfalso. apply Hn, Hin. tauto. }
  destruct (String.eqb_spec s "high") as [-> | H2].
  { exists 4. repeat split; try reflexivity; try lia.
    intros Hn. exfalso. apply Hn, Hin. tauto. }
  destruct (String.eqb_spec s "medium") as [-> | H3].
  { exists 3. repeat split; try reflexivity; try lia.
    intros Hn. exfalso. apply Hn, Hin. tauto. }
  destruct (String.eqb_spec s "low") as [-> | H4].
  { exists 2. repeat split; try reflexivity; try lia.
    intros Hn. exfalso. apply Hn, Hin. tauto. }
  destruct (String.eqb_spec s "info") as [-> | H5].
  { exists 1. repeat split; try reflexivity; try lia.
    intros Hn. exfalso. apply Hn, Hin. tauto. }
  assert (Hout : s ∉ ["critical"; "high"; "medium"; "low"; "info"]%string)
    by (rewrite Hin; tauto).
  destruct (mapSeverity_fallback s Hout Hp) as [-> ->].
  exists 0. repeat split; try reflexivity; try lia; done.
Qed.

(** The unknown severity 'urgent' gets 0 and 0. *)
Lemma severity_and_impact_ids_witness :
  ∃ n, mapSeverity (DStr "urgent") = Ok (Data (DNum n))
       ∧ mapImpact (DStr "urgent") = Ok (Data (DNum (Z.max 0 (n - 1))))
       ∧ 0 ≤ n ≤ 5
       ∧ (n = 0 ↔ "urgent"%string ∉ ["critical"; "high"; "medium"; "low"; "info"]%string).
Proof. apply (severity_and_impact_ids "urgent"). reflexivity. Defined.

(** *** Where the parts of a document come from *)

Lemma map_indexed_lookup {A B} (f : A → nat → M B) (l : list A) (i : nat)
    (s : state) (ys : list B) (s' : state) :
  map_indexed f i l s = Ok (ys, s') →
  length ys = length l
  ∧ ∀ k y, ys !! k = Some y →
      ∃ x s1 s2, l !! k = Some x ∧ f x (i + k)%nat s1 = Ok (y, s2).
Proof.
  revert i s ys. induction l as [| x l IH]; intros i s ys H.
  - apply ret_Ok in H as [-> ->]. split; [done |]. intros k y [=].
  - cbn [map_indexed] in H.
    apply bind_Ok in H as (y & s1 & Hy & H).
    apply bind_Ok in H as (ys' & s2 & Hys & H).
    apply ret_Ok in H as [-> ->].
    destruct (IH _ _ _ Hys) as [Hlen Hk].
    split; [by rewrite !length_cons, Hlen |].
    intros [| k] y' Hy'.
    + injection Hy' as <-. exists x, s, s1. rewrite Nat.add_0_r. done.
    + destruct (Hk k y' Hy') as (x' & sa & sb & Hx' & Hrun).
      exists x', sa, sb. replace (i + S k)%nat with (S i + k)%nat by lia. done.
Qed.

Lemma compliance_finding_origin (host : Host) (results : data) (answers : loc)
    (s : state) (doc : Document (ComplianceFinding loc)) (s' : state)
    (k : nat) (f : ComplianceFinding loc) :
  exportComplianceFindings host results answers s = Ok (doc, s') →
  doc_findings doc !! k = Some f →
  ∃ v s1 s2,
    violations_of_array results !! k = Some v
    ∧ heap s ⊆ heap s1 ∧ heap s2 ⊆ heap s'
    ∧ createComplianceFinding host v k results answers s1 = Ok (f, s2).
Proof.
  intros (violations & elems & Hget & Harr & _ & _ & _ & Hlen & Hk)%exportComplianceFindings_inv Hf.
  destruct (lookup_lt_is_Some_2 elems k) as [v Hv].
  { rewrite <- Hlen. by eapply lookup_lt_Some. }
  destruct (Hk k v Hv) as (f' & s1 & s2 & Hf' & Hs1 & Hs2 & Hrun).
  rewrite Hf in Hf'. injection Hf' as <-.
  exists v, s1, s2. unfold violations_of_array. rewrite Hget, Harr. done.
Qed.

(** The parts of a combined report, each with the call that built it. *)
Lemma exportCombinedReport_parts (host : Host) (results : data) (answers : loc)
    (s : state) (r : CombinedReport loc) (s' : state) :
  exportCombinedReport host results answers s = Ok (r, s') →
  ∃ m label violations recommendations sa sb,
    heap s !! answers = Some m
    ∧ riskLevel_label results = Ok label
    ∧ get results "violations" = Ok violations
    ∧ get results "recommendations" = Ok recommendations
    ∧ requiresDPO host answers {| heap := heap s; ticks := S (ticks s) |}
      = Ok (summary_requires_dpo (report_summary r),
            {| heap := heap s; ticks := S (ticks s) |})
    ∧ sensitive_data_nonempty host answers {| heap := heap s; ticks := S (ticks s) |}
      = Ok (summary_has_sensitive_data (report_summary r),
            {| heap := heap s; ticks := S (ticks s) |})
    ∧ exportComplianceFindings host results answers
        {| heap := heap s; ticks := S (ticks s) |}
      = Ok (report_compliance_findings r, sa)
    ∧ exportDataSecurityFindings host results answers sa
      = Ok (report_data_security_findings r, sb)
    ∧ exportRecommendations host recommendations sb
      = Ok (report_recommendations r, s')
    ∧ summary_risk_level (report_summary r) = or_data label (DStr "Unknown")
    ∧ get violations "length" = Ok (summary_total_violations (report_summary r))
    ∧ count_severity results "critical"
      = Ok (summary_critical_violations (report_summary r))
    ∧ count_severity results "high"
      = Ok (summary_high_violations (report_summary r))
    ∧ get results "score" = Ok (summary_compliance_score (report_summary r))
    ∧ get results "totalFines" = Ok (summary_total_fines (report_summary r))
    ∧ get results "complianceMatrix" = Ok (report_compliance_matrix r)
    ∧ getOrganizationType (field m "org_type")
      = Ok (rm_organization_type (report_metadata r))
    ∧ getDataScale (field m "data_subjects_count")
      = Ok (rm_data_scale (report_metadata r))
    ∧ rm_generated_at (report_metadata r)
      = date_toISOString host (date_now host (ticks s)).
Proof.
  intros H. unfold exportCombinedReport in H.
  repeat (inv_step H;
    try match goal with
    | Hd : requiresDPO _ _ _ = Ok (_, ?s2) |- _ =>
        pose proof (reads_only_requiresDPO _ _ _ _ _ Hd); subst s2
    | Hr : sensitive_data_nonempty _ _ _ = Ok (_, ?s2) |- _ =>
        pose proof (reads_only_sensitive_data_nonempty _ _ _ _ _ Hr); subst s2
    end).
  apply ret_Ok in H as [-> ->]. same_reads. cbn [heap] in *.
  repeat match goal with
  | H1 : ?h !! answers = Some ?x, H2 : ?h !! answers = Some ?y |- _ =>
      rewrite H1 in H2; injection H2 as <-
  end.
  do 6 eexists. cbn.
  repeat (split; [first [eassumption | reflexivity] |]).
  first [eassumption | reflexivity].
Qed.

Lemma mapRiskLevel_nullish (label : data) :
  is_nullish label = true → mapRiskLevel label = Ok (Data (DNum 0)).
Proof. destruct label; try discriminate; reflexivity. Qed.

(** X2: in a combined report every finding, of either class, carries the
    [risk_level_id] that [mapRiskLevel] gives for [results.riskLevel?.label],
    and the summary carries that label, or 'Unknown' when it is falsy.  When
    the results have no risk level, every [risk_level_id] is 0 and the
    summary says 'Unknown'. *)
Theorem risk_level_in_report (host : Host) (results : data) (answers : loc)
    (s : state) (r : CombinedReport loc) (s' : state) :
  exportCombinedReport host results answers s = Ok (r, s') →
  ∃ label,
    riskLevel_label results = Ok label
    ∧ summary_risk_level (report_summary r) = or_data label (DStr "Unknown")
    ∧ (∀ f, f ∈ doc_findings (report_compliance_findings r) →
         mapRiskLevel label = Ok (cf_risk_level_id f))
    ∧ (∀ f, f ∈ doc_findings (report_data_security_findings r) →
         mapRiskLevel label = Ok (dsf_risk_level_id f))
    ∧ (is_nullish label = true →
         summary_risk_level (report_summary r) = DStr "Unknown"
         ∧ (∀ f, f ∈ doc_findings (report_compliance_findings r) →
              cf_risk_level_id f = Data (DNum 0))
         ∧ (∀ f, f ∈ doc_findings (report_data_security_findings r) →
              dsf_risk_level_id f = Data (DNum 0))).
Proof.
  intros (m & label & violations & recommendations & sa & sb & _ & Hlabel & _ & _
          & _ & _ & Hcf & Hdsf & _ & Hsummary & _)%exportCombinedReport_parts.
  assert (Hc : ∀ f, f ∈ doc_findings (report_compliance_findings r) →
                    mapRiskLevel label = Ok (cf_risk_level_id f)).
  { intros f (k & Hf)%list_elem_of_lookup.
    destruct (compliance_finding_origin _ _ _ _ _ _ _ _ Hcf Hf)
      as (v & s1 & s2 & _ & _ & _ & Hrun).
    apply createComplianceFinding_fields in Hrun
      as (? & ? & ? & ? & ? & ? & label' & ? & _ & _ & _ & _ & _ & _ & Hl & _ & _
          & _ & _ & _ & Hrisk & _).
    congruence. }
  assert (Hd : ∀ f, f ∈ doc_findings (report_data_security_findings r) →
                    mapRiskLevel label = Ok (dsf_risk_level_id f)).
  { intros f Hf.
    destruct (data_security_finding_origin _ _ _ _ _ _ _ Hdsf Hf)
      as (v & k & s1 & s2 & _ & _ & Hrun).
    apply createDataSecurityFinding_fields in Hrun
      as (? & ? & ? & ? & label' & _ & _ & _ & _ & Hl & _ & _ & _ & _ & Hrisk & _).
    congruence. }
  exists label. repeat split; try done.
  - rewrite Hsummary. by destruct label.
  - intros f Hf. specialize (Hc f Hf).
    rewrite (mapRiskLevel_nullish _ H) in Hc. by apply Ok_inj in Hc.
  - intros f Hf. specialize (Hd f Hf).
    rewrite (mapRiskLevel_nullish _ H) in Hd. by apply Ok_inj in Hd.
Qed.

(** The example results carry the label that maps to 3. *)
Lemma risk_level_in_report_witness :
  ∃ r s' label,
    exportCombinedReport example_host example_results 1%positive
      (store_with example_answers) = Ok (r, s')
    ∧ riskLevel_label example_results = Ok label
    ∧ mapRiskLevel label = Ok (Data (DNum 3))
    ∧ (∀ f, f ∈ doc_findings (report_compliance_findings r) →
         mapRiskLevel label = Ok (cf_risk_level_id f))
    ∧ (∀ f, f ∈ doc_findings (report_data_security_findings r) →
         mapRiskLevel label = Ok (dsf_risk_level_id f)).
Proof.
  destruct (exportCombinedReport example_host example_results 1%positive
              (store_with example_answers)) as [[r s'] | e] eqn:E;
    [| vm_compute in E; discriminate E].
  destruct (risk_level_in_report example_host example_results 1%positive
              (store_with example_answers) r s' E)
    as (label & Hlabel & _ & Hc & Hd & _).
  exists r, s', label. split; [reflexivity |]. split; [exact Hlabel |].
  split; [| split; assumption].
  vm_compute in Hlabel. injection Hlabel as <-. reflexivity.
Defined.

(** *** Lookup tables and the findings *)

(** X3: every finding of [exportDataSecurityFindings] names its category
    with one of the six labels of [getDataSecurityCategory]; the fallback
    'Privacy Violation' never appears as the category name, as the six data
    categories are exactly the keys of that table. *)
Theorem data_security_category_names (host : Host) (results : data) (answers : loc)
    (s : state) (doc : Document DataSecurityFinding) (s' : state) :
  exportDataSecurityFindings host results answers s = Ok (doc, s') →
  ∀ f, f ∈ doc_findings doc →
    ∃ c name,
      fi_types (dsf_finding_info f) = [DStr "Privacy Violation"; DStr c]
      ∧ ds_category_name (dsf_data_security f) = Data (DStr name)
      ∧ (c, name) ∈ [ ("data_subjects", "Data Subject Rights");
                      ("consent", "Consent Management");
                      ("access_rights", "Access Control");
                      ("data_minimization", "Data Minimization");
                      ("privacy_notice", "Privacy Notice");
                      ("third_party", "Third Party Sharing") ]%string
      ∧ name ≠ "Privacy Violation"%string.
Proof.
  intros Hrun f Hf.
  destruct (data_security_finding_origin _ _ _ _ _ _ _ Hrun Hf)
    as (v & k & s1 & s2 & Hcat & _ & Hcreate).
  apply has_data_category_spec in Hcat as (mv & c & -> & Hc & Hin).
  apply createDataSecurityFinding_fields in Hcreate
    as (? & ? & ? & category & ? & _ & _ & _ & Hget & _ & _ & _ & _ & _ & _
        & Hname & _ & _ & _ & Htypes & _).
  cbn [get] in Hget. rewrite Hc in Hget. apply Ok_inj in Hget as <-.
  exists c. rewrite Htypes.
  repeat (apply elem_of_cons in Hin as [-> | Hin];
    [match type of Hname with
     | ?l = _ => let v := eval vm_compute in l in change l with v in Hname
     end;
     apply Ok_inj in Hname; rewrite <- Hname;
     eexists; split; [reflexivity |]; split; [reflexivity |];
     split; [rewrite !elem_of_cons; tauto | discriminate] |]).
  by apply elem_of_nil in Hin.
Qed.

(** The consent and the third-party finding of the example. *)
Lemma data_security_category_names_witness :
  ∃ doc s',
    exportDataSecurityFindings example_host example_results 1%positive
      (store_with example_answers) = Ok (doc, s')
    ∧ (λ f, ds_category_name (dsf_data_security f)) <$> doc_findings doc
      = [Data (DStr "Consent Management"); Data (DStr "Third Party Sharing")]
    ∧ ∀ f, f ∈ doc_findings doc →
        ∃ c name,
          fi_types (dsf_finding_info f) = [DStr "Privacy Violation"; DStr c]
          ∧ ds_category_name (dsf_data_security f) = Data (DStr name)
          ∧ name ≠ "Privacy Violation"%string.
Proof.
  destruct (exportDataSecurityFindings example_host example_results 1%positive
              (store_with example_answers)) as [[doc s'] | e] eqn:E;
    [| vm_compute in E; discriminate E].
  exists doc, s'. split; [reflexivity |]. split.
  - vm_compute in E. injection E as <- <-. reflexivity.
  - intros f Hf.
    destruct (data_security_category_names example_host example_results
                1%positive (store_with example_answers) doc s' E f Hf)
      as (c & name & Htypes & Hname & _ & Hne).
    exists c, name. repeat split; assumption.
Defined.

(** X4: for a category given as text that does not name a property of
    [Object.prototype], [getKnowledgeBaseArticles] returns a list of exactly
    one non-empty text: the guide of the table for its six keys, and
    [tikun13-<category>-guide] for every other category. *)
Theorem getKnowledgeBaseArticles_singleton (c : string) :
  object_prototype_get c = None →
  ∃ url, getKnowledgeBaseArticles (DStr c) = Ok (Data (DArr [DStr url]))
         ∧ url ≠ ""%string
         ∧ (c ∉ ["dpo"; "registration"; "security"; "consent"; "access_rights";
                 "privacy_notice"]%string →
            url = "tikun13-" +:+ c +:+ "-guide").
Proof.
  intros Hp.
  assert (Hin : ∀ k : string,
    k ∈ ["dpo"; "registration"; "security"; "consent"; "access_rights";
         "privacy_notice"]%string
    ↔ k = "dpo"%string ∨ k = "registration"%string ∨ k = "security"%string
      ∨ k = "consent"%string ∨ k = "access_rights"%string
      ∨ k = "privacy_notice"%string).
  { intros k. rewrite !elem_of_cons, elem_of_nil. tauto. }
  destruct (String.eqb_spec c "dpo") as [-> | H1].
  { eexists. split; [reflexivity |]. split; [discriminate |].
    intros Hn. exfalso. apply Hn, Hin. tauto. }
  destruct (String.eqb_spec c "registration") as [-> | H2].
  { eexists. split; [reflexivity |]. split; [discriminate |].
    intros Hn. exfalso. apply Hn, Hin. tauto. }
  destruct (String.eqb_spec c "security") as [-> | H3].
  { eexists. split; [reflexivity |]. split; [discriminate |].
    intros Hn. exfalso. apply Hn, Hin. tauto. }
  destruct (String.eqb_spec c "consent") as [-> | H4].
  { eexists. split; [reflexivity |]. split; [discriminate |].
    intros Hn. exfalso. apply Hn, Hin. tauto. }
  destruct (String.eqb_spec c "access_rights") as [-> | H5].
  { eexists. split; [reflexivity |]. split; [discriminate |].
    intros Hn. exfalso. apply Hn, Hin. tauto. }
  destruct (String.eqb_spec c "privacy_notice") as [-> | H6].
  { eexists. split; [reflexivity |]. split; [discriminate |].
    intros Hn. exfalso. apply Hn, Hin. tauto. }
  exists ("tikun13-" +:+ c +:+ "-guide"). split; [| split; [discriminate | done]].
  unfold getKnowledgeBaseArticles, to_property_key.
  cbn [to_string mbind result_bind].
  rewrite obj_get_absent; [reflexivity | | done].
  cbn. rewrite !not_elem_of_cons, elem_of_nil. tauto.
Qed.

(** 'third_party' is a data category without a guide of its own. *)
Lemma getKnowledgeBaseArticles_singleton_witness :
  getKnowledgeBaseArticles (DStr "third_party")
  = Ok (Data (DArr [DStr "tikun13-third_party-guide"])).
Proof.
  destruct (getKnowledgeBaseArticles_singleton "third_party" eq_refl)
    as (url & -> & _ & Hurl).
  rewrite Hurl; [reflexivity |].
  rewrite !not_elem_of_cons, elem_of_nil. repeat split; try discriminate. tauto.
Defined.

(** X5: in every Compliance Finding the optional fields of the violation
    have their defaults: [compliance.control] is the law reference, or
    'General Requirement' when that is missing or empty; [impact_score] is
    the fine, or the number 0 when that is missing or 0; while
    [unmapped.fine_amount_ils] is the fine as given, [undefined] included.
    [unmapped.sensitive_data_types] is [answers.sensitive_data], or the empty
    list when that is missing. *)
Theorem compliance_finding_defaults (host : Host) (results : data) (answers : loc)
    (s : state) (m : obj) (doc : Document (ComplianceFinding loc)) (s' : state) :
  heap s !! answers = Some m →
  exportComplianceFindings host results answers s = Ok (doc, s') →
  ∀ k f, doc_findings doc !! k = Some f →
    ∃ v law_reference fine,
      violations_of_array results !! k = Some v
      ∧ get v "law_reference" = Ok law_reference
      ∧ get v "fine" = Ok fine
      ∧ compliance_control (cf_compliance f)
        = (if to_boolean law_reference then law_reference
           else DStr "General Requirement")
      ∧ cf_impact_score f = (if to_boolean fine then fine else DNum 0)
      ∧ cu_fine_amount_ils (cf_unmapped f) = fine
      ∧ cu_sensitive_data_types (cf_unmapped f)
        = (if to_boolean (field m "sensitive_data") then field m "sensitive_data"
           else DArr [])
      ∧ to_boolean (compliance_control (cf_compliance f)) = true
      ∧ to_boolean (cu_sensitive_data_types (cf_unmapped f)) = true.
Proof.
  intros Hm Hrun k f Hf.
  destruct (compliance_finding_origin _ _ _ _ _ _ _ _ Hrun Hf)
    as (v & s1 & s2 & Hv & Hs1 & _ & Hcreate).
  pose proof (lookup_weaken _ _ _ _ Hm Hs1) as Hm1.
  apply createComplianceFinding_fields in Hcreate
    as (m' & ? & law_reference & ? & ? & fine & ? & ? & Hm' & _ & Hlaw & _ & _
        & Hfine & _ & _ & _ & _ & _ & _ & _ & Hcontrol & _ & _ & _ & _ & Hscore
        & _ & _ & Hils & Hsd).
  assert (m' = m) as -> by congruence.
  exists v, law_reference, fine. unfold or_data in *.
  repeat split; try done.
  - rewrite Hcontrol. by destruct (to_boolean law_reference) eqn:E.
  - rewrite Hsd. by destruct (to_boolean (field m "sensitive_data")) eqn:E.
Qed.

(** The second example violation cites a law and has no fine; the first one
    has a fine and cites no law. *)
Lemma compliance_finding_defaults_witness :
  ∃ doc s',
    exportComplianceFindings example_host example_results 1%positive
      (store_with example_answers) = Ok (doc, s')
    ∧ (λ f, (compliance_control (cf_compliance f), cf_impact_score f,
             cu_fine_amount_ils (cf_unmapped f))) <$> doc_findings doc
      = [ (DStr "General Requirement", DNum 50000, DNum 50000);
          (DStr "17B", DNum 0, DUndefined);
          (DStr "General Requirement", DNum 0, DUndefined) ]
    ∧ ∀ k f, doc_findings doc !! k = Some f →
        to_boolean (compliance_control (cf_compliance f)) = true.
Proof.
  destruct (exportComplianceFindings example_host example_results 1%positive
              (store_with example_answers)) as [[doc s'] | e] eqn:E;
    [| vm_compute in E; discriminate E].
  exists doc, s'. split; [reflexivity |]. split.
  - vm_compute in E. injection E as <- <-. reflexivity.
  - intros k f Hf.
    destruct (compliance_finding_defaults example_host example_results
                1%positive (store_with example_answers) example_answers doc s'
                eq_refl E k f Hf)
      as (v & law & fine & _ & _ & _ & _ & _ & _ & _ & Hc & _).
    exact Hc.
Defined.

(** *** Identifiers *)

Lemma contains_app (c : Ascii.ascii) (s1 s2 : string) :
  contains c (s1 +:+ s2) = contains c s1 || contains c s2.
Proof.
  induction s1 as [| c' s1 IH]; [done |].
  simpl. by rewrite IH, orb_assoc.
Qed.

Lemma last_segment_app (s1 s2 : string) :
  contains "-" s2 = true → last_segment (s1 +:+ s2) = last_segment s2.
Proof.
  intros H2. induction s1 as [| c s1 IH]; [done |].
  simpl. by rewrite contains_app, H2, orb_true_r.
Qed.

Lemma last_segment_dash (d : string) :
  contains "-" d = false → last_segment ("-" +:+ d) = d.
Proof.
  intros Hd. change ("-" +:+ d) with (String "-" d).
  cbn [last_segment]. by rewrite Hd.
Qed.

Lemma contains_digit_char (c : Ascii.ascii) (x : N) :
  is_digit c = false → Ascii.eqb c (pretty_N_char x) = false.
Proof.
  unfold is_digit. cbn [existsb]. rewrite !orb_false_iff.
  intros (? & ? & ? & ? & ? & ? & ? & ? & ? & ? & _).
  unfold pretty_N_char. by repeat case_match.
Qed.

Lemma contains_pretty_N_go (c : Ascii.ascii) (x : N) (s : string) :
  is_digit c = false → contains c (pretty_N_go x s) = contains c s.
Proof.
  intros Hc. revert s. induction (N.lt_wf_0 x) as [x _ IH]; intros s.
  assert (x = 0 ∨ 0 < x)%N as [-> | Hx] by lia.
  - by rewrite pretty_N_go_0.
  - rewrite pretty_N_go_step by done. rewrite IH by (by apply N.div_lt).
    cbn [contains]. by rewrite contains_digit_char.
Qed.

Lemma contains_pretty_N (c : Ascii.ascii) (x : N) :
  is_digit c = false → contains c (pretty x) = false.
Proof.
  intros Hc. unfold pretty, pretty_N. case_decide.
  - cbn. rewrite orb_false_r.
    change "0"%char with (pretty_N_char 0). by apply contains_digit_char.
  - by rewrite contains_pretty_N_go.
Qed.

Lemma contains_pretty_nat (c : Ascii.ascii) (k : nat) :
  is_digit c = false → contains c (pretty k) = false.
Proof. apply contains_pretty_N. Qed.

Lemma contains_pretty_Z (c : Ascii.ascii) (t : Z) :
  is_digit c = false → Ascii.eqb c "-" = false → contains c (pretty t) = false.
Proof.
  intros Hc Hdash. destruct t as [| p | p]; unfold pretty, pretty_Z.
  - apply (contains_pretty_N c 0 Hc).
  - apply (contains_pretty_N c (N.pos p) Hc).
  - rewrite contains_app. cbn [contains]. rewrite Hdash.
    cbn [orb]. apply (contains_pretty_N c (N.pos p) Hc).
Qed.

(** An identifier [<prefix><timestamp>-<index>] ends in the index. *)
Lemma last_segment_uid (prefix : string) (t : Z) (k : nat) :
  last_segment (prefix +:+ pretty t +:+ "-" +:+ pretty k) = pretty k.
Proof.
  assert (Hd : contains "-" ("-" +:+ pretty k) = true) by done.
  rewrite (last_segment_app prefix)
    by (rewrite contains_app, Hd; apply orb_true_r).
  rewrite (last_segment_app (pretty t)) by exact Hd.
  apply last_segment_dash. by apply contains_pretty_nat.
Qed.

Lemma contains_uid (c : Ascii.ascii) (prefix : string) (t : Z) (k : nat) :
  is_digit c = false → Ascii.eqb c "-" = false →
  contains c (prefix +:+ pretty t +:+ "-" +:+ pretty k) = contains c prefix.
Proof.
  intros Hc Hdash. rewrite !contains_app.
  rewrite (contains_pretty_Z c t Hc Hdash), (contains_pretty_nat c k Hc).
  cbn [contains]. rewrite Hdash. by rewrite !orb_false_r.
Qed.

(** Identifiers that end in the position they are at are pairwise
    distinct. *)
Lemma NoDup_by_last_segment (l : list string) :
  (∀ k x, l !! k = Some x → last_segment x = pretty k) → NoDup l.
Proof.
  intros Hl. apply NoDup_alt. intros i j x Hi Hj.
  apply Hl in Hi, Hj. rewrite Hi in Hj. by apply (inj pretty) in Hj.
Qed.

(** What [exportRecommendations] returns, record by record. *)
Lemma exportRecommendations_lookup (host : Host) (recommendations : data)
    (s : state) (out : list Recommendation) (s' : state) :
  exportRecommendations host recommendations s = Ok (out, s') →
  ∃ rs, as_array recommendations = Ok rs
    ∧ length out = length rs
    ∧ ∀ k o, out !! k = Some o →
        ∃ r (now : Z) reference,
          rs !! k = Some r
          ∧ get r "priority" = Ok (rec_priority o)
          ∧ get r "category" = Ok (rec_category o)
          ∧ get r "action" = Ok (rec_action o)
          ∧ get r "description" = Ok (rec_description o)
          ∧ get r "timeline" = Ok (rec_timeline o)
          ∧ get r "reference" = Ok reference
          ∧ rec_reference o = or_data reference (DStr "Amendment 13 Requirements")
          ∧ rec_uid o = "rec-" +:+ pretty now +:+ "-" +:+ pretty k.
Proof.
  intros H. unfold exportRecommendations in H.
  apply bind_Ok in H as (rs & s1 & [Hrs ->]%lift_Ok & H).
  apply map_indexed_lookup in H as [Hlen Hk].
  exists rs. split; [done |]. split; [done |].
  intros k o Ho. destruct (Hk k o Ho) as (r & sa & sb & Hr & Hrun).
  cbn beta in Hrun. inv_run Hrun.
  do 3 eexists. cbn. repeat (split; [first [eassumption | reflexivity] |]).
  reflexivity.
Qed.

Lemma data_security_finding_at (host : Host) (results : data) (answers : loc)
    (s : state) (doc : Document DataSecurityFinding) (s' : state)
    (k : nat) (f : DataSecurityFinding) :
  exportDataSecurityFindings host results answers s = Ok (doc, s') →
  doc_findings doc !! k = Some f →
  ∃ v s1 s2,
    List.filter has_data_category (violations_of_array results) !! k = Some v
    ∧ heap s1 = heap s
    ∧ createDataSecurityFinding host v k results answers s1 = Ok (f, s2).
Proof.
  intros (violations & elems & Hget & Harr & _ & _ & _ & _ & Hlen & Hk)%exportDataSecurityFindings_inv Hf.
  destruct (lookup_lt_is_Some_2 (List.filter has_data_category elems) k) as [v Hv].
  { rewrite <- Hlen. by eapply lookup_lt_Some. }
  destruct (Hk k v Hv) as (f' & s1 & s2 & Hf' & Hs1 & Hrun).
  rewrite Hf in Hf'. injection Hf' as <-.
  exists v, s1, s2. unfold violations_of_array. rewrite Hget, Harr. done.
Qed.

(** X6: the identifiers of one combined report are pairwise distinct: the
    [uid]s of its compliance findings, of its data security findings and of
    its recommendations, taken together - whatever the clock reads, as each
    identifier ends in the position of its record and starts with the prefix
    of its kind. *)
Theorem report_uids_distinct (host : Host) (results : data) (answers : loc)
    (s : state) (r : CombinedReport loc) (s' : state) :
  exportCombinedReport host results answers s = Ok (r, s') →
  NoDup (report_uids r).
Proof.
  intros (m & label & violations & recommendations & sa & sb & _ & _ & _ & _
          & _ & _ & Hcf & Hdsf & Hrec & _)%exportCombinedReport_parts.
  assert (Hc : ∀ k x,
    ((λ f, fi_uid (cf_finding_info f)) <$> doc_findings (report_compliance_findings r)) !! k
      = Some x →
    ∃ t : Z, x = "tikun13-" +:+ pretty t +:+ "-" +:+ pretty k).
  { intros k x Hx. rewrite list_lookup_fmap in Hx.
    destruct (doc_findings (report_compliance_findings r) !! k) as [f |] eqn:Hf;
      [| discriminate].
    injection Hx as <-.
    destruct (compliance_finding_origin _ _ _ _ _ _ _ _ Hcf Hf)
      as (v & s1 & s2 & _ & _ & _ & Hrun).
    apply createComplianceFinding_inv in Hrun
      as (? & ? & _ & _ & _ & _ & _ & _ & Huid & _).
    eauto. }
  assert (Hd : ∀ k x,
    ((λ f, fi_uid (dsf_finding_info f)) <$> doc_findings (report_data_security_findings r)) !! k
      = Some x →
    ∃ t : Z, x = "tikun13-data-" +:+ pretty t +:+ "-" +:+ pretty k).
  { intros k x Hx. rewrite list_lookup_fmap in Hx.
    destruct (doc_findings (report_data_security_findings r) !! k) as [f |] eqn:Hf;
      [| discriminate].
    injection Hx as <-.
    destruct (data_security_finding_at _ _ _ _ _ _ _ _ Hdsf Hf)
      as (v & s1 & s2 & _ & _ & Hrun).
    apply createDataSecurityFinding_fields in Hrun
      as (? & ? & ? & ? & ? & _ & _ & _ & _ & _ & _ & _ & _ & _ & _ & _ & _ & _
          & Huid & _).
    eauto. }
  assert (Hr : ∀ k x, (rec_uid <$> report_recommendations r) !! k = Some x →
    ∃ t : Z, x = "rec-" +:+ pretty t +:+ "-" +:+ pretty k).
  { intros k x Hx. rewrite list_lookup_fmap in Hx.
    destruct (report_recommendations r !! k) as [o |] eqn:Ho; [| discriminate].
    injection Hx as <-.
    apply exportRecommendations_lookup in Hrec as (rs & _ & _ & Hk).
    destruct (Hk k o Ho) as (? & now & ? & _ & _ & _ & _ & _ & _ & _ & _ & Huid).
    eauto. }
  unfold report_uids. apply NoDup_app. split; [| split; [| apply NoDup_app; split; [| split]]].
  - apply NoDup_by_last_segment. intros k x [t ->]%Hc. apply last_segment_uid.
  - intros x (k & [t ->]%Hc)%list_elem_of_lookup Hin.
    apply elem_of_app in Hin as [(j & [u Hu]%Hd)%list_elem_of_lookup
                                | (j & [u Hu]%Hr)%list_elem_of_lookup].
    + apply (f_equal (contains "d")) in Hu. by rewrite !contains_uid in Hu.
    + apply (f_equal (contains "r")) in Hu. by rewrite !contains_uid in Hu.
  - apply NoDup_by_last_segment. intros k x [t ->]%Hd. apply last_segment_uid.
  - intros x (k & [t ->]%Hd)%list_elem_of_lookup (j & [u Hu]%Hr)%list_elem_of_lookup.
    apply (f_equal (contains "r")) in Hu. by rewrite !contains_uid in Hu.
  - apply NoDup_by_last_segment. intros k x [t ->]%Hr. apply last_segment_uid.
Qed.

(** Under the frozen clock, where all timestamps are equal: six
    identifiers, all different. *)
Lemma report_uids_distinct_witness :
  ∃ r s',
    exportCombinedReport frozen_host example_results 1%positive
      (store_with example_answers) = Ok (r, s')
    ∧ length (report_uids r) = 6%nat
    ∧ NoDup (report_uids r).
Proof.
  destruct (exportCombinedReport frozen_host example_results 1%positive
              (store_with example_answers)) as [[r s'] | e] eqn:E;
    [| vm_compute in E; discriminate E].
  exists r, s'. split; [reflexivity |]. split.
  - vm_compute in E. injection E as <- <-. reflexivity.
  - exact (report_uids_distinct frozen_host example_results 1%positive
             (store_with example_answers) r s' E).
Defined.

(** *** What the combined report needs from its input *)

(** X7: [exportCombinedReport] throws a [TypeError] whenever
    [results.violations] or [results.recommendations] is not an array -
    absent, [null], a text, an object - also when there is no violation to
    report. *)
Theorem exportCombinedReport_needs_arrays (host : Host) (results : data)
    (answers : loc) (s : state) :
  (∀ vs, get results "violations" ≠ Ok (DArr vs))
  ∨ (∀ rs, get results "recommendations" ≠ Ok (DArr rs)) →
  exportCombinedReport host results answers s = Throw TypeError.
Proof.
  intros Hno.
  destruct (exportCombinedReport host results answers s) as [[r s'] | []] eqn:E;
    [exfalso | reflexivity].
  apply exportCombinedReport_parts in E
    as (m & label & violations & recommendations & sa & sb & _ & _ & Hv & Hr
        & _ & _ & Hcf & _ & Hrec & _).
  apply exportComplianceFindings_inv in Hcf
    as (violations' & elems & Hv' & Harr & _).
  apply exportRecommendations_lookup in Hrec as (rs & Hrs & _).
  rewrite Hv in Hv'. apply Ok_inj in Hv' as <-.
  destruct violations; try discriminate Harr.
  destruct recommendations; try discriminate Hrs.
  destruct Hno as [Hno | Hno]; [by eapply Hno | by eapply Hno].
Qed.

(** No violations and no [recommendations] field: the report is not
    built. *)
Lemma exportCombinedReport_needs_arrays_witness :
  exportCombinedReport example_host
    (DObj (object [("score", DNum 100); ("violations", DArr [])]%string))
    1%positive (store_with example_answers)
  = Throw TypeError.
Proof.
  apply exportCombinedReport_needs_arrays.
  right. intros rs. vm_compute. discriminate.
Defined.

(** *** The summary of a combined report *)

Lemma filter_disjoint_length {A} (p q : A → bool) (l : list A) :
  (∀ x, p x = true → q x = false) →
  (length (List.filter p l) + length (List.filter q l) ≤ length l)%nat.
Proof.
  intros Hpq. induction l as [| x l IH]; [done |]. cbn [List.filter].
  destruct (p x) eqn:Hp.
  - rewrite (Hpq x Hp). cbn [length]. lia.
  - destruct (q x); cbn [length]; lia.
Qed.

Lemma filter_length_le {A} (p : A → bool) (l : list A) :
  (length (List.filter p l) ≤ length l)%nat.
Proof.
  induction l as [| x l IH]; [done |]. cbn [List.filter].
  destruct (p x); cbn [length]; lia.
Qed.

Lemma filter_length_Forall2 {A B} (R : A → B → Prop) (p : A → bool) (q : B → bool)
    (l1 : list A) (l2 : list B) :
  Forall2 R l1 l2 →
  (∀ x y, R x y → p x = true → q y = true) →
  (length (List.filter p l1) ≤ length (List.filter q l2))%nat.
Proof.
  intros HR Hpq. induction HR as [| x y l1 l2 Hxy _ IH]; [done |].
  cbn [List.filter]. destruct (p x) eqn:Hp.
  - rewrite (Hpq x y Hxy Hp). cbn [length]. lia.
  - destruct (q y); cbn [length]; lia.
Qed.

Lemma count_severity_spec (results : data) (sev : string) (n : Z) :
  count_severity results sev = Ok n →
  n = Z.of_nat (length (List.filter (has_severity sev) (violations_of_array results))).
Proof.
  unfold count_severity, violations_of_array.
  destruct (get results "violations") as [violations |]; [| discriminate].
  cbn [mbind result_bind].
  destruct (as_array violations) as [elems |]; [| discriminate].
  cbn [mbind result_bind].
  destruct (filter_result _ elems) as [matching |] eqn:Hf; [| discriminate].
  cbn [mbind result_bind]. intros <-%Ok_inj.
  apply (filter_result_spec _ (has_severity sev)) in Hf; [by subst |].
  intros x b Hb. unfold has_severity.
  destruct (get x "severity") as [severity |]; [| discriminate].
  cbn [mbind result_bind] in Hb. by apply Ok_inj in Hb.
Qed.

(** The compliance findings stand one to one for the violations, each with
    the [severity_id] of its violation's severity. *)
Lemma compliance_findings_severities (host : Host) (results : data) (answers : loc)
    (s : state) (doc : Document (ComplianceFinding loc)) (s' : state) :
  exportComplianceFindings host results answers s = Ok (doc, s') →
  Forall2
    (λ v f, ∃ severity, get v "severity" = Ok severity
                        ∧ mapSeverity severity = Ok (cf_severity_id f))
    (violations_of_array results) (doc_findings doc).
Proof.
  intros Hcf.
  pose proof Hcf as (violations' & elems & Hv' & Harr & _ & _ & _ & Hlen & _)%exportComplianceFindings_inv.
  apply Forall2_same_length_lookup_2.
  { unfold violations_of_array. rewrite Hv', Harr. by rewrite Hlen. }
  intros k v f Hvk Hf.
  destruct (compliance_finding_origin _ _ _ _ _ _ _ _ Hcf Hf)
    as (v' & s1 & s2 & Hv'k & _ & _ & Hrun).
  rewrite Hvk in Hv'k. injection Hv'k as <-.
  apply createComplianceFinding_fields in Hrun
    as (? & severity & ? & ? & ? & ? & ? & ? & _ & Hsev & _ & _ & _ & _ & _ & _
        & _ & _ & Hid & _).
  eauto.
Qed.

(** X8: the summary of a combined report agrees with its findings:
    [total_violations] is the number of compliance findings; the data
    security findings are at most as many; [critical_violations] and
    [high_violations] count different violations, so their sum is at most
    the total, and each is at most the number of compliance findings with
    [severity_id] 5, respectively 4. *)
Theorem summary_counts (host : Host) (results : data) (answers : loc)
    (s : state) (r : CombinedReport loc) (s' : state) :
  exportCombinedReport host results answers s = Ok (r, s') →
  let findings := doc_findings (report_compliance_findings r) in
  let summary := report_summary r in
  summary_total_violations summary = DNum (Z.of_nat (length findings))
  ∧ (length (doc_findings (report_data_security_findings r)) ≤ length findings)%nat
  ∧ 0 ≤ summary_critical_violations summary
      ≤ Z.of_nat (length (List.filter (has_severity_id 5) findings))
  ∧ 0 ≤ summary_high_violations summary
      ≤ Z.of_nat (length (List.filter (has_severity_id 4) findings))
  ∧ summary_critical_violations summary + summary_high_violations summary
      ≤ Z.of_nat (length findings).
Proof.
  intros (m & label & violations & recommendations & sa & sb & _ & _ & Hv & _
          & _ & _ & Hcf & Hdsf & _ & _ & Htotal & Hcrit & Hhigh & _)%exportCombinedReport_parts.
  cbv zeta.
  apply count_severity_spec in Hcrit, Hhigh.
  pose proof (compliance_findings_severities _ _ _ _ _ _ Hcf) as Hfs.
  assert (Hsame : ∀ sev n,
    mapSeverity (DStr sev) = Ok (Data (DNum n)) →
    (length (List.filter (has_severity sev) (violations_of_array results))
     ≤ length (List.filter (has_severity_id n)
                 (doc_findings (report_compliance_findings r))))%nat).
  { intros sev n Hn. eapply filter_length_Forall2; [exact Hfs |].
    intros v f (severity & Hsev & Hid). unfold has_severity, has_severity_id.
    rewrite Hsev. intros Heq%strict_eq_str. subst severity.
    rewrite Hn in Hid. apply Ok_inj in Hid as <-. apply Z.eqb_refl. }
  pose proof (Forall2_length _ _ _ Hfs) as Hlen.
  pose proof (Hsame "critical"%string 5 eq_refl) as Hc5.
  pose proof (Hsame "high"%string 4 eq_refl) as Hh4.
  assert (Hdisj : ∀ v, has_severity "critical" v = true → has_severity "high" v = false).
  { intros v. unfold has_severity. destruct (get v "severity") as [severity |]; [| done].
    by intros ->%strict_eq_str. }
  apply (filter_disjoint_length _ _ (violations_of_array results)) in Hdisj.
  apply exportDataSecurityFindings_inv in Hdsf
    as (violations' & elems & Hv' & Harr & _ & _ & _ & _ & Hdlen & _).
  rewrite Hv in Hv'. apply Ok_inj in Hv' as <-.
  destruct violations; try discriminate Harr. apply Ok_inj in Harr as ->.
  assert (Hvs : violations_of_array results = elems).
  { unfold violations_of_array. by rewrite Hv. }
  rewrite Hvs in *.
  split; [| split].
  - cbn in Htotal. apply Ok_inj in Htotal. by rewrite <- Htotal, Hlen.
  - rewrite Hdlen, <- Hlen. apply filter_length_le.
  - lia.
Qed.

(** One critical and one high violation among three; two of the three are
    of a data category. *)
Lemma summary_counts_witness :
  ∃ r s',
    exportCombinedReport example_host example_results 1%positive
      (store_with example_answers) = Ok (r, s')
    ∧ summary_total_violations (report_summary r) = DNum 3
    ∧ summary_critical_violations (report_summary r) = 1
    ∧ summary_high_violations (report_summary r) = 1
    ∧ length (doc_findings (report_data_security_findings r)) = 2%nat
    ∧ summary_total_violations (report_summary r)
      = DNum (Z.of_nat (length (doc_findings (report_compliance_findings r)))).
Proof.
  destruct (exportCombinedReport example_host example_results 1%positive
              (store_with example_answers)) as [[r s'] | e] eqn:E;
    [| vm_compute in E; discriminate E].
  pose proof (summary_counts example_host example_results 1%positive
                (store_with example_answers) r s' E) as (Htotal & _).
  exists r, s'. split; [reflexivity |].
  split; [| split; [| split; [| split; [| exact Htotal]]]];
    vm_compute in E; injection E as <- <-; reflexivity.
Defined.

(** *** The identifying fields of [answers] and the report *)

Section Agree.
Context (host : Host) (a : loc) (m1 m2 : obj).
Hypothesis Hsame : ∀ k : string,
  k ≠ "organization_name"%string → k ≠ "contact_details"%string → m1 !! k = m2 !! k.

Lemma agree_ret {A B} (e : A → B) (x1 x2 : A) :
  e x1 = e x2 → agree a m1 m2 e (mret x1) (mret x2).
Proof. intros He s1 s2 H1 H2 Ht. cbn. done. Qed.

Lemma agree_lift {A} (r : result A) : agree a m1 m2 id (lift r) (lift r).
Proof. intros s1 s2 H1 H2 Ht. unfold lift. by destruct r. Qed.

Lemma agree_get_field (k : string) :
  k ≠ "organization_name"%string → k ≠ "contact_details"%string →
  agree a m1 m2 id (get_field a k) (get_field a k).
Proof.
  intros Hk1 Hk2 s1 s2 H1 H2 Ht.
  rewrite (get_field_run _ _ _ _ H1), (get_field_run _ _ _ _ H2).
  unfold field. by rewrite (Hsame k Hk1 Hk2).
Qed.

Lemma agree_Date_now : agree a m1 m2 id (Date_now host) (Date_now host).
Proof. intros s1 s2 H1 H2 Ht. unfold Date_now. cbn. by rewrite Ht. Qed.

Lemma agree_bind {A B C D} (e1 : A → C) (e : B → D) (c1 c2 : M A) (f1 f2 : A → M B) :
  agree a m1 m2 e1 c1 c2 →
  (∀ x1 x2, e1 x1 = e1 x2 → agree a m1 m2 e (f1 x1) (f2 x2)) →
  agree a m1 m2 e (c1 ≫= f1) (c2 ≫= f2).
Proof.
  intros Hc Hf s1 s2 H1 H2 Ht. specialize (Hc s1 s2 H1 H2 Ht).
  unfold mbind, M_bind.
  destruct (c1 s1) as [[x1 s1'] | e1'], (c2 s2) as [[x2 s2'] | e2']; try done.
  destruct Hc as (He & H1' & H2' & Ht'). by apply Hf.
Qed.

Lemma agree_bind_eq {A B D} (e : B → D) (c : M A) (f1 f2 : A → M B) :
  agree a m1 m2 id c c →
  (∀ x, agree a m1 m2 e (f1 x) (f2 x)) →
  agree a m1 m2 e (c ≫= f1) (c ≫= f2).
Proof.
  intros Hc Hf. eapply agree_bind; [exact Hc |].
  intros x1 x2 Hx. cbv [id] in Hx. subst x2. apply Hf.
Qed.

Lemma agree_if {A B} (e : A → B) (b : bool) (c1 c2 d1 d2 : M A) :
  agree a m1 m2 e c1 d1 → agree a m1 m2 e c2 d2 →
  agree a m1 m2 e (if b then c1 else c2) (if b then d1 else d2).
Proof. by destruct b. Qed.

Lemma agree_map_indexed {A B C} (e : B → C) (f : A → nat → M B) (l : list A) (i : nat) :
  (∀ x j, agree a m1 m2 e (f x j) (f x j)) →
  agree a m1 m2 (fmap e) (map_indexed f i l) (map_indexed f i l).
Proof.
  intros Hf. revert i. induction l as [| x l IH]; intros i; cbn [map_indexed].
  - by apply agree_ret.
  - eapply agree_bind; [apply Hf |]. intros y1 y2 Hy.
    eapply agree_bind; [apply IH |]. intros ys1 ys2 Hys.
    apply agree_ret. cbn. by rewrite Hy, Hys.
Qed.

Lemma agree_map_indexed_id {A B} (f : A → nat → M B) (l : list A) (i : nat) :
  (∀ x j, agree a m1 m2 id (f x j) (f x j)) →
  agree a m1 m2 id (map_indexed f i l) (map_indexed f i l).
Proof.
  intros Hf s1 s2 H1 H2 Ht.
  pose proof (agree_map_indexed id f l i Hf s1 s2 H1 H2 Ht) as Hmap.
  destruct (map_indexed f i l s1) as [[y1 s1'] |],
    (map_indexed f i l s2) as [[y2 s2'] |]; try done.
  by rewrite !list_fmap_id in Hmap.
Qed.

Lemma agree_sanitizeAnswers :
  agree a m1 m2 erase (sanitizeAnswers a) (sanitizeAnswers a).
Proof.
  intros s1 s2 H1 H2 Ht.
  rewrite (sanitizeAnswers_run _ _ _ H1), (sanitizeAnswers_run _ _ _ H2).
  cbn [heap ticks]. split; [done |].
  split; [| split; [| done]]; (rewrite lookup_insert_ne; [done |]); intros Heq.
  - pose proof (is_fresh (dom (heap s1))) as Hfresh.
    rewrite Heq in Hfresh. by apply Hfresh, elem_of_dom.
  - pose proof (is_fresh (dom (heap s2))) as Hfresh.
    rewrite Heq in Hfresh. by apply Hfresh, elem_of_dom.
Qed.

End Agree.

(** One rule per construct; a bind is entered only when its first
    computation is settled by the rules. *)
Ltac agree_steps :=
  repeat first
    [ progress cbv zeta
    | apply agree_lift
    | apply agree_get_field; [assumption | discriminate | discriminate]
    | apply agree_Date_now
    | assumption
    | apply agree_ret; reflexivity
    | apply agree_if
    | apply agree_map_indexed_id; intros ? ?
    | match goal with H : ∀ _, _ |- _ => apply H end
    | apply agree_bind_eq; [solve [agree_steps] | intros ?] ].

Section AgreeExporter.
Context (host : Host) (a : loc) (m1 m2 : obj).
Hypothesis Hsame : ∀ k : string,
  k ≠ "organization_name"%string → k ≠ "contact_details"%string → m1 !! k = m2 !! k.

Lemma agree_sensitive_data_nonempty :
  agree a m1 m2 id (sensitive_data_nonempty host a) (sensitive_data_nonempty host a).
Proof. unfold sensitive_data_nonempty. agree_steps. Qed.

Lemma agree_requiresDPO :
  agree a m1 m2 id (requiresDPO host a) (requiresDPO host a).
Proof.
  pose proof agree_sensitive_data_nonempty.
  unfold requiresDPO. agree_steps.
Qed.

Lemma agree_getAffectedResources (violation : data) :
  agree a m1 m2 id (getAffectedResources violation a) (getAffectedResources violation a).
Proof. unfold getAffectedResources. agree_steps. Qed.

Lemma agree_getDataViolationDescription (violation : data) :
  agree a m1 m2 id (getDataViolationDescription host violation a)
    (getDataViolationDescription host violation a).
Proof.
  pose proof agree_sensitive_data_nonempty.
  unfold getDataViolationDescription. agree_steps.
Qed.

Lemma agree_createDataSecurityFinding (violation : data) (index : nat) (results : data) :
  agree a m1 m2 id (createDataSecurityFinding host violation index results a)
    (createDataSecurityFinding host violation index results a).
Proof.
  pose proof (agree_getDataViolationDescription violation).
  pose proof (agree_getAffectedResources violation).
  unfold createDataSecurityFinding. agree_steps.
Qed.

Lemma agree_exportDataSecurityFindings (results : data) :
  agree a m1 m2 id (exportDataSecurityFindings host results a)
    (exportDataSecurityFindings host results a).
Proof.
  pose proof agree_createDataSecurityFinding.
  unfold exportDataSecurityFindings. agree_steps.
Qed.

Lemma agree_exportRecommendations (recommendations : data) :
  agree a m1 m2 id (exportRecommendations host recommendations)
    (exportRecommendations host recommendations).
Proof. unfold exportRecommendations. agree_steps. Qed.

Lemma agree_createComplianceFinding (violation : data) (index : nat) (results : data) :
  agree a m1 m2 (cf_map erase)
    (createComplianceFinding host violation index results a)
    (createComplianceFinding host violation index results a).
Proof.
  unfold createComplianceFinding. agree_steps.
  eapply agree_bind; [apply agree_sanitizeAnswers |].
  intros l1 l2 _. by apply agree_ret.
Qed.

Lemma agree_exportComplianceFindings (results : data) :
  agree a m1 m2 (doc_map (cf_map erase))
    (exportComplianceFindings host results a)
    (exportComplianceFindings host results a).
Proof.
  unfold exportComplianceFindings. agree_steps.
  eapply agree_bind.
  - apply agree_map_indexed. intros v j. apply agree_createComplianceFinding.
  - intros fs1 fs2 Hfs. apply agree_ret. unfold doc_map. cbn. by rewrite Hfs.
Qed.

Lemma agree_exportCombinedReport (results : data) :
  agree a m1 m2 (report_map erase)
    (exportCombinedReport host results a)
    (exportCombinedReport host results a).
Proof.
  pose proof agree_requiresDPO.
  pose proof agree_sensitive_data_nonempty.
  unfold exportCombinedReport. agree_steps.
  eapply agree_bind; [apply agree_exportComplianceFindings |].
  intros d1 d2 Hd.
  apply agree_bind_eq; [apply agree_exportDataSecurityFindings | intros ?].
  apply agree_bind_eq; [apply agree_lift | intros ?].
  apply agree_bind_eq; [apply agree_exportRecommendations | intros ?].
  apply agree_bind_eq; [apply agree_lift | intros ?].
  apply agree_ret. unfold report_map. cbn. by rewrite Hd.
Qed.

End AgreeExporter.

Lemma sanitized_agree (m1 m2 : obj) :
  (∀ k : string, k ≠ "organization_name"%string → k ≠ "contact_details"%string →
                 m1 !! k = m2 !! k) →
  sanitized m1 = sanitized m2.
Proof.
  intros Hsame. apply map_eq. intros k. rewrite !sanitized_lookup.
  case_decide as Hk; [done |]. apply Hsame; tauto.
Qed.

(** X9: the report does not depend on [organization_name] and
    [contact_details].  Two calls of [exportCombinedReport] on the same
    [results], at the same reading of the clock, with two [answers] that
    differ in these two fields at most, end alike: both throw, or both
    return, and the two reports are equal in every field, the sanitised
    copies included. *)
Theorem identifying_fields_not_exported (host : Host) (results : data)
    (answers : loc) (m1 m2 : obj) (s1 s2 : state) :
  (∀ k : string, k ≠ "organization_name"%string → k ≠ "contact_details"%string →
                 m1 !! k = m2 !! k) →
  heap s1 !! answers = Some m1 →
  heap s2 !! answers = Some m2 →
  ticks s1 = ticks s2 →
  observed (exportCombinedReport host results answers s1)
  = observed (exportCombinedReport host results answers s2).
Proof.
  intros Hsame H1 H2 Ht.
  pose proof (agree_exportCombinedReport host answers m1 m2 Hsame results
                s1 s2 H1 H2 Ht) as Hboth.
  destruct (exportCombinedReport host results answers s1) as [[r1 s1'] | []] eqn:E1,
    (exportCombinedReport host results answers s2) as [[r2 s2'] | []] eqn:E2;
    try done.
  destruct Hboth as (Herased & _).
  destruct (exportCombinedReport_store _ _ _ _ _ _ _ H1 E1) as [_ Hcopies1].
  destruct (exportCombinedReport_store _ _ _ _ _ _ _ H2 E2) as [_ Hcopies2].
  unfold observed. cbn. f_equal.
  rewrite (read_back_erased (heap s1') (sanitized m1) r1 Hcopies1),
    (read_back_erased (heap s2') (sanitized m2) r2 Hcopies2).
  by rewrite Herased, (sanitized_agree m1 m2 Hsame).
Qed.

(** The example answers, and the same answers of an organisation with
    another name and no contact details. *)
Lemma identifying_fields_not_exported_witness :
  observed (exportCombinedReport example_host example_results 1%positive
              (store_with example_answers))
  = observed (exportCombinedReport example_host example_results 1%positive
                (store_with (delete "contact_details"%string
                               (<["organization_name"%string := DStr "Globex"]>
                                  example_answers)))).
Proof.
  apply (identifying_fields_not_exported example_host example_results 1%positive
           example_answers
           (delete "contact_details"%string
              (<["organization_name"%string := DStr "Globex"]> example_answers))).
  - intros k Hk1 Hk2. by rewrite lookup_delete_ne, lookup_insert_ne.
  - reflexivity.
  - reflexivity.
  - reflexivity.
Defined.

(** *** Invariants of a run over a list *)

(** An invariant [P] of the results so far and the current state is kept by
    a run of [map_indexed] when each step keeps it. *)
Lemma map_indexed_invariant {A B} (f : A → nat → M B) (P : list B → state → Prop)
    (l : list A) (i : nat) (s : state) (ys : list B) (s' : state) :
  (∀ k x y zs s1 s2, l !! k = Some x → length zs = k → P zs s1 →
     f x (i + k)%nat s1 = Ok (y, s2) → P (zs ++ [y]) s2) →
  P [] s →
  map_indexed f i l s = Ok (ys, s') →
  P ys s'.
Proof.
  revert i s ys P. induction l as [| x l IH]; intros i s ys P Hstep H0 H.
  - by apply ret_Ok in H as [-> ->].
  - cbn [map_indexed] in H.
    apply bind_Ok in H as (y & s1 & Hy & H).
    apply bind_Ok in H as (ys' & s2 & Hys & H).
    apply ret_Ok in H as [-> ->].
    apply (IH (S i) s1 ys' (λ zs st, P (y :: zs) st)); [| | done].
    + intros k x' y' zs sa sb Hx' Hlen HP Hrun.
      apply (Hstep (S k) x' y' (y :: zs) sa sb); [done | by cbn; rewrite Hlen | done |].
      by replace (i + S k)%nat with (S i + k)%nat by lia.
    + apply (Hstep 0%nat x y [] s s1); [done | done | done |].
      by rewrite Nat.add_0_r.
Qed.

(** *** One sanitised copy per finding *)

(** X10: every compliance finding has a sanitised copy of its own - no two
    findings of a document refer to the same object - and the export
    creates no other object: the objects of the store after the call are
    those it held before and these copies. *)
Theorem sanitized_copies_separate (host : Host) (results : data) (answers : loc)
    (s : state) (m : obj) (doc : Document (ComplianceFinding loc)) (s' : state) :
  heap s !! answers = Some m →
  exportComplianceFindings host results answers s = Ok (doc, s') →
  NoDup (assessment_answers <$> doc_findings doc)
  ∧ dom (heap s')
    = dom (heap s) ∪ list_to_set (assessment_answers <$> doc_findings doc).
Proof.
  intros Hm H. unfold exportComplianceFindings in H. inv_run H.
  cbn [doc_findings].
  match goal with
  | Hmap : map_indexed ?f _ ?l ?s0 = Ok (?ys, ?s1) |- _ =>
      pose proof (map_indexed_invariant f
        (λ zs st, heap st !! answers = Some m
                  ∧ NoDup (assessment_answers <$> zs)
                  ∧ dom (heap st)
                    = dom (heap s) ∪ list_to_set (assessment_answers <$> zs))
        l 0%nat s0 ys s1) as Hinv;
      apply Hinv in Hmap; clear Hinv
  end.
  - tauto.
  - intros k x y zs s1 s2 _ _ (Hm1 & Hnodup & Hdom) Hrun.
    apply createComplianceFinding_inv in Hrun
      as (m' & c & _ & Hfresh & Hheap & _).
    rewrite Hheap, fmap_app, list_to_set_app_L, dom_insert_L, Hdom.
    cbn [fmap list_fmap list_to_set].
    split; [| split].
    + rewrite lookup_insert_ne; [done |]. intros Heq. congruence.
    + apply NoDup_app. split; [done |]. split; [| apply NoDup_singleton].
      intros l Hl ->%list_elem_of_singleton.
      apply not_elem_of_dom in Hfresh. apply Hfresh. rewrite Hdom.
      apply elem_of_union_r. by apply elem_of_list_to_set.
    + set_solver.
  - cbn. split; [done |]. split; [apply NoDup_nil_2 | set_solver].
Qed.

(** Three findings, three copies, and the store holds [answers] and the
    copies. *)
Lemma sanitized_copies_separate_witness :
  ∃ doc s',
    exportComplianceFindings example_host example_results 1%positive
      (store_with example_answers) = Ok (doc, s')
    ∧ length (doc_findings doc) = 3%nat
    ∧ NoDup (assessment_answers <$> doc_findings doc)
    ∧ dom (heap s')
      = {[ 1%positive ]} ∪ list_to_set (assessment_answers <$> doc_findings doc).
Proof.
  destruct (exportComplianceFindings example_host example_results 1%positive
              (store_with example_answers)) as [[doc s'] | e] eqn:E;
    [| vm_compute in E; discriminate E].
  destruct (sanitized_copies_separate example_host example_results 1%positive
              (store_with example_answers) example_answers doc s' eq_refl E)
    as [Hnodup Hdom].
  exists doc, s'. split; [reflexivity |].
  split; [vm_compute in E; injection E as <- <-; reflexivity |].
  split; [exact Hnodup |].
  rewrite Hdom. reflexivity.
Defined.

(** *** The clock *)

Lemma exportComplianceFindings_clock (host : Host) (results : data) (answers : loc)
    (s : state) (doc : Document (ComplianceFinding loc)) (s' : state) :
  exportComplianceFindings host results answers s = Ok (doc, s') →
  ticks s' = (ticks s + length (doc_findings doc))%nat
  ∧ ∀ k f, doc_findings doc !! k = Some f →
      cf_time f = date_now host (ticks s + k).
Proof.
  intros H. unfold exportComplianceFindings in H. inv_run H.
  cbn [doc_findings].
  match goal with
  | Hmap : map_indexed ?f _ ?l ?s0 = Ok (?ys, ?s1) |- _ =>
      pose proof (map_indexed_invariant f
        (λ zs st, ticks st = (ticks s + length zs)%nat
                  ∧ ∀ k y, zs !! k = Some y → cf_time y = date_now host (ticks s + k))
        l 0%nat s0 ys s1) as Hinv;
      apply Hinv in Hmap; clear Hinv
  end.
  - done.
  - intros k x y zs s1 s2 _ _ (Ht & Hk) Hrun.
    apply createComplianceFinding_fields in Hrun
      as (? & ? & ? & ? & ? & ? & ? & ? & _ & _ & _ & _ & _ & _ & _ & _
          & Htime & Hticks & _).
    split; [rewrite length_app; cbn; lia |].
    intros j f Hf. apply lookup_app_Some in Hf as [Hf | [Hj Hf]]; [by apply Hk |].
    apply list_lookup_singleton_Some in Hf as [Hj0 <-].
    rewrite Htime, Ht. f_equal. lia.
  - cbn. split; [lia | intros k f [=]].
Qed.

Lemma exportDataSecurityFindings_clock (host : Host) (results : data) (answers : loc)
    (s : state) (doc : Document DataSecurityFinding) (s' : state) :
  exportDataSecurityFindings host results answers s = Ok (doc, s') →
  ticks s' = (ticks s + length (doc_findings doc))%nat
  ∧ ∀ k f, doc_findings doc !! k = Some f →
      dsf_time f = date_now host (ticks s + k).
Proof.
  intros H. unfold exportDataSecurityFindings in H. inv_run H.
  match type of H with
  | (if ?b then _ else _) _ = _ => destruct b
  end.
  { apply ret_Ok in H as [-> ->]. cbn. split; [lia | intros k f [=]]. }
  inv_run H. cbn [doc_findings].
  match goal with
  | Hmap : map_indexed ?f _ ?l ?s0 = Ok (?ys, ?s1) |- _ =>
      pose proof (map_indexed_invariant f
        (λ zs st, ticks st = (ticks s + length zs)%nat
                  ∧ ∀ k y, zs !! k = Some y → dsf_time y = date_now host (ticks s + k))
        l 0%nat s0 ys s1) as Hinv;
      apply Hinv in Hmap; clear Hinv
  end.
  - done.
  - intros k x y zs s1 s2 _ _ (Ht & Hk) Hrun.
    apply createDataSecurityFinding_fields in Hrun
      as (? & ? & ? & ? & ? & _ & _ & _ & _ & _ & Htime & -> & _).
    cbn [ticks].
    split; [rewrite length_app; cbn; lia |].
    intros j f Hf. apply lookup_app_Some in Hf as [Hf | [Hj Hf]]; [by apply Hk |].
    apply list_lookup_singleton_Some in Hf as [Hj0 <-].
    rewrite Htime, Ht. f_equal. lia.
  - cbn. split; [lia | intros k f [=]].
Qed.

Lemma exportRecommendations_clock (host : Host) (recommendations : data)
    (s : state) (out : list Recommendation) (s' : state) :
  exportRecommendations host recommendations s = Ok (out, s') →
  ticks s' = (ticks s + length out)%nat
  ∧ ∀ k o, out !! k = Some o →
      rec_uid o = "rec-" +:+ pretty (date_now host (ticks s + k)) +:+ "-" +:+ pretty k.
Proof.
  intros H. unfold exportRecommendations in H.
  apply bind_Ok in H as (rs & s1 & [Hrs ->]%lift_Ok & H).
  match type of H with
  | map_indexed ?f _ ?l ?s0 = Ok (?ys, ?s1) =>
      pose proof (map_indexed_invariant f
        (λ zs st, ticks st = (ticks s + length zs)%nat
                  ∧ ∀ k o, zs !! k = Some o →
                      rec_uid o = "rec-" +:+ pretty (date_now host (ticks s + k))
                                  +:+ "-" +:+ pretty k)
        l 0%nat s0 ys s1) as Hinv;
      apply Hinv in H; clear Hinv
  end.
  - done.
  - intros k x y zs sa sb _ Hlen (Ht & Hk) Hrun.
    cbn beta in Hrun. inv_run Hrun. cbn [ticks rec_uid].
    split; [rewrite length_app; cbn; lia |].
    intros j o Ho. apply lookup_app_Some in Ho as [Ho | [Hj Ho]]; [by apply Hk |].
    apply list_lookup_singleton_Some in Ho as [Hj0 <-]. cbn [rec_uid].
    rewrite Ht. replace (ticks s + length zs)%nat with (ticks s + j)%nat by lia.
    replace (0 + k)%nat with j by lia. reflexivity.
  - cbn. split; [lia | intros k o [=]].
Qed.

(** X11: a combined report reads the clock once when it starts and once for
    each record, in the order of the report: the [k]-th compliance finding
    is stamped with reading [1 + k] after the start, the [k]-th data
    security finding with reading [1 + n + k] and the identifier of the
    [k]-th recommendation with reading [1 + n + d + k], for [n] compliance
    and [d] data security findings; no other reading is taken. *)
Theorem one_clock_reading_per_record (host : Host) (results : data) (answers : loc)
    (s : state) (r : CombinedReport loc) (s' : state) :
  exportCombinedReport host results answers s = Ok (r, s') →
  let n := length (doc_findings (report_compliance_findings r)) in
  let d := length (doc_findings (report_data_security_findings r)) in
  rm_generated_at (report_metadata r)
  = date_toISOString host (date_now host (ticks s))
  ∧ (∀ k f, doc_findings (report_compliance_findings r) !! k = Some f →
       cf_time f = date_now host (ticks s + 1 + k))
  ∧ (∀ k f, doc_findings (report_data_security_findings r) !! k = Some f →
       dsf_time f = date_now host (ticks s + 1 + n + k))
  ∧ (∀ k o, report_recommendations r !! k = Some o →
       rec_uid o = "rec-" +:+ pretty (date_now host (ticks s + 1 + n + d + k))
                   +:+ "-" +:+ pretty k)
  ∧ ticks s' = (ticks s + 1 + n + d + length (report_recommendations r))%nat.
Proof.
  intros (m & label & violations & recommendations & sa & sb & _ & _ & _ & _
          & _ & _ & Hcf & Hdsf & Hrec & _ & _ & _ & _ & _ & _ & _ & _ & _
          & Hat)%exportCombinedReport_parts.
  cbv zeta.
  apply exportComplianceFindings_clock in Hcf as [Hta Hcf].
  apply exportDataSecurityFindings_clock in Hdsf as [Htb Hdsf].
  apply exportRecommendations_clock in Hrec as [Hts Hrec].
  cbn [ticks] in Hta, Hcf.
  split; [done |]. split; [| split; [| split]].
  - intros k f Hf. rewrite (Hcf k f Hf). f_equal. lia.
  - intros k f Hf. rewrite (Hdsf k f Hf), Hta. f_equal. lia.
  - intros k o Ho. rewrite (Hrec k o Ho).
    replace (ticks sb + k)%nat
      with (ticks s + 1 + length (doc_findings (report_compliance_findings r))
            + length (doc_findings (report_data_security_findings r)) + k)%nat by lia.
    reflexivity.
  - lia.
Qed.

(** Three violations, two of a data category, and one recommendation: seven
    readings of the clock. *)
Lemma one_clock_reading_per_record_witness :
  ∃ r s',
    exportCombinedReport example_host example_results 1%positive
      (store_with example_answers) = Ok (r, s')
    ∧ ticks s' = 7%nat
    ∧ ∀ k f, doc_findings (report_data_security_findings r) !! k = Some f →
        dsf_time f = 1700000000000 + Z.of_nat (4 + k).
Proof.
  destruct (exportCombinedReport example_host example_results 1%positive
              (store_with example_answers)) as [[r s'] | e] eqn:E;
    [| vm_compute in E; discriminate E].
  destruct (one_clock_reading_per_record example_host example_results 1%positive
              (store_with example_answers) r s' E)
    as (_ & _ & Hdsf & _ & Hticks).
  assert (Hn : length (doc_findings (report_compliance_findings r)) = 3%nat
               ∧ length (doc_findings (report_data_security_findings r)) = 2%nat
               ∧ length (report_recommendations r) = 1%nat).
  { vm_compute in E. injection E as <- <-. repeat split; reflexivity. }
  destruct Hn as (Hn & Hd & Hc).
  exists r, s'. split; [reflexivity |]. split.
  - rewrite Hticks, Hn, Hd, Hc. reflexivity.
  - intros k f Hf. rewrite (Hdsf k f Hf), Hn. reflexivity.
Defined.

(** *** Recommendations *)

(** X12: [exportRecommendations] returns exactly when [recommendations] is
    an array without [null] or [undefined] elements, and throws otherwise.
    When it returns there is one record per recommendation, in order, with
    the fields of the recommendation; [reference] is never falsy, and the
    store is as before. *)
Theorem exportRecommendations_spec (host : Host) (recommendations : data) (s : state) :
  match exportRecommendations host recommendations s with
  | Ok (out, s') =>
      ∃ rs, recommendations = DArr rs
        ∧ Forall (λ r, is_nullish r = false) rs
        ∧ Forall2 recommendation_of rs out
        ∧ Forall (λ o, to_boolean (rec_reference o) = true) out
        ∧ heap s' = heap s
  | Throw _ =>
      ∀ rs, recommendations = DArr rs → Exists (λ r, is_nullish r = true) rs
  end.
Proof.
  destruct (exportRecommendations host recommendations s) as [[out s'] | e] eqn:E.
  - pose proof (keeps_heap_exportRecommendations _ _ _ _ _ E) as Hheap.
    apply exportRecommendations_lookup in E as (rs & Hrs & Hlen & Hk).
    destruct recommendations; try discriminate Hrs. apply Ok_inj in Hrs as ->.
    assert (Hall : Forall2 recommendation_of rs out).
    { apply Forall2_same_length_lookup_2; [done |].
      intros k r o Hr Ho.
      destruct (Hk k o Ho) as (r' & now & reference & Hr' & Hp & Hc & Ha & Hd
                               & Ht & Href & Hdef & _).
      rewrite Hr in Hr'. injection Hr' as <-.
      repeat split; try done. exists reference. by rewrite Hdef. }
    exists rs. split; [done |]. split; [| split; [done | split; [| done]]].
    + apply Forall_lookup. intros k r Hr.
      destruct (Forall2_lookup_l _ _ _ _ _ Hall Hr) as (o & _ & Hp & _).
      by destruct r.
    + apply Forall_lookup. intros k o Ho.
      destruct (Forall2_lookup_r _ _ _ _ _ Hall Ho)
        as (r & _ & _ & _ & _ & _ & _ & reference & _ & ->).
      by destruct (to_boolean reference) eqn:Hb.
  - intros rs ->.
    destruct (decide (Exists (λ r, is_nullish r = true) rs)) as [Hex | Hnone];
      [done |].
    exfalso. apply not_Exists_Forall in Hnone; [| apply _].
    unfold exportRecommendations in E. cbn [as_array] in E.
    rewrite bind_lift_Ok in E.
    match type of E with
    | map_indexed ?f _ _ _ = _ =>
        destruct (map_indexed_ok f (λ _, True) rs 0 s) as (ys & s' & Hok & _)
    end; [| done | congruence].
    eapply Forall_impl; [exact Hnone |]. intros r Hr j s1 _. cbn beta.
    destruct r; try (exfalso; by apply Hr); cbn; eauto.
Qed.

(** *** Remediation texts *)

Lemma filter_result_app {A} (p : A → result bool) (l1 l2 : list A) :
  filter_result p (l1 ++ l2)
  = (a ← filter_result p l1; b ← filter_result p l2; Ok (a ++ b)).
Proof.
  induction l1 as [| x l1 IH]; cbn [app filter_result mbind result_bind].
  - by destruct (filter_result p l2).
  - destruct (p x) as [b |]; [| done]. cbn [mbind result_bind]. rewrite IH.
    destruct (filter_result p l1) as [a |]; [| done]. cbn [mbind result_bind].
    destruct (filter_result p l2) as [c |]; [| done]. cbn [mbind result_bind].
    by destruct b.
Qed.

Lemma filter_result_skip {A} (p : A → result bool) (x : A) (l : list A) :
  p x = Ok false → filter_result p (x :: l) = filter_result p l.
Proof.
  intros Hx. cbn [filter_result]. rewrite Hx. cbn [mbind result_bind].
  by destruct (filter_result p l).
Qed.

(** X13: the remediation text of a violation depends only on the
    recommendations of the violation's category: a recommendation of another
    category, anywhere in the list, does not change it. *)
Theorem getRemediationText_other_category (violation : data)
    (before : list data) (r : data) (after : list data) (rc vc : data) :
  get r "category" = Ok rc →
  get violation "category" = Ok vc →
  strict_eq rc vc = false →
  getRemediationText violation (DArr (before ++ r :: after))
  = getRemediationText violation (DArr (before ++ after)).
Proof.
  intros Hrc Hvc Hne. unfold getRemediationText.
  cbn [as_array mbind result_bind].
  rewrite !filter_result_app, filter_result_skip; [done |].
  rewrite Hrc, Hvc. cbn [mbind result_bind]. by rewrite Hne.
Qed.

(** The text for the violation without a data protection officer, with a
    consent recommendation put before the one that applies. *)
Lemma getRemediationText_other_category_witness :
  getRemediationText dpo_violation
    (DArr ([] ++ DObj (object [("category", DStr "consent");
                               ("action", DStr "Collect consent")]%string)
              :: [DObj (object [("category", DStr "dpo");
                                ("action", DStr "Appoint a DPO")]%string)]))
  = Ok "Appoint a DPO"%string.
Proof.
  rewrite (getRemediationText_other_category dpo_violation [] _ _
             (DStr "consent") (DStr "dpo")); reflexivity.
Defined.

(** *** What the report takes from [answers] *)

Lemma sensitive_data_nonempty_value (host : Host) (answers : loc) (s : state)
    (m : obj) (h : data) (s' : state) :
  heap s !! answers = Some m →
  sensitive_data_nonempty host answers s = Ok (h, s') →
  (if to_boolean (field m "sensitive_data")
   then len ← get (field m "sensitive_data") "length";
        b ← gt_zero host len; Ok (DBool b)
   else Ok (field m "sensitive_data")) = Ok h.
Proof.
  intros Hm H. unfold sensitive_data_nonempty in H.
  rewrite (bind_get_field _ _ _ _ _ Hm) in H.
  destruct (to_boolean (field m "sensitive_data")); cbn [negb] in H.
  - rewrite (bind_get_field _ _ _ _ _ Hm) in H. inv_run H.
    match goal with
    | H1 : get _ "length" = Ok _, H2 : gt_zero _ _ = Ok _ |- _ =>
        rewrite H1; cbn [mbind result_bind]; by rewrite H2
    end.
  - by apply ret_Ok in H as [-> _].
Qed.

(** The confidentiality level is 1 exactly when the sensitive data count as
    none. *)
Lemma confidentiality_and_nonempty (host : Host) (sd : data) (c : Z) (h : data) :
  getConfidentialityLevel sd = Ok c →
  (if to_boolean sd
   then len ← get sd "length"; b ← gt_zero host len; Ok (DBool b)
   else Ok sd) = Ok h →
  1 ≤ c ≤ 4 ∧ (c = 1 ↔ to_boolean h = false).
Proof.
  unfold getConfidentialityLevel.
  destruct (to_boolean sd) eqn:Hsd; cbn [negb].
  2:{ intros <-%Ok_inj <-%Ok_inj. split; [lia | done]. }
  destruct sd as [| | b | n | t | l | m0]; try discriminate Hsd;
    cbn [get mbind result_bind String.eqb Ascii.eqb Bool.eqb includes strict_eq gt_zero].
  - discriminate.
  - discriminate.
  - destruct t as [| a t]; [discriminate Hsd |].
    cbn [String.length]. rewrite Nat2Z.inj_succ.
    rewrite (proj2 (Z.eqb_neq (Z.succ (Z.of_nat (String.length t))) 0)) by lia.
    rewrite (proj2 (Z.ltb_lt 0 (Z.succ (Z.of_nat (String.length t))))) by lia.
    intros Hc <-%Ok_inj.
    cbn [mbind result_bind] in Hc.
      repeat (case_match; cbn [mbind result_bind] in Hc);
        apply Ok_inj in Hc as <-; split; (lia || done).
  - destruct l as [| x l].
    + intros <-%Ok_inj <-%Ok_inj. split; [lia | done].
    + cbn [length]. rewrite Nat2Z.inj_succ.
      rewrite (proj2 (Z.eqb_neq (Z.succ (Z.of_nat (length l))) 0)) by lia.
      rewrite (proj2 (Z.ltb_lt 0 (Z.succ (Z.of_nat (length l))))) by lia.
      intros Hc <-%Ok_inj.
      cbn [mbind result_bind] in Hc.
      repeat (case_match; cbn [mbind result_bind] in Hc);
        apply Ok_inj in Hc as <-; split; (lia || done).
  - destruct (field m0 "length") as [| | b | n | t | l | m1];
      cbn [strict_eq mbind result_bind]; try discriminate.
    destruct (n =? 0) eqn:Hn; [| discriminate].
    apply Z.eqb_eq in Hn as ->. cbn [gt_zero mbind result_bind].
    intros <-%Ok_inj <-%Ok_inj. split; [lia | done].
Qed.

(** X14: what a combined report takes from [answers] is the same
    everywhere in it.  Every compliance finding names the organisation as
    the report's metadata do; every finding of either class carries the
    same list of sensitive data types; and the confidentiality level of
    every data security finding is between 1 and 4, and is 1 exactly when
    the summary says that there are no sensitive data. *)
Theorem answers_in_report (host : Host) (results : data) (answers : loc)
    (s : state) (r : CombinedReport loc) (s' : state) :
  exportCombinedReport host results answers s = Ok (r, s') →
  ∃ sensitive_data_types,
    (∀ f, f ∈ doc_findings (report_compliance_findings r) →
       organization_name (cf_organization f) = rm_organization_type (report_metadata r)
       ∧ organization_ou_name (cf_organization f) = rm_data_scale (report_metadata r)
       ∧ cu_sensitive_data_types (cf_unmapped f) = sensitive_data_types)
    ∧ (∀ f, f ∈ doc_findings (report_data_security_findings r) →
         du_sensitive_data_types (dsf_unmapped f) = sensitive_data_types
         ∧ 1 ≤ ds_confidentiality_id (dsf_data_security f) ≤ 4
         ∧ (ds_confidentiality_id (dsf_data_security f) = 1
            ↔ to_boolean (summary_has_sensitive_data (report_summary r)) = false)).
Proof.
  intros (m & label & violations & recommendations & sa & sb & Hm & _ & _ & _
          & _ & Hhas & Hcf & Hdsf & _ & _ & _ & _ & _ & _ & _ & _ & Horg & Hscale
          & _)%exportCombinedReport_parts.
  apply (sensitive_data_nonempty_value _ _ _ m) in Hhas; [| done].
  exists (or_data (field m "sensitive_data") (DArr [])). split.
  - intros f (k & Hf)%list_elem_of_lookup.
    destruct (compliance_finding_origin _ _ _ _ _ _ _ _ Hcf Hf)
      as (v & s1 & s2 & _ & Hs1 & _ & Hrun).
    pose proof (lookup_weaken _ _ _ _ Hm Hs1) as Hm1.
    apply createComplianceFinding_fields in Hrun
      as (m' & ? & ? & ? & ? & ? & ? & ? & Hm' & _ & _ & _ & _ & _ & _ & _ & _ & _
          & _ & _ & _ & _ & _ & _ & _ & _ & _ & Horg' & Hscale' & _ & Hsd).
    assert (m' = m) as -> by congruence.
    rewrite Horg in Horg'. rewrite Hscale in Hscale'.
    apply Ok_inj in Horg', Hscale'. done.
  - intros f Hf.
    apply exportComplianceFindings_inv in Hcf as (? & ? & _ & _ & _ & _ & Hsub & _).
    pose proof (lookup_weaken _ _ _ _ Hm Hsub) as Hma.
    destruct (data_security_finding_origin _ _ _ _ _ _ _ Hdsf Hf)
      as (v & k & s1 & s2 & _ & Hs1 & Hrun).
    apply createDataSecurityFinding_fields in Hrun
      as (m' & ? & ? & ? & ? & Hm' & _ & _ & _ & _ & _ & _ & _ & _ & _ & _
          & Hconf & _ & _ & _ & _ & Hsd).
    rewrite Hs1 in Hm'. assert (m' = m) as -> by congruence.
    split; [done |]. by eapply confidentiality_and_nonempty.
Qed.

(** The example: medical data, so level 4 and sensitive data in the
    summary. *)
Lemma answers_in_report_witness :
  ∃ r s',
    exportCombinedReport example_host example_results 1%positive
      (store_with example_answers) = Ok (r, s')
    ∧ summary_has_sensitive_data (report_summary r) = DBool true
    ∧ ∀ f, f ∈ doc_findings (report_data_security_findings r) →
        ds_confidentiality_id (dsf_data_security f) ≠ 1.
Proof.
  destruct (exportCombinedReport example_host example_results 1%positive
              (store_with example_answers)) as [[r s'] | e] eqn:E;
    [| vm_compute in E; discriminate E].
  destruct (answers_in_report example_host example_results 1%positive
              (store_with example_answers) r s' E) as (types & _ & Hdsf).
  assert (Hhas : summary_has_sensitive_data (report_summary r) = DBool true).
  { vm_compute in E. injection E as <- <-. reflexivity. }
  exists r, s'. split; [reflexivity |]. split; [exact Hhas |].
  intros f Hf Hone. destruct (Hdsf f Hf) as (_ & _ & Hiff).
  apply Hiff in Hone. rewrite Hhas in Hone. discriminate Hone.
Defined.

(** *** Risk labels *)

(** X15: for a risk label given as text that does not name a property of
    [Object.prototype], [mapRiskLevel] returns a number between 0 and 4; it
    is 4 exactly for the two highest labels, and 0 exactly for the lowest
    label and for every text that is not one of the six labels. *)
Theorem mapRiskLevel_ids (label : string) :
  object_prototype_get label = None →
  ∃ n, mapRiskLevel (DStr label) = Ok (Data (DNum n))
       ∧ 0 ≤ n ≤ 4
       ∧ (n = 4 ↔ label ∈ ["קריטי"; "גבוה מאוד"]%string)
       ∧ (n = 0 ↔ label ∉ ["קריטי"; "גבוה מאוד"; "גבוה"; "בינוני"; "נמוך"]%string).
Proof.
  intros Hp.
  assert (Hin5 : ∀ k : string,
    k ∈ ["קריטי"; "גבוה מאוד"; "גבוה"; "בינוני"; "נמוך"]%string
    ↔ k = "קריטי"%string ∨ k = "גבוה מאוד"%string ∨ k = "גבוה"%string
      ∨ k = "בינוני"%string ∨ k = "נמוך"%string).
  { intros k. rewrite !elem_of_cons, elem_of_nil. tauto. }
  assert (Hin2 : ∀ k : string,
    k ∈ ["קריטי"; "גבוה מאוד"]%string ↔ k = "קריטי"%string ∨ k = "גבוה מאוד"%string).
  { intros k. rewrite !elem_of_cons, elem_of_nil. tauto. }
  destruct (String.eqb_spec label "קריטי") as [-> | H1].
  { exists 4. split; [reflexivity |]. split; [lia |]. rewrite Hin2, Hin5.
    split; [tauto |]. split; [discriminate | tauto]. }
  destruct (String.eqb_spec label "גבוה מאוד") as [-> | H2].
  { exists 4. split; [reflexivity |]. split; [lia |]. rewrite Hin2, Hin5.
    split; [tauto |]. split; [discriminate | tauto]. }
  destruct (String.eqb_spec label "גבוה") as [-> | H3].
  { exists 3. split; [reflexivity |]. split; [lia |]. rewrite Hin2, Hin5.
    split; [split; [discriminate | by intros [[=] | [=]]] |].
    split; [discriminate | tauto]. }
  destruct (String.eqb_spec label "בינוני") as [-> | H4].
  { exists 2. split; [reflexivity |]. split; [lia |]. rewrite Hin2, Hin5.
    split; [split; [discriminate | by intros [[=] | [=]]] |].
    split; [discriminate | tauto]. }
  destruct (String.eqb_spec label "נמוך") as [-> | H5].
  { exists 1. split; [reflexivity |]. split; [lia |]. rewrite Hin2, Hin5.
    split; [split; [discriminate | by intros [[=] | [=]]] |].
    split; [discriminate | tauto]. }
  exists 0. rewrite Hin2, Hin5. split; [| split; [lia | split; [| tauto]]].
  - destruct (String.eqb_spec label "מינימלי") as [-> | H6]; [reflexivity |].
    unfold mapRiskLevel, to_property_key. cbn [to_string mbind result_bind].
    rewrite obj_get_absent; [done | | done].
    cbn. rewrite !not_elem_of_cons. repeat split; try done. apply not_elem_of_nil.
  - split; [discriminate | tauto].
Qed.

(** An unknown label gets 0. *)
Lemma mapRiskLevel_ids_witness :
  ∃ n, mapRiskLevel (DStr "severe") = Ok (Data (DNum n))
       ∧ 0 ≤ n ≤ 4
       ∧ (n = 4 ↔ "severe"%string ∈ ["קריטי"; "גבוה מאוד"]%string)
       ∧ (n = 0 ↔ "severe"%string
                  ∉ ["קריטי"; "גבוה מאוד"; "גבוה"; "בינוני"; "נמוך"]%string).
Proof. apply (mapRiskLevel_ids "severe"). reflexivity. Defined.

(** *** Organisation labels *)

Lemma getOrganizationType_label (k : string) :
  object_prototype_get k = None →
  ∃ name, getOrganizationType (DStr k) = Ok (Data (DStr name))
    ∧ (name = "ארגון"%string
       ↔ k ∉ ["public"; "private"; "databroker"; "security"; "financial";
              "healthcare"]%string).
Proof.
  intros Hp.
  destruct (decide (k ∈ ["public"; "private"; "databroker"; "security";
                         "financial"; "healthcare"]%string)) as [Hin | Hout].
  - pose proof Hin as Hin'.
    repeat (apply elem_of_cons in Hin' as [-> | Hin'];
      [eexists; split; [reflexivity |]; split; [discriminate | done] |]).
    by apply elem_of_nil in Hin'.
  - exists "ארגון"%string. split; [| done].
    unfold getOrganizationType, to_property_key. cbn [to_string mbind result_bind].
    rewrite obj_get_absent; done.
Qed.

Lemma getDataScale_label (k : string) :
  object_prototype_get k = None →
  ∃ scale, getDataScale (DStr k) = Ok (Data (DStr scale))
    ∧ (scale = "Unknown"%string
       ↔ k ∉ ["less_10k"; "10k_100k"; "100k_500k"; "500k_1m"; "over_1m"]%string).
Proof.
  intros Hp.
  destruct (decide (k ∈ ["less_10k"; "10k_100k"; "100k_500k"; "500k_1m";
                         "over_1m"]%string)) as [Hin | Hout].
  - pose proof Hin as Hin'.
    repeat (apply elem_of_cons in Hin' as [-> | Hin'];
      [eexists; split; [reflexivity |]; split; [discriminate | done] |]).
    by apply elem_of_nil in Hin'.
  - exists "Unknown"%string. split; [| done].
    unfold getDataScale, to_property_key. cbn [to_string mbind result_bind].
    rewrite obj_get_absent; done.
Qed.

(** X16: for an organisation type and a data scale given as text that
    names no property of [Object.prototype], [getOrganizationType] and
    [getDataScale] return a text: the generic 'ארגון', respectively
    'Unknown', exactly for the texts that are no key of the table. *)
Theorem organization_labels (org_type data_subjects_count : string) :
  object_prototype_get org_type = None →
  object_prototype_get data_subjects_count = None →
  ∃ name scale,
    getOrganizationType (DStr org_type) = Ok (Data (DStr name))
    ∧ getDataScale (DStr data_subjects_count) = Ok (Data (DStr scale))
    ∧ (name = "ארגון"%string
       ↔ org_type ∉ ["public"; "private"; "databroker"; "security"; "financial";
                     "healthcare"]%string)
    ∧ (scale = "Unknown"%string
       ↔ data_subjects_count
         ∉ ["less_10k"; "10k_100k"; "100k_500k"; "500k_1m"; "over_1m"]%string).
Proof.
  intros (name & Hname & Hn)%getOrganizationType_label
         (scale & Hscale & Hs)%getDataScale_label.
  by exists name, scale.
Qed.

(** A charity with 'many' data subjects: both defaults. *)
Lemma organization_labels_witness :
  getOrganizationType (DStr "charity") = Ok (Data (DStr "ארגון"))
  ∧ getDataScale (DStr "many") = Ok (Data (DStr "Unknown")).
Proof.
  destruct (organization_labels "charity" "many" eq_refl eq_refl)
    as (name & scale & Hname & Hscale & Hn & Hs).
  assert (name = "ארגון"%string) as ->.
  { apply Hn. rewrite !not_elem_of_cons. repeat split; try done. apply not_elem_of_nil. }
  assert (scale = "Unknown"%string) as ->.
  { apply Hs. rewrite !not_elem_of_cons. repeat split; try done. apply not_elem_of_nil. }
  done.
Defined.

(** *** The two classes of findings *)

Lemma createComplianceFinding_texts (host : Host) (violation : data) (index : nat)
    (results : data) (answers : loc) (s : state) (f : ComplianceFinding loc) (s' : state) :
  createComplianceFinding host violation index results answers s = Ok (f, s') →
  ∃ description category d,
    get violation "description" = Ok description
    ∧ get violation "category" = Ok category
    ∧ getDetailedDescription host violation = Ok d
    ∧ fi_title (cf_finding_info f) = description
    ∧ fi_types (cf_finding_info f) = [category]
    ∧ fi_desc (cf_finding_info f) = DStr d.
Proof.
  intros H. unfold createComplianceFinding in H. inv_run H.
  do 3 eexists. cbn.
  repeat (split; [first [eassumption | reflexivity] |]).
  reflexivity.
Qed.

Lemma createDataSecurityFinding_texts (host : Host) (violation : data) (index : nat)
    (results : data) (answers : loc) (s : state) (f : DataSecurityFinding) (s' : state) :
  createDataSecurityFinding host violation index results answers s = Ok (f, s') →
  ∃ description,
    get violation "description" = Ok description
    ∧ fi_title (dsf_finding_info f) = description
    ∧ getDataViolationDescription host violation answers
        {| heap := heap s; ticks := S (ticks s) |}
      = Ok (fi_desc (dsf_finding_info f), {| heap := heap s; ticks := S (ticks s) |}).
Proof.
  intros H. unfold createDataSecurityFinding in H.
  repeat (inv_step H;
    try match goal with
    | Hd : getDataViolationDescription _ _ _ _ = Ok (_, ?s2) |- _ =>
        pose proof (reads_only_getDataViolationDescription _ _ _ _ _ _ Hd); subst s2
    | Hr : getAffectedResources _ _ _ = Ok _ |- _ =>
        apply reads_only_getAffectedResources in Hr; subst
    end).
  apply ret_Ok in H as [-> ->]. same_reads.
  eexists. cbn.
  repeat (split; [first [eassumption | reflexivity] |]).
  eassumption.
Qed.

Lemma compliance_findings_built (host : Host) (results : data) (answers : loc)
    (s : state) (doc : Document (ComplianceFinding loc)) (s' : state) :
  exportComplianceFindings host results answers s = Ok (doc, s') →
  Forall2
    (λ v f, ∃ k s1 s2,
       createComplianceFinding host v k results answers s1 = Ok (f, s2))
    (violations_of_array results) (doc_findings doc).
Proof.
  intros Hcf.
  pose proof Hcf as (violations' & elems & Hv' & Harr & _ & _ & _ & Hlen & _)%exportComplianceFindings_inv.
  apply Forall2_same_length_lookup_2.
  { unfold violations_of_array. rewrite Hv', Harr. by rewrite Hlen. }
  intros k v f Hvk Hf.
  destruct (compliance_finding_origin _ _ _ _ _ _ _ _ Hcf Hf)
    as (v' & s1 & s2 & Hv'k & _ & _ & Hrun).
  rewrite Hvk in Hv'k. injection Hv'k as <-. eauto.
Qed.

Lemma data_security_findings_built (host : Host) (results : data) (answers : loc)
    (s : state) (doc : Document DataSecurityFinding) (s' : state) :
  exportDataSecurityFindings host results answers s = Ok (doc, s') →
  Forall2
    (λ v g, ∃ k s1 s2,
       createDataSecurityFinding host v k results answers s1 = Ok (g, s2))
    (List.filter has_data_category (violations_of_array results)) (doc_findings doc).
Proof.
  intros Hdsf.
  pose proof Hdsf as (violations' & elems & Hv' & Harr & _ & _ & _ & _ & Hlen & _)%exportDataSecurityFindings_inv.
  apply Forall2_same_length_lookup_2.
  { unfold violations_of_array. rewrite Hv', Harr. by rewrite Hlen. }
  intros k v g Hvk Hg.
  destruct (data_security_finding_at _ _ _ _ _ _ _ _ Hdsf Hg)
    as (v' & s1 & s2 & Hv'k & _ & Hrun).
  rewrite Hvk in Hv'k. injection Hv'k as <-. eauto.
Qed.

Lemma sublist_of_filter {A B C D} (Q : A → B → Prop) (R : A → C → Prop)
    (p : A → bool) (pb : B → D) (pc : C → D)
    (l : list A) (bs : list B) (cs : list C) :
  (∀ v b c, Q v b → R v c → pc c = pb b) →
  Forall2 Q l bs →
  Forall2 R (List.filter p l) cs →
  (pc <$> cs) `sublist_of` (pb <$> bs).
Proof.
  intros Hsame HQ. revert cs. induction HQ as [| v b l bs Hvb _ IH]; intros cs HR.
  - cbn in HR. apply Forall2_nil_inv_l in HR as ->. constructor.
  - cbn [List.filter] in HR. destruct (p v).
    + apply Forall2_cons_inv_l in HR as (c & cs' & Hvc & HR & ->).
      cbn. rewrite (Hsame v b c Hvb Hvc). apply sublist_skip, IH, HR.
    + cbn. apply sublist_cons, IH, HR.
Qed.

(** X17: the data security findings of a combined report are, in order, a
    selection of its compliance findings as to title, types, severity,
    impact and risk level: each of them repeats these fields of the
    compliance finding of the same violation. *)
Theorem data_security_findings_among_compliance_findings (host : Host)
    (results : data) (answers : loc) (s : state) (r : CombinedReport loc) (s' : state) :
  exportCombinedReport host results answers s = Ok (r, s') →
  (data_security_core <$> doc_findings (report_data_security_findings r))
  `sublist_of`
  (compliance_core <$> doc_findings (report_compliance_findings r)).
Proof.
  intros (m & label & violations & recommendations & sa & sb & _ & _ & _ & _
          & _ & _ & Hcf & Hdsf & _)%exportCombinedReport_parts.
  eapply sublist_of_filter;
    [| exact (compliance_findings_built _ _ _ _ _ _ Hcf)
     | exact (data_security_findings_built _ _ _ _ _ _ Hdsf)].
  intros v f g (k1 & s1 & s2 & Hf) (k2 & s3 & s4 & Hg).
  pose proof (createComplianceFinding_texts _ _ _ _ _ _ _ _ Hf)
    as (description & category & d & Hdesc & Hcat & _ & Htitle & Htypes & _).
  pose proof (createDataSecurityFinding_texts _ _ _ _ _ _ _ _ Hg)
    as (description' & Hdesc' & Htitle' & _).
  apply createComplianceFinding_fields in Hf
    as (? & severity & ? & ? & ? & ? & lbl & ? & _ & Hsev & _ & _ & _ & _ & Hlbl & _
        & _ & _ & Hsid & Himp & Hrisk & _).
  apply createDataSecurityFinding_fields in Hg
    as (? & severity' & ? & category' & lbl' & _ & Hsev' & _ & Hcat' & Hlbl' & _ & _
        & Hsid' & Himp' & Hrisk' & _ & _ & _ & _ & Htypes' & _).
  unfold data_security_core, compliance_core.
  rewrite Htitle, Htitle', Htypes, Htypes'.
  assert (description' = description) as -> by congruence.
  assert (category' = category) as -> by congruence.
  assert (severity' = severity) as -> by congruence.
  assert (lbl' = lbl) as -> by congruence.
  rewrite Hsid in Hsid'. rewrite Himp in Himp'. rewrite Hrisk in Hrisk'.
  apply Ok_inj in Hsid', Himp', Hrisk'. by rewrite Hsid', Himp', Hrisk'.
Qed.

(** Of the three findings of the example, the first and the third are
    repeated as data security findings. *)
Lemma data_security_findings_among_compliance_findings_witness :
  ∃ r s',
    exportCombinedReport example_host example_results 1%positive
      (store_with example_answers) = Ok (r, s')
    ∧ length (doc_findings (report_data_security_findings r)) = 2%nat
    ∧ (data_security_core <$> doc_findings (report_data_security_findings r))
      `sublist_of`
      (compliance_core <$> doc_findings (report_compliance_findings r)).
Proof.
  destruct (exportCombinedReport example_host example_results 1%positive
              (store_with example_answers)) as [[r s'] | e] eqn:E;
    [| vm_compute in E; discriminate E].
  exists r, s'. split; [reflexivity |]. split.
  - vm_compute in E. injection E as <- <-. reflexivity.
  - exact (data_security_findings_among_compliance_findings example_host
             example_results 1%positive (store_with example_answers) r s' E).
Defined.

(** *** Descriptions *)

Lemma string_app_assoc (a b c : string) : (a +:+ b) +:+ c = a +:+ b +:+ c.
Proof.
  induction a as [| x a IH]; [done |].
  change (String x ((a +:+ b) +:+ c) = String x (a +:+ b +:+ c)). by f_equal.
Qed.

Lemma getDetailedDescription_prefix (host : Host) (violation : data) (d : string) :
  getDetailedDescription host violation = Ok d →
  ∃ description t rest,
    get violation "description" = Ok description
    ∧ to_string description = Ok t
    ∧ d = t +:+ rest.
Proof.
  unfold getDetailedDescription. intros H.
  destruct (get violation "description") as [description |]; [| discriminate].
  cbn [mbind result_bind] in H.
  destruct (to_string description) as [t |] eqn:Ht; [| discriminate].
  cbn [mbind result_bind] in H.
  repeat match type of H with
  | (?c ≫= _) = Ok _ => destruct c; [| discriminate]; cbn [mbind result_bind] in H
  end.
  apply Ok_inj in H as <-. exists description, t. eexists.
  split; [reflexivity |]. split; [exact Ht | reflexivity].
Qed.

Lemma getDataViolationDescription_prefix (host : Host) (violation : data)
    (answers : loc) (s : state) (d : data) (s' : state) :
  getDataViolationDescription host violation answers s = Ok (d, s') →
  ∃ description,
    get violation "description" = Ok description
    ∧ (d = description
       ∨ ∃ t rest, to_string description = Ok t ∧ d = DStr (t +:+ rest)).
Proof.
  intros H. unfold getDataViolationDescription in H.
  apply bind_Ok in H as (description & s1 & [Hdesc ->]%lift_Ok & H).
  apply bind_Ok in H as (sensitive & s2 & _ & H).
  apply bind_Ok in H as (desc & s3 & Hfirst & H).
  exists description. split; [done |].
  assert (Hmid : desc = description
                 ∨ ∃ t rest, to_string description = Ok t ∧ desc = DStr (t +:+ rest)).
  { destruct (to_boolean sensitive).
    - inv_run Hfirst. right. eauto.
    - apply ret_Ok in Hfirst as [-> _]. by left. }
  apply bind_Ok in H as (count & s4 & _ & H).
  destruct (to_boolean count).
  - inv_run H. right.
    destruct Hmid as [-> | (t & rest & Ht & ->)]; [eauto |].
    match goal with
    | Hs : to_string (DStr _) = Ok _ |- _ => cbn in Hs; apply Ok_inj in Hs as <-
    end.
    rewrite string_app_assoc. eauto.
  - by apply ret_Ok in H as [-> _].
Qed.

(** X18: the description of a finding extends its title.  In a compliance
    finding [desc] is a text that begins with the title as text; in a data
    security finding [desc] is the title itself, or a text that begins with
    the title as text. *)
Theorem descriptions_extend_titles (host : Host) (results : data) (answers : loc)
    (s : state) (r : CombinedReport loc) (s' : state) :
  exportCombinedReport host results answers s = Ok (r, s') →
  (∀ f, f ∈ doc_findings (report_compliance_findings r) →
     ∃ t rest, to_string (fi_title (cf_finding_info f)) = Ok t
       ∧ fi_desc (cf_finding_info f) = DStr (t +:+ rest))
  ∧ (∀ g, g ∈ doc_findings (report_data_security_findings r) →
       fi_desc (dsf_finding_info g) = fi_title (dsf_finding_info g)
       ∨ ∃ t rest, to_string (fi_title (dsf_finding_info g)) = Ok t
           ∧ fi_desc (dsf_finding_info g) = DStr (t +:+ rest)).
Proof.
  intros (m & label & violations & recommendations & sa & sb & _ & _ & _ & _
          & _ & _ & Hcf & Hdsf & _)%exportCombinedReport_parts.
  split.
  - intros f (k & Hf)%list_elem_of_lookup.
    destruct (compliance_finding_origin _ _ _ _ _ _ _ _ Hcf Hf)
      as (v & s1 & s2 & _ & _ & _ & Hrun).
    apply createComplianceFinding_texts in Hrun
      as (description & category & d & Hdesc & _ & Hd & -> & _ & ->).
    apply getDetailedDescription_prefix in Hd
      as (description' & t & rest & Hdesc' & Ht & ->).
    assert (description' = description) as -> by congruence. eauto.
  - intros g Hg.
    destruct (data_security_finding_origin _ _ _ _ _ _ _ Hdsf Hg)
      as (v & k & s1 & s2 & _ & _ & Hrun).
    apply createDataSecurityFinding_texts in Hrun
      as (description & Hdesc & -> & Hd).
    apply getDataViolationDescription_prefix in Hd
      as (description' & Hdesc' & Hd).
    assert (description' = description) as -> by congruence. done.
Qed.

(** The descriptions of the example begin with 'No consent records' and
    the like. *)
Lemma descriptions_extend_titles_witness :
  ∃ r s',
    exportCombinedReport example_host example_results 1%positive
      (store_with example_answers) = Ok (r, s')
    ∧ length (doc_findings (report_compliance_findings r)) = 3%nat
    ∧ ∀ f, f ∈ doc_findings (report_compliance_findings r) →
        ∃ t rest, to_string (fi_title (cf_finding_info f)) = Ok t
          ∧ fi_desc (cf_finding_info f) = DStr (t +:+ rest).
Proof.
  destruct (exportCombinedReport example_host example_results 1%positive
              (store_with example_answers)) as [[r s'] | e] eqn:E;
    [| vm_compute in E; discriminate E].
  exists r, s'. split; [reflexivity |]. split.
  - vm_compute in E. injection E as <- <-. reflexivity.
  - exact (proj1 (descriptions_extend_titles example_host example_results
                    1%positive (store_with example_answers) r s' E)).
Defined.

(** *** Sanitising twice *)

Lemma sanitized_idempotent (m : obj) : sanitized (sanitized m) = sanitized m.
Proof.
  apply map_eq. intros k. rewrite !sanitized_lookup. by case_decide.
Qed.

(** X19: [sanitizeAnswers] never returns its argument and never changes
    it: the result is a new object without the two identifying fields, and
    sanitising that copy again gives one more new object with the same
    properties. *)
Theorem sanitizeAnswers_twice (answers : loc) (s : state) (m : obj) :
  heap s !! answers = Some m →
  ∃ copy s1 copy' s2,
    sanitizeAnswers answers s = Ok (copy, s1)
    ∧ sanitizeAnswers copy s1 = Ok (copy', s2)
    ∧ NoDup [answers; copy; copy']
    ∧ heap s !! copy = None
    ∧ heap s1 !! copy' = None
    ∧ heap s2 !! answers = Some m
    ∧ heap s2 !! copy = Some (sanitized m)
    ∧ heap s2 !! copy' = Some (sanitized m).
Proof.
  intros Hm.
  pose proof (sanitizeAnswers_run answers s m Hm) as Hrun1.
  set (copy := fresh (dom (heap s))) in *.
  set (s1 := {| heap := <[copy := sanitized m]> (heap s); ticks := ticks s |}) in *.
  assert (Hfresh : heap s !! copy = None) by apply not_elem_of_dom, is_fresh.
  assert (Hne : copy ≠ answers) by (intros Heq; congruence).
  assert (Hcopy : heap s1 !! copy = Some (sanitized m)) by apply lookup_insert_eq.
  pose proof (sanitizeAnswers_run copy s1 (sanitized m) Hcopy) as Hrun2.
  set (copy' := fresh (dom (heap s1))) in *.
  assert (Hfresh' : heap s1 !! copy' = None) by apply not_elem_of_dom, is_fresh.
  assert (Hne' : copy' ≠ copy) by (intros Heq; congruence).
  assert (Hm1 : heap s1 !! answers = Some m).
  { unfold s1. cbn [heap]. by rewrite lookup_insert_ne. }
  assert (Hne'' : copy' ≠ answers) by (intros Heq; congruence).
  exists copy, s1, copy'. eexists.
  split; [exact Hrun1 |]. split; [exact Hrun2 |]. cbn [heap].
  split; [| split; [done | split; [done | split; [| split]]]].
  - repeat constructor; set_solver.
  - by rewrite lookup_insert_ne.
  - by rewrite lookup_insert_ne.
  - by rewrite lookup_insert_eq, sanitized_idempotent.
Qed.

(** The example answers, sanitised twice. *)
Lemma sanitizeAnswers_twice_witness :
  ∃ copy s1 copy' s2,
    sanitizeAnswers 1%positive (store_with example_answers) = Ok (copy, s1)
    ∧ sanitizeAnswers copy s1 = Ok (copy', s2)
    ∧ NoDup [1%positive; copy; copy']
    ∧ heap s2 !! 1%positive = Some example_answers
    ∧ heap s2 !! copy' = Some (sanitized example_answers).
Proof.
  destruct (sanitizeAnswers_twice 1%positive (store_with example_answers)
              example_answers eq_refl)
    as (copy & s1 & copy' & s2 & H1 & H2 & Hnodup & _ & _ & Ha & _ & Hc).
  exists copy, s1, copy', s2. done.
Defined.

(** *** The summary and the data protection officer *)

(** X20: in the summary of a combined report, for any [answers]:
    [requires_dpo] is [true] for a public body and for a data broker; for
    every other organisation it is the value of [has_sensitive_data] when
    that is falsy, and otherwise tells whether [data_subjects_count] is one
    of the three largest scales.  So a data protection officer is required
    only of a public body, a data broker or an organisation with sensitive
    data. *)
Theorem dpo_in_summary (host : Host) (results : data) (answers : loc)
    (s : state) (r : CombinedReport loc) (s' : state) :
  exportCombinedReport host results answers s = Ok (r, s') →
  ∃ m, heap s !! answers = Some m
    ∧ let dpo := summary_requires_dpo (report_summary r) in
      let has := summary_has_sensitive_data (report_summary r) in
      let public := field m "org_type" = DStr "public"
                    ∨ field m "org_type" = DStr "databroker" in
      (public → dpo = DBool true)
      ∧ (¬ public → to_boolean has = false → dpo = has)
      ∧ (¬ public → to_boolean has = true →
           dpo = DBool (literal_includes ["100k_500k"; "500k_1m"; "over_1m"]%string
                          (field m "data_subjects_count")))
      ∧ (to_boolean dpo = true → public ∨ to_boolean has = true).
Proof.
  intros (m & label & violations & recommendations & sa & sb & Hm & _ & _ & _
          & Hdpo & Hhas & _)%exportCombinedReport_parts.
  exists m. split; [done |]. cbv zeta.
  set (st := {| heap := heap s; ticks := S (ticks s) |}) in *.
  assert (Hst : heap st !! answers = Some m) by done.
  unfold requiresDPO in Hdpo.
  rewrite (bind_get_field _ _ _ _ _ Hst) in Hdpo.
  destruct (strict_eq (field m "org_type") (DStr "public")) eqn:Hpub.
  { apply ret_Ok in Hdpo as [<- _]. apply strict_eq_str in Hpub.
    repeat split; tauto. }
  rewrite (bind_get_field _ _ _ _ _ Hst) in Hdpo.
  destruct (strict_eq (field m "org_type") (DStr "databroker")) eqn:Hbroker.
  { apply ret_Ok in Hdpo as [<- _]. apply strict_eq_str in Hbroker.
    repeat split; tauto. }
  assert (Hnot : ¬ (field m "org_type" = DStr "public"
                    ∨ field m "org_type" = DStr "databroker")).
  { intros [H | H]; apply strict_eq_str in H; congruence. }
  rewrite (bind_run _ _ _ _ _ Hhas) in Hdpo.
  destruct (to_boolean (summary_has_sensitive_data (report_summary r))) eqn:Hb;
    cbn [negb] in Hdpo.
  - rewrite (bind_get_field _ _ _ _ _ Hst) in Hdpo.
    apply ret_Ok in Hdpo as [Heq _].
    split; [tauto |]. split; [done |]. split; [intros; congruence |].
    intros _. by right.
  - apply ret_Ok in Hdpo as [Heq _].
    split; [tauto |]. split; [intros; congruence |]. split; [done |].
    intros Htrue. congruence.
Qed.

(** The example: a private company with medical data of more than a
    million people. *)
Lemma dpo_in_summary_witness :
  ∃ r s',
    exportCombinedReport example_host example_results 1%positive
      (store_with example_answers) = Ok (r, s')
    ∧ summary_requires_dpo (report_summary r) = DBool true
    ∧ to_boolean (summary_has_sensitive_data (report_summary r)) = true.
Proof.
  destruct (exportCombinedReport example_host example_results 1%positive
              (store_with example_answers)) as [[r s'] | e] eqn:E;
    [| vm_compute in E; discriminate E].
  destruct (dpo_in_summary example_host example_results 1%positive
              (store_with example_answers) r s' E)
    as (m & Hm & _ & _ & Hlarge & _).
  injection Hm as <-.
  assert (Hhas : to_boolean (summary_has_sensitive_data (report_summary r)) = true).
  { vm_compute in E. injection E as <- <-. reflexivity. }
  exists r, s'. split; [reflexivity |]. split; [| exact Hhas].
  rewrite Hlarge; [reflexivity | | exact Hhas].
  intros [H | H]; discriminate H.
Defined.
